(** * A shallow embedding of the multi-room TCP chat server

    The development follows the C++ sources component by component:
    - [ChatRoom]   : chat_room.h / chat_room.cpp   (rooms and membership)
    - [ConnMgr]    : connection_manager.h / .cpp    (rate limits, mutes, bans)
    - [MsgStore]   : message_store.h / .cpp         (bounded per-room cache)
    - [IStream]    : the fragment of std::istringstream used by the dispatcher
    - [Server]     : server.cpp                     (HandleMessage, ProcessCommand)

    Conventions.  A C++ [int] is a [Z]; client ids are only compared and
    stored, so no arithmetic on them is modelled.  [std::unordered_map] and
    [std::unordered_set] are stdpp's [gmap] and [gset] wherever the code only
    looks keys up; the one map the code searches by iteration
    ([g_client_names]) is an association list in iteration order.  A reading
    of a clock is an explicit argument of the function that reads it. *)

From Stdlib Require Import ZArith Lia Ascii DecimalString DecimalPos DecimalZ.
From stdpp Require Import gmap strings list fin_maps sorting.

Local Open Scope string_scope.
Local Open Scope Z_scope.

(* ===================================================================== *)
(** * chat_room.h / chat_room.cpp                                        *)
(* ===================================================================== *)

Module ChatRoom.

(** [struct Room]. *)
Record Room := mkRoom {
  name : string;
  topic : string;
  members : gset Z;
  owner_id : Z;
  created_at : Z;
  is_private : bool;
  password : string
}.

(** [Room::Room(room_name = "", owner = 0)]; [now] is the reading of
    [steady_clock::now()] taken by the constructor. *)
Definition Room_new (now : Z) (room_name : string) (owner : Z) : Room :=
  {| name := room_name; topic := ""; members := ∅; owner_id := owner;
     created_at := now; is_private := false; password := "" |}.

Definition set_members (f : gset Z → gset Z) (r : Room) : Room :=
  {| name := name r; topic := topic r; members := f (members r);
     owner_id := owner_id r; created_at := created_at r;
     is_private := is_private r; password := password r |}.

Definition set_topic (t : string) (r : Room) : Room :=
  {| name := name r; topic := t; members := members r;
     owner_id := owner_id r; created_at := created_at r;
     is_private := is_private r; password := password r |}.

(** The private state of [class ChatRoomManager]. *)
Record ChatRoomManager := mkManager {
  rooms : gmap string Room;
  client_rooms : gmap Z string
}.

(** [ChatRoomManager::ChatRoomManager()]. *)
Definition ChatRoomManager_new (now : Z) : ChatRoomManager :=
  {| rooms := {[ "general" :=
                 set_topic "Welcome to the chat server!" (Room_new now "general" 0) ]};
     client_rooms := ∅ |}.

(** [ChatRoomManager::CreateRoom]. *)
Definition CreateRoom (now : Z) (nm : string) (owner : Z)
    (priv : bool) (pw : string) (st : ChatRoomManager) : bool * ChatRoomManager :=
  match rooms st !! nm with
  | Some _ => (false, st)
  | None =>
      let room := Room_new now nm owner in
      let room := {| name := name room; topic := topic room; members := members room;
                     owner_id := owner_id room; created_at := created_at room;
                     is_private := priv; password := pw |} in
      (true, {| rooms := <[nm := room]> (rooms st); client_rooms := client_rooms st |})
  end.

(** One iteration of the loop of [DeleteRoom]:
    [client_rooms[client_id] = "general"; rooms["general"].members.insert(client_id);]
    [operator[]] default-constructs a [Room] when the key is absent. *)
Definition migrate_step (now : Z) (st : ChatRoomManager) (client_id : Z) : ChatRoomManager :=
  let g := default (Room_new now "" 0) (rooms st !! "general") in
  {| rooms := <["general" := set_members (λ m, {[client_id]} ∪ m) g]> (rooms st);
     client_rooms := <[client_id := "general"]> (client_rooms st) |}.

(** [ChatRoomManager::DeleteRoom].  The range-for over the member set visits
    the elements in the container's order, here [elements]. *)
Definition DeleteRoom (now : Z) (nm : string) (requester_id : Z)
    (st : ChatRoomManager) : bool * ChatRoomManager :=
  if decide (nm = "general") then (false, st)
  else match rooms st !! nm with
       | None => (false, st)
       | Some r =>
           if bool_decide (owner_id r ≠ requester_id) && bool_decide (requester_id ≠ 0)
           then (false, st)
           else
             let st' := foldl (migrate_step now) st (elements (members r)) in
             (true, {| rooms := delete nm (rooms st'); client_rooms := client_rooms st' |})
       end.

(** [ChatRoomManager::JoinRoom]. *)
Definition JoinRoom (nm : string) (client_id : Z) (pw : string)
    (st : ChatRoomManager) : bool * ChatRoomManager :=
  match rooms st !! nm with
  | None => (false, st)
  | Some r =>
      if is_private r && bool_decide (password r ≠ pw) then (false, st)
      else
        let rooms1 :=
          match client_rooms st !! client_id with
          | Some cur => alter (set_members (λ m, m ∖ {[client_id]})) cur (rooms st)
          | None => rooms st
          end in
        let rooms2 := alter (set_members (λ m, {[client_id]} ∪ m)) nm rooms1 in
        (true, {| rooms := rooms2; client_rooms := <[client_id := nm]> (client_rooms st) |})
  end.

(** [ChatRoomManager::LeaveRoom]. *)
Definition LeaveRoom (client_id : Z) (st : ChatRoomManager) : ChatRoomManager :=
  match client_rooms st !! client_id with
  | Some cur =>
      {| rooms := alter (set_members (λ m, m ∖ {[client_id]})) cur (rooms st);
         client_rooms := delete client_id (client_rooms st) |}
  | None => st
  end.

(** [ChatRoomManager::GetClientRoom]. *)
Definition GetClientRoom (client_id : Z) (st : ChatRoomManager) : string :=
  match client_rooms st !! client_id with
  | Some r => r
  | None => "general"
  end.

(** [ChatRoomManager::SetTopic]. *)
Definition SetTopic (room_name t : string) (requester_id : Z)
    (st : ChatRoomManager) : bool * ChatRoomManager :=
  match rooms st !! room_name with
  | None => (false, st)
  | Some r =>
      if bool_decide (owner_id r ≠ requester_id) && bool_decide (requester_id ≠ 0)
      then (false, st)
      else (true, {| rooms := <[room_name := set_topic t r]> (rooms st);
                     client_rooms := client_rooms st |})
  end.

(** [ChatRoomManager::GetRoomMembers]: the members in the set's order. *)
Definition GetRoomMembers (room_name : string) (st : ChatRoomManager) : list Z :=
  match rooms st !! room_name with
  | None => []
  | Some r => elements (members r)
  end.

(** [ChatRoomManager::RoomExists]. *)
Definition RoomExists (nm : string) (st : ChatRoomManager) : bool :=
  bool_decide (is_Some (rooms st !! nm)).

(** [ChatRoomManager::GetRoommates]. *)
Definition GetRoommates (client_id : Z) (st : ChatRoomManager) : list Z :=
  match client_rooms st !! client_id with
  | None => GetRoomMembers "general" st
  | Some r => GetRoomMembers r st
  end.

(** [ChatRoomManager::ListRooms]: the public rooms, sorted by [std::sort]
    (bytewise lexicographic order). *)
Definition ListRooms (st : ChatRoomManager) : list string :=
  merge_sort (λ a b, Is_true (String.leb a b))
    ((map_to_list (filter (λ kv, is_private kv.2 = false) (rooms st))).*1).

(** A room name is public when it names an existing room that is not
    private. *)
Definition public_room (st : ChatRoomManager) (nm : string) : Prop :=
  ∃ R, rooms st !! nm = Some R ∧ is_private R = false.

(** The four mutating operations as a command type, to speak about
    arbitrary call sequences. *)
Inductive Op :=
| OpCreate (now : Z) (nm : string) (owner : Z) (priv : bool) (pw : string)
| OpDelete (now : Z) (nm : string) (requester : Z)
| OpJoin (nm : string) (client : Z) (pw : string)
| OpLeave (client : Z).

Definition apply_op (st : ChatRoomManager) (o : Op) : ChatRoomManager :=
  match o with
  | OpCreate now nm owner priv pw => (CreateRoom now nm owner priv pw st).2
  | OpDelete now nm req => (DeleteRoom now nm req st).2
  | OpJoin nm c pw => (JoinRoom nm c pw st).2
  | OpLeave c => LeaveRoom c st
  end.

Definition run (ops : list Op) (st : ChatRoomManager) : ChatRoomManager :=
  foldl apply_op st ops.

(** The class invariant: ["general"] exists, and the client-to-room map and
    the member sets describe the same relation. *)
Definition general_exists (st : ChatRoomManager) : Prop :=
  is_Some (rooms st !! "general").

Definition membership_agrees (st : ChatRoomManager) : Prop :=
  ∀ c r, client_rooms st !! c = Some r ↔
         ∃ R, rooms st !! r = Some R ∧ c ∈ members R.

Definition Inv (st : ChatRoomManager) : Prop :=
  general_exists st ∧ membership_agrees st.

End ChatRoom.

(* ===================================================================== *)
(** * Machine integers and clock values                                  *)
(* ===================================================================== *)

Module Mach.

(** A C++ [int]: 32 bits, two's complement. *)
Definition INT_MAX : Z := 2 ^ 31 - 1.
Definition INT_MIN : Z := - 2 ^ 31.
Definition wrap32 (x : Z) : Z := (x + 2 ^ 31) mod 2 ^ 32 - 2 ^ 31.

(** [std::chrono::steady_clock::time_point] counts nanosecond ticks in a
    signed 64-bit integer; [time_point::max()] is the largest such value. *)
Definition wrap64 (x : Z) : Z := (x + 2 ^ 63) mod 2 ^ 64 - 2 ^ 63.
Definition time_point_max : Z := 2 ^ 63 - 1.
Definition ticks_per_second : Z := 1000000000.
Definition seconds (n : Z) : Z := n * ticks_per_second.
Definition minutes (n : Z) : Z := seconds (60 * n).
Definition tp_add (t d : Z) : Z := wrap64 (t + d).
Definition tp_sub (t d : Z) : Z := wrap64 (t - d).

(** The conversion [(size_t) x] of an [int] on a 64-bit target. *)
Definition to_size_t (x : Z) : Z := x mod 2 ^ 64.

End Mach.

(* ===================================================================== *)
(** * connection_manager.h / connection_manager.cpp                      *)
(* ===================================================================== *)

Module ConnMgr.
Import Mach.

(** [ConnectionManager::Config] with its default member initialisers. *)
Record Config := mkConfig {
  max_connections_per_second : Z;
  max_messages_per_minute : Z;
  heartbeat_interval_seconds : Z;
  connection_timeout_seconds : Z;
  max_total_connections : Z
}.

Definition Config_default : Config :=
  {| max_connections_per_second := 50;
     max_messages_per_minute := 60;
     heartbeat_interval_seconds := 30;
     connection_timeout_seconds := 120;
     max_total_connections := 1000 |}.

(** The private state of [class ConnectionManager].  Deques are lists with
    the front at the head. *)
Record ConnectionManager := mkCM {
  config : Config;
  connection_timestamps : list Z;
  client_messages : gmap Z (list Z);
  banned_ips : gset string;
  muted_clients : gmap Z Z;
  last_activity : gmap Z Z;
  current_connections : Z
}.

Definition ConnectionManager_new (cfg : Config) : ConnectionManager :=
  {| config := cfg; connection_timestamps := []; client_messages := ∅;
     banned_ips := ∅; muted_clients := ∅; last_activity := ∅;
     current_connections := 0 |}.

Definition with_connection_timestamps (l : list Z) (cm : ConnectionManager) :=
  {| config := config cm; connection_timestamps := l;
     client_messages := client_messages cm; banned_ips := banned_ips cm;
     muted_clients := muted_clients cm; last_activity := last_activity cm;
     current_connections := current_connections cm |}.

Definition with_client_messages (m : gmap Z (list Z)) (cm : ConnectionManager) :=
  {| config := config cm; connection_timestamps := connection_timestamps cm;
     client_messages := m; banned_ips := banned_ips cm;
     muted_clients := muted_clients cm; last_activity := last_activity cm;
     current_connections := current_connections cm |}.

Definition with_banned_ips (s : gset string) (cm : ConnectionManager) :=
  {| config := config cm; connection_timestamps := connection_timestamps cm;
     client_messages := client_messages cm; banned_ips := s;
     muted_clients := muted_clients cm; last_activity := last_activity cm;
     current_connections := current_connections cm |}.

Definition with_muted_clients (m : gmap Z Z) (cm : ConnectionManager) :=
  {| config := config cm; connection_timestamps := connection_timestamps cm;
     client_messages := client_messages cm; banned_ips := banned_ips cm;
     muted_clients := m; last_activity := last_activity cm;
     current_connections := current_connections cm |}.

Definition with_last_activity (m : gmap Z Z) (cm : ConnectionManager) :=
  {| config := config cm; connection_timestamps := connection_timestamps cm;
     client_messages := client_messages cm; banned_ips := banned_ips cm;
     muted_clients := muted_clients cm; last_activity := m;
     current_connections := current_connections cm |}.

Definition with_current_connections (n : Z) (cm : ConnectionManager) :=
  {| config := config cm; connection_timestamps := connection_timestamps cm;
     client_messages := client_messages cm; banned_ips := banned_ips cm;
     muted_clients := muted_clients cm; last_activity := last_activity cm;
     current_connections := n |}.

(** [while (!d.empty() && d.front() < cutoff) d.pop_front();] *)
Fixpoint pop_expired (cutoff : Z) (d : list Z) : list Z :=
  match d with
  | [] => []
  | t :: d' => if t <? cutoff then pop_expired cutoff d' else d
  end.

(** [ConnectionManager::IsBanned], [Ban], [Unban]. *)
Definition IsBanned (ip : string) (cm : ConnectionManager) : bool :=
  bool_decide (ip ∈ banned_ips cm).
Definition Ban (ip : string) (cm : ConnectionManager) : ConnectionManager :=
  with_banned_ips ({[ip]} ∪ banned_ips cm) cm.
Definition Unban (ip : string) (cm : ConnectionManager) : ConnectionManager :=
  with_banned_ips (banned_ips cm ∖ {[ip]}) cm.

(** [ConnectionManager::AllowConnection]; [now] is its clock reading. *)
Definition AllowConnection (now : Z) (ip : string) (cm : ConnectionManager)
    : bool * ConnectionManager :=
  if IsBanned ip cm then (false, cm)
  else if max_total_connections (config cm) <=? current_connections cm then (false, cm)
  else
    let one_second_ago := tp_sub now (seconds 1) in
    let ts := pop_expired one_second_ago (connection_timestamps cm) in
    if to_size_t (max_connections_per_second (config cm)) <=? Z.of_nat (length ts)
    then (false, with_connection_timestamps ts cm)
    else (true, with_connection_timestamps (ts ++ [now])%list cm).

(** [ConnectionManager::IsMuted]; [now] is the clock reading taken when the
    entry exists and is not the permanent sentinel. *)
Definition IsMuted (now : Z) (client_id : Z) (cm : ConnectionManager)
    : bool * ConnectionManager :=
  match muted_clients cm !! client_id with
  | None => (false, cm)
  | Some expiry =>
      if bool_decide (expiry ≠ time_point_max) && (expiry <? now)
      then (false, with_muted_clients (delete client_id (muted_clients cm)) cm)
      else (true, cm)
  end.

(** [ConnectionManager::AllowMessage]; [now_mute] is the reading taken by
    the nested [IsMuted], [now] the one taken by [AllowMessage] itself.
    [client_messages[client_id]] creates an empty deque for a new key. *)
Definition AllowMessage (now_mute now : Z) (client_id : Z) (cm : ConnectionManager)
    : bool * ConnectionManager :=
  let '(muted, cm1) := IsMuted now_mute client_id cm in
  if muted then (false, cm1)
  else
    let one_minute_ago := tp_sub now (minutes 1) in
    let timestamps := default [] (client_messages cm1 !! client_id) in
    let timestamps := pop_expired one_minute_ago timestamps in
    (Z.of_nat (length timestamps) <? to_size_t (max_messages_per_minute (config cm1)),
     with_client_messages (<[client_id := timestamps]> (client_messages cm1)) cm1).

(** [ConnectionManager::UpdateActivity]. *)
Definition UpdateActivity (now : Z) (client_id : Z) (cm : ConnectionManager)
    : ConnectionManager :=
  with_last_activity (<[client_id := now]> (last_activity cm)) cm.

(** [ConnectionManager::RecordMessage]; [now] is its own reading and
    [now_activity] the one taken by the nested [UpdateActivity]. *)
Definition RecordMessage (now now_activity : Z) (client_id : Z) (cm : ConnectionManager)
    : ConnectionManager :=
  let timestamps := default [] (client_messages cm !! client_id) in
  let cm1 := with_client_messages
               (<[client_id := (timestamps ++ [now])%list]> (client_messages cm)) cm in
  UpdateActivity now_activity client_id cm1.

(** [ConnectionManager::Mute]; the clock is read only when the duration is
    not zero. *)
Definition Mute (now : Z) (client_id duration_seconds : Z) (cm : ConnectionManager)
    : ConnectionManager :=
  if duration_seconds =? 0
  then with_muted_clients (<[client_id := time_point_max]> (muted_clients cm)) cm
  else with_muted_clients
         (<[client_id := tp_add now (seconds duration_seconds)]> (muted_clients cm)) cm.

(** [ConnectionManager::Unmute]. *)
Definition Unmute (client_id : Z) (cm : ConnectionManager) : ConnectionManager :=
  with_muted_clients (delete client_id (muted_clients cm)) cm.

(** [ConnectionManager::CheckTimeouts], over the ids of the given clients. *)
Definition CheckTimeouts (now : Z) (ids : list Z) (cm : ConnectionManager) : list Z :=
  let timeout := seconds (connection_timeout_seconds (config cm)) in
  List.filter (λ i, match last_activity cm !! i with
                    | Some t => timeout <? wrap64 (now - t)
                    | None => false
                    end) ids.

(** [GetConnectionCount], [OnConnect], [OnDisconnect] (inline in the header).
    The counter is a [std::atomic<int>]; its increment wraps. *)
Definition GetConnectionCount (cm : ConnectionManager) : Z := current_connections cm.
Definition OnConnect (cm : ConnectionManager) : ConnectionManager :=
  with_current_connections (wrap32 (current_connections cm + 1)) cm.
Definition OnDisconnect (cm : ConnectionManager) : ConnectionManager :=
  if 0 <? current_connections cm
  then with_current_connections (wrap32 (current_connections cm - 1)) cm
  else cm.

(** The time stamps of a deque that are not older than one minute before
    [now]: the window [AllowMessage] counts. *)
Definition recent (now : Z) (d : list Z) : list Z :=
  filter (λ t, now - minutes 1 ≤ t) d.

(** The accept time stamps that are not older than one second before
    [now]: the window [AllowConnection] counts. *)
Definition recent_accepts (now : Z) (d : list Z) : list Z :=
  filter (λ t, now - seconds 1 ≤ t) d.

(** The calls a dispatcher can make, each with the clock readings it takes,
    to speak about arbitrary call sequences.  Every call but the two on
    the counter holds the mutex of the maps it touches for as long as it
    touches them, so calls of different workers act on each map one after
    another.  [COnConnect] and [COnDisconnect] are taken whole here; what
    overlapping calls do to the counter is the subject of [counter_step]
    below. *)
Inductive CmOp :=
| CAllowConnection (now : Z) (ip : string)
| CAllowMessage (now_mute now : Z) (client : Z)
| CRecordMessage (now now_activity : Z) (client : Z)
| CBan (ip : string)
| CUnban (ip : string)
| CMute (now : Z) (client duration : Z)
| CUnmute (client : Z)
| CIsMuted (now : Z) (client : Z)
| CUpdateActivity (now : Z) (client : Z)
| COnConnect
| COnDisconnect.

Definition cm_step (cm : ConnectionManager) (o : CmOp) : ConnectionManager :=
  match o with
  | CAllowConnection now ip => (AllowConnection now ip cm).2
  | CAllowMessage now_mute now c => (AllowMessage now_mute now c cm).2
  | CRecordMessage now now_activity c => RecordMessage now now_activity c cm
  | CBan ip => Ban ip cm
  | CUnban ip => Unban ip cm
  | CMute now c d => Mute now c d cm
  | CUnmute c => Unmute c cm
  | CIsMuted now c => (IsMuted now c cm).2
  | CUpdateActivity now c => UpdateActivity now c cm
  | COnConnect => OnConnect cm
  | COnDisconnect => OnDisconnect cm
  end.

Definition cm_run (ops : list CmOp) (cm : ConnectionManager) : ConnectionManager :=
  foldl cm_step cm ops.

(** The time stamps the [RecordMessage] calls of a sequence record, in call
    order, and the clients whose activity a sequence refreshes. *)
Definition recorded_times (ops : list CmOp) : list Z :=
  omap (λ o, match o with CRecordMessage now _ _ => Some now | _ => None end) ops.

Definition refreshes (c : Z) (o : CmOp) : bool :=
  match o with
  | CRecordMessage _ _ c' | CUpdateActivity _ c' => bool_decide (c' = c)
  | _ => false
  end.

(** An operation that mutes client [c]. *)
Definition mutes (c : Z) (o : CmOp) : bool :=
  match o with
  | CMute _ c' _ => bool_decide (c' = c)
  | _ => false
  end.

(** ** The counter under overlapping calls

    [current_connections] is a [std::atomic<int>], and [OnConnect],
    [OnDisconnect] and [GetConnectionCount] take no lock.  [OnConnect] is
    one atomic read-modify-write.  [OnDisconnect] is two atomic operations:
    the load made by the test [current_connections > 0], and, when the test
    passed, the decrement.  The callbacks that make these calls run on the
    workers of the thread pool, so the operations of calls made by
    different workers can interleave.  A run is therefore a sequence of
    atomic operations; [passed] holds the workers whose test succeeded and
    whose decrement is still to come. *)
Record Counter := mkCounter { stored : Z; passed : gset nat }.

Definition Counter_of (cm : ConnectionManager) : Counter :=
  {| stored := current_connections cm; passed := ∅ |}.

Inductive CounterOp :=
| FetchAdd
| LoadTest (worker : nat)
| FetchSub (worker : nat).

Definition counter_step (s : Counter) (o : CounterOp) : Counter :=
  match o with
  | FetchAdd => {| stored := wrap32 (stored s + 1); passed := passed s |}
  | LoadTest k =>
      if 0 <? stored s
      then {| stored := stored s; passed := {[k]} ∪ passed s |}
      else {| stored := stored s; passed := passed s ∖ {[k]} |}
  | FetchSub k =>
      if bool_decide (k ∈ passed s)
      then {| stored := wrap32 (stored s - 1); passed := passed s ∖ {[k]} |}
      else s
  end.

Definition counter_run (ops : list CounterOp) (s : Counter) : Counter :=
  foldl counter_step s ops.

(** The operations of one call, made by [worker], in program order. *)
Inductive ConnEvent := Connect | Disconnect.

Definition call_ops (worker : nat) (e : ConnEvent) : list CounterOp :=
  match e with
  | Connect => [FetchAdd]
  | Disconnect => [LoadTest worker; FetchSub worker]
  end.

(** Calls that do not overlap: every call runs to its end before the next
    one starts, whichever workers make them. *)
Definition one_after_another (calls : list (nat * ConnEvent)) : list CounterOp :=
  flat_map (λ call, call_ops call.1 call.2) calls.

End ConnMgr.

(* ===================================================================== *)
(** * message_store.h / message_store.cpp (the in-memory tier)           *)
(* ===================================================================== *)

Module MsgStore.

(** [struct ChatMessage]; [timestamp] is a [system_clock] reading. *)
Record ChatMessage := mkMsg {
  sender_id : Z;
  sender_name : string;
  room : string;
  content : string;
  timestamp : Z
}.

(** [ChatMessage::ToString].  [GetTimestampString] renders the time stamp in
    local time through the C library; it is a parameter here. *)
Definition ToString (GetTimestampString : Z → string) (m : ChatMessage) : string :=
  "[" +:+ GetTimestampString (timestamp m) +:+ "] " +:+
  "[#" +:+ room m +:+ "] " +:+
  sender_name m +:+ ": " +:+ content m.

(** [MessageStore::Config]; [size_t] quantities are container sizes, kept
    as [nat]. *)
Record Config := mkConfig {
  max_messages_per_room : nat;
  max_file_size_mb : nat;
  log_directory : string;
  enable_persistence : bool
}.

Definition Config_default : Config :=
  {| max_messages_per_room := 100; max_file_size_mb := 10;
     log_directory := "./chat_logs"; enable_persistence := true |}.

(** The cache of [class MessageStore].  The log file, written by
    [WriteToFile] after the cache update, is never read back by any
    operation below and is left out. *)
Record MessageStore := mkStore {
  config : Config;
  room_messages : gmap string (list ChatMessage)
}.

Definition MessageStore_new (cfg : Config) : MessageStore :=
  {| config := cfg; room_messages := ∅ |}.

(** [while (messages.size() > limit) messages.pop_front();] *)
Fixpoint trim_front {A : Type} (limit : nat) (d : list A) : list A :=
  match d with
  | [] => []
  | _ :: d' => if (limit <? length d)%nat then trim_front limit d' else d
  end.

(** [MessageStore::Store]. *)
Definition Store (m : ChatMessage) (st : MessageStore) : MessageStore :=
  let messages := default [] (room_messages st !! room m) in
  let messages := (messages ++ [m])%list in
  {| config := config st;
     room_messages :=
       <[room m := trim_front (max_messages_per_room (config st)) messages]>
         (room_messages st) |}.

(** [MessageStore::GetRecent]: the loop
    [for (i = start; i < messages.size(); ++i) result.push_back(messages[i]);] *)
Definition GetRecent (r : string) (count : nat) (st : MessageStore) : list ChatMessage :=
  match room_messages st !! r with
  | None => []
  | Some messages =>
      let size := length messages in
      let start := if (count <? size)%nat then (size - count)%nat else 0%nat in
      foldl (λ result i, match messages !! i with
                         | Some m => (result ++ [m])%list
                         | None => result
                         end)
            [] (seq start (size - start))
  end.

(** [MessageStore::GetBySender].  The inner loop over one deque: a message
    of the sender is pushed first and the size checked after, so the scan
    returns (flag [true]) once [count] is reached. *)
Fixpoint by_sender_scan (sender : Z) (count : nat)
    (messages result : list ChatMessage) : list ChatMessage * bool :=
  match messages with
  | [] => (result, false)
  | msg :: rest =>
      if decide (sender_id msg = sender) then
        let result := (result ++ [msg])%list in
        if (count <=? length result)%nat then (result, true)
        else by_sender_scan sender count rest result
      else by_sender_scan sender count rest result
  end.

Fixpoint by_sender_rooms (sender : Z) (count : nat)
    (deques : list (list ChatMessage)) (result : list ChatMessage)
    : list ChatMessage :=
  match deques with
  | [] => result
  | d :: ds =>
      let '(result, finished) := by_sender_scan sender count d result in
      if finished then result else by_sender_rooms sender count ds result
  end.

(** The deques of the cache in the container's iteration order. *)
Definition deques (st : MessageStore) : list (list ChatMessage) :=
  (map_to_list (room_messages st)).*2.

Definition GetBySender (sender : Z) (count : nat) (st : MessageStore)
    : list ChatMessage :=
  by_sender_rooms sender count (deques st) [].

(** [::tolower] on one byte in the "C" locale, mapped over a string by
    [std::transform]. *)
Definition tolower (c : ascii) : ascii :=
  let n := nat_of_ascii c in
  if (65 <=? n)%nat && (n <=? 90)%nat then ascii_of_nat (n + 32) else c.

Fixpoint lower (s : string) : string :=
  match s with
  | EmptyString => EmptyString
  | String c s' => String (tolower c) (lower s')
  end.

(** [hay.find(needle) != std::string::npos]. *)
Fixpoint is_prefix (p s : string) : bool :=
  match p, s with
  | EmptyString, _ => true
  | String a p', String b s' => Ascii.eqb a b && is_prefix p' s'
  | String _ _, EmptyString => false
  end.

Fixpoint contains (needle hay : string) : bool :=
  is_prefix needle hay ||
  match hay with
  | String _ hay' => contains needle hay'
  | EmptyString => false
  end.

(** The lambda [search_in_room] of [MessageStore::Search]. *)
Fixpoint search_in_room (lower_query : string) (max_results : nat)
    (messages result : list ChatMessage) : list ChatMessage :=
  match messages with
  | [] => result
  | msg :: rest =>
      if (max_results <=? length result)%nat then result
      else if contains lower_query (lower (content msg))
           then search_in_room lower_query max_results rest (result ++ [msg])%list
           else search_in_room lower_query max_results rest result
  end.

Fixpoint search_rooms (lower_query : string) (max_results : nat)
    (ds : list (list ChatMessage)) (result : list ChatMessage) : list ChatMessage :=
  match ds with
  | [] => result
  | d :: ds' =>
      let result := search_in_room lower_query max_results d result in
      if (max_results <=? length result)%nat then result
      else search_rooms lower_query max_results ds' result
  end.

(** [MessageStore::Search]. *)
Definition Search (query r : string) (max_results : nat) (st : MessageStore)
    : list ChatMessage :=
  let lower_query := lower query in
  if decide (r ≠ "") then
    match room_messages st !! r with
    | Some d => search_in_room lower_query max_results d []
    | None => []
    end
  else search_rooms lower_query max_results (deques st) [].

(** A message matches a query when its content contains the query, both
    lowered. *)
Definition matches (query : string) (m : ChatMessage) : bool :=
  contains (lower query) (lower (content m)).

(** The sum of the queue lengths of a cache. *)
Definition total_of (m : gmap string (list ChatMessage)) : nat :=
  map_fold (λ _ d total, (total + length d)%nat) 0%nat m.

(** [MessageStore::GetTotalCount]. *)
Definition GetTotalCount (st : MessageStore) : nat :=
  map_fold (λ _ d total, (total + length d)%nat) 0%nat (room_messages st).

(** [MessageStore::Clear]. *)
Definition Clear (r : string) (st : MessageStore) : MessageStore :=
  {| config := config st;
     room_messages := if decide (r = "") then ∅ else delete r (room_messages st) |}.

(** A run of [Store] calls from a given store. *)
Definition store_all (ms : list ChatMessage) (st : MessageStore) : MessageStore :=
  foldl (λ s m, Store m s) st ms.

(** The last [k] elements of a list, in their order. *)
Definition lastn {A : Type} (k : nat) (l : list A) : list A :=
  drop (length l - k) l.

(** The cached queue of a room (empty when the room has none), and the
    messages of a call sequence that go to a room. *)
Definition cache (r : string) (st : MessageStore) : list ChatMessage :=
  default [] (room_messages st !! r).

Definition in_room (r : string) (ms : list ChatMessage) : list ChatMessage :=
  filter (λ m, room m = r) ms.

Global Instance ChatMessage_eq_dec : EqDecision ChatMessage.
Proof. solve_decision. Defined.

End MsgStore.

(* ===================================================================== *)
(** * The fragment of std::istringstream used by ProcessCommand          *)
(* ===================================================================== *)

Module IStream.
Import Mach.

Definition LF : ascii := "010"%char.
Definition CR : ascii := "013"%char.
Definition NUL : ascii := "000"%char.

(** [std::isspace] in the "C" locale. *)
Definition isspace (c : ascii) : bool :=
  match c with
  | " " | "009" | "010" | "011" | "012" | "013" => true
  | _ => false
  end%char.

Definition digit_value (c : ascii) : option (Decimal.uint → Decimal.uint) :=
  match c with
  | "0" => Some Decimal.D0 | "1" => Some Decimal.D1 | "2" => Some Decimal.D2
  | "3" => Some Decimal.D3 | "4" => Some Decimal.D4 | "5" => Some Decimal.D5
  | "6" => Some Decimal.D6 | "7" => Some Decimal.D7 | "8" => Some Decimal.D8
  | "9" => Some Decimal.D9
  | _ => None
  end%char.

(** The stream: the characters not yet consumed, and whether [good()]
    holds (neither [eofbit] nor [failbit] set). *)
Record istringstream := mkStream {
  buf : string;
  good : bool
}.

Definition istringstream_new (s : string) : istringstream :=
  {| buf := s; good := true |}.

Fixpoint skipws (s : string) : string :=
  match s with
  | String c s' => if isspace c then skipws s' else s
  | EmptyString => EmptyString
  end.

(** The maximal prefix without white space, and what follows it. *)
Fixpoint take_word (s : string) : string * string :=
  match s with
  | String c s' =>
      if isspace c then (EmptyString, s)
      else let '(w, rest) := take_word s' in (String c w, rest)
  | EmptyString => (EmptyString, EmptyString)
  end.

(** The maximal prefix of decimal digits, most significant first, and what
    follows it. *)
Fixpoint take_digits (s : string) : Decimal.uint * string :=
  match s with
  | String c s' =>
      match digit_value c with
      | Some d => let '(ds, rest) := take_digits s' in (d ds, rest)
      | None => (Decimal.Nil, s)
      end
  | EmptyString => (Decimal.Nil, EmptyString)
  end.

(** [iss >> str] for a [std::string].  A failed sentry (stream not good, or
    only white space left) leaves [str] as it was; reaching the end of the
    buffer sets [eofbit]. *)
Definition extract_string (old : string) (iss : istringstream) : string * istringstream :=
  if good iss then
    match skipws (buf iss) with
    | EmptyString => (old, {| buf := EmptyString; good := false |})
    | s => let '(w, rest) := take_word s in
           (w, {| buf := rest; good := negb (bool_decide (rest = EmptyString)) |})
    end
  else (old, iss).

(** The value [num_get] stores for a sign and a non-empty digit string:
    the number, or the nearest bound of [int] when it does not fit. *)
Definition saturate (v : Z) : Z :=
  if v <? INT_MIN then INT_MIN else if INT_MAX <? v then INT_MAX else v.

(** [iss >> n] for an [int] (decimal base).  A failed sentry leaves [n] as
    it was; a field without digits stores 0 and sets [failbit]; an
    out-of-range field stores the bound and sets [failbit]. *)
Definition extract_int (old : Z) (iss : istringstream) : Z * istringstream :=
  if good iss then
    match skipws (buf iss) with
    | EmptyString => (old, {| buf := EmptyString; good := false |})
    | String c s' as s =>
        let '(neg, body) :=
          if Ascii.eqb c "-" then (true, s')
          else if Ascii.eqb c "+" then (false, s')
          else (false, s) in
        let '(ds, rest) := take_digits body in
        match ds with
        | Decimal.Nil => (0, {| buf := rest; good := false |})
        | _ =>
            let v := if neg then - Z.of_uint ds else Z.of_uint ds in
            (saturate v,
             {| buf := rest;
                good := bool_decide (saturate v = v) &&
                        negb (bool_decide (rest = EmptyString)) |})
        end
    end
  else (old, iss).

(** The characters before the first line feed, what follows the line feed,
    and whether a line feed was found. *)
Fixpoint split_line (s : string) : string * string * bool :=
  match s with
  | String c s' =>
      if Ascii.eqb c LF then (EmptyString, s', true)
      else let '(l, rest, found) := split_line s' in (String c l, rest, found)
  | EmptyString => (EmptyString, EmptyString, false)
  end.

(** [std::getline(iss, str)]. *)
Definition getline (old : string) (iss : istringstream) : string * istringstream :=
  if good iss then
    let '(l, rest, found) := split_line (buf iss) in
    (l, {| buf := rest; good := found |})
  else (old, iss).

(** Shapes of input the theorems speak about: a word is a non-empty
    string without white space; a single line has no line feed. *)
Fixpoint all_chars (p : ascii → bool) (s : string) : bool :=
  match s with
  | EmptyString => true
  | String c s' => p c && all_chars p s'
  end.

Definition is_word (s : string) : Prop :=
  s ≠ EmptyString ∧ all_chars (λ c, negb (isspace c)) s = true.

Definition single_line (s : string) : Prop :=
  all_chars (λ c, negb (Ascii.eqb c LF)) s = true.

(** [std::to_string] of an integer: its decimal numeral. *)
Definition to_string (z : Z) : string :=
  DecimalString.NilZero.string_of_int (Z.to_int z).

End IStream.

(* ===================================================================== *)
(** * server.cpp: the dispatcher                                         *)
(* ===================================================================== *)

Module Server.
Import Mach IStream.

(** The fields of [CLIENT_INFO] the dispatcher reads. *)
Record CLIENT_INFO := mkClient {
  id : Z;
  ip_address : string
}.

(** The globals of server.cpp together with the part of the transport the
    dispatcher observes:
    - [clients]: the client table of [IOCPServer], in iteration order;
    - [outbox]: the buffers accepted by [IOCPServer::Send], oldest first;
    - [disconnect_queue]: the [on_disconnect] callbacks queued by
      [IOCPServer::CleanupClient], oldest first;
    - the two clocks, and [elapse]: how far time moves after each of the
      coming clock readings.
    Console logging ([PrintServerLog]) is not part of the state. *)
Record World := mkWorld {
  g_connection_manager : ConnMgr.ConnectionManager;
  g_chat_rooms : ChatRoom.ChatRoomManager;
  g_message_store : MsgStore.MessageStore;
  g_client_names : list (Z * string);
  clients : list CLIENT_INFO;
  outbox : list (Z * string);
  disconnect_queue : list Z;
  steady_clock : Z;
  system_clock : Z;
  elapse : list N
}.

Definition with_cm (x : ConnMgr.ConnectionManager) (w : World) : World :=
  {| g_connection_manager := x; g_chat_rooms := g_chat_rooms w;
     g_message_store := g_message_store w; g_client_names := g_client_names w;
     clients := clients w; outbox := outbox w;
     disconnect_queue := disconnect_queue w; steady_clock := steady_clock w;
     system_clock := system_clock w; elapse := elapse w |}.

Definition with_rooms (x : ChatRoom.ChatRoomManager) (w : World) : World :=
  {| g_connection_manager := g_connection_manager w; g_chat_rooms := x;
     g_message_store := g_message_store w; g_client_names := g_client_names w;
     clients := clients w; outbox := outbox w;
     disconnect_queue := disconnect_queue w; steady_clock := steady_clock w;
     system_clock := system_clock w; elapse := elapse w |}.

Definition with_store (x : MsgStore.MessageStore) (w : World) : World :=
  {| g_connection_manager := g_connection_manager w; g_chat_rooms := g_chat_rooms w;
     g_message_store := x; g_client_names := g_client_names w;
     clients := clients w; outbox := outbox w;
     disconnect_queue := disconnect_queue w; steady_clock := steady_clock w;
     system_clock := system_clock w; elapse := elapse w |}.

Definition with_names (x : list (Z * string)) (w : World) : World :=
  {| g_connection_manager := g_connection_manager w; g_chat_rooms := g_chat_rooms w;
     g_message_store := g_message_store w; g_client_names := x;
     clients := clients w; outbox := outbox w;
     disconnect_queue := disconnect_queue w; steady_clock := steady_clock w;
     system_clock := system_clock w; elapse := elapse w |}.

Definition with_clients (x : list CLIENT_INFO) (w : World) : World :=
  {| g_connection_manager := g_connection_manager w; g_chat_rooms := g_chat_rooms w;
     g_message_store := g_message_store w; g_client_names := g_client_names w;
     clients := x; outbox := outbox w;
     disconnect_queue := disconnect_queue w; steady_clock := steady_clock w;
     system_clock := system_clock w; elapse := elapse w |}.

Definition with_outbox (x : list (Z * string)) (w : World) : World :=
  {| g_connection_manager := g_connection_manager w; g_chat_rooms := g_chat_rooms w;
     g_message_store := g_message_store w; g_client_names := g_client_names w;
     clients := clients w; outbox := x;
     disconnect_queue := disconnect_queue w; steady_clock := steady_clock w;
     system_clock := system_clock w; elapse := elapse w |}.

Definition with_disconnect_queue (x : list Z) (w : World) : World :=
  {| g_connection_manager := g_connection_manager w; g_chat_rooms := g_chat_rooms w;
     g_message_store := g_message_store w; g_client_names := g_client_names w;
     clients := clients w; outbox := outbox w;
     disconnect_queue := x; steady_clock := steady_clock w;
     system_clock := system_clock w; elapse := elapse w |}.

(** Time moves on by the next entry of [elapse] after a clock was read. *)
Definition advance (w : World) : World :=
  let d := Z.of_N (hd 0%N (elapse w)) in
  {| g_connection_manager := g_connection_manager w; g_chat_rooms := g_chat_rooms w;
     g_message_store := g_message_store w; g_client_names := g_client_names w;
     clients := clients w; outbox := outbox w;
     disconnect_queue := disconnect_queue w; steady_clock := steady_clock w + d;
     system_clock := system_clock w + d; elapse := tl (elapse w) |}.

(** ** The state monad of the callbacks *)

Definition M (A : Type) : Type := World → A * World.

Definition ret {A : Type} (a : A) : M A := λ w, (a, w).

Definition bind {A B : Type} (m : M A) (k : A → M B) : M B :=
  λ w, let '(a, w') := m w in k a w'.

Notation "x <- m ;; k" := (bind m (λ x, k))
  (at level 100, m at next level, right associativity).
Notation "m ;;; k" := (bind m (λ _, k))
  (at level 100, right associativity).

Definition exec {A : Type} (m : M A) (w : World) : World := (m w).2.

Fixpoint for_each {A : Type} (l : list A) (body : A → M unit) : M unit :=
  match l with
  | [] => ret tt
  | x :: l' => body x ;;; for_each l' body
  end.

Definition steady_now : M Z := λ w, (steady_clock w, advance w).
Definition system_now : M Z := λ w, (system_clock w, advance w).

(** ** The transport, as the dispatcher sees it *)

(** [IOCPServer::Send]. *)
Definition Send (client_id : Z) (message : string) : M bool := λ w,
  if bool_decide (client_id ∈ id <$> clients w)
  then (true, with_outbox (outbox w ++ [(client_id, message)])%list w)
  else (false, w).

(** [IOCPServer::DisconnectClient], that is [CleanupClient]: the table
    entry goes, and the disconnect callback is queued in every case. *)
Definition DisconnectClient (client_id : Z) : M unit := λ w,
  (tt, with_disconnect_queue (disconnect_queue w ++ [client_id])%list
         (with_clients (List.filter (λ c, negb (bool_decide (id c = client_id)))
                                    (clients w)) w)).

(** [IOCPServer::GetAllClients] and [IOCPServer::GetClient]. *)
Definition GetAllClients : M (list CLIENT_INFO) := λ w, (clients w, w).
Definition GetClient (client_id : Z) : M (option CLIENT_INFO) := λ w,
  (List.find (λ c, bool_decide (id c = client_id)) (clients w), w).

(** ** Calls into the three managers *)

Definition cm_AllowConnection (ip : string) : M bool :=
  now <- steady_now ;;
  λ w, let '(b, cm) := ConnMgr.AllowConnection now ip (g_connection_manager w) in
       (b, with_cm cm w).

Definition cm_IsMuted (client_id : Z) : M bool :=
  now <- steady_now ;;
  λ w, let '(b, cm) := ConnMgr.IsMuted now client_id (g_connection_manager w) in
       (b, with_cm cm w).

Definition cm_AllowMessage (client_id : Z) : M bool :=
  now_mute <- steady_now ;;
  now <- steady_now ;;
  λ w, let '(b, cm) := ConnMgr.AllowMessage now_mute now client_id
                         (g_connection_manager w) in
       (b, with_cm cm w).

Definition cm_RecordMessage (client_id : Z) : M unit :=
  now <- steady_now ;;
  now_activity <- steady_now ;;
  λ w, (tt, with_cm (ConnMgr.RecordMessage now now_activity client_id
                       (g_connection_manager w)) w).

Definition cm_Mute (client_id duration : Z) : M unit :=
  now <- steady_now ;;
  λ w, (tt, with_cm (ConnMgr.Mute now client_id duration (g_connection_manager w)) w).

Definition cm_Ban (ip : string) : M unit := λ w,
  (tt, with_cm (ConnMgr.Ban ip (g_connection_manager w)) w).

Definition cm_OnConnect : M unit := λ w,
  (tt, with_cm (ConnMgr.OnConnect (g_connection_manager w)) w).

Definition cm_OnDisconnect : M unit := λ w,
  (tt, with_cm (ConnMgr.OnDisconnect (g_connection_manager w)) w).

Definition rooms_GetClientRoom (client_id : Z) : M string := λ w,
  (ChatRoom.GetClientRoom client_id (g_chat_rooms w), w).

Definition rooms_GetRoomMembers (r : string) : M (list Z) := λ w,
  (ChatRoom.GetRoomMembers r (g_chat_rooms w), w).

Definition rooms_JoinRoom (r : string) (client_id : Z) : M bool := λ w,
  let '(b, st) := ChatRoom.JoinRoom r client_id "" (g_chat_rooms w) in
  (b, with_rooms st w).

Definition rooms_CreateRoom (r : string) (owner : Z) : M bool :=
  now <- steady_now ;;
  λ w, let '(b, st) := ChatRoom.CreateRoom now r owner false "" (g_chat_rooms w) in
       (b, with_rooms st w).

Definition rooms_LeaveRoom (client_id : Z) : M unit := λ w,
  (tt, with_rooms (ChatRoom.LeaveRoom client_id (g_chat_rooms w)) w).

Definition store_Store (m : MsgStore.ChatMessage) : M unit := λ w,
  (tt, with_store (MsgStore.Store m (g_message_store w)) w).

Definition store_GetRecent (r : string) (count : nat) : M (list MsgStore.ChatMessage) :=
  λ w, (MsgStore.GetRecent r count (g_message_store w), w).

(** ** server.cpp proper *)

Definition nl : string := String LF EmptyString.

(** [s.back()], when [s] is not empty. *)
Fixpoint back (s : string) : option ascii :=
  match s with
  | EmptyString => None
  | String c EmptyString => Some c
  | String _ s' => back s'
  end.

(** The loop at the head of [HandleMessage]:
    [while (!msg.empty() && (msg.back() == '\n' || msg.back() == '\r' ||
    msg.back() == '\0')) msg.pop_back();] *)
Definition is_line_end (c : ascii) : bool :=
  Ascii.eqb c LF || Ascii.eqb c CR || Ascii.eqb c NUL.

Fixpoint trim_line_end (s : string) : string :=
  match s with
  | EmptyString => EmptyString
  | String c s' =>
      match trim_line_end s' with
      | EmptyString => if is_line_end c then EmptyString else String c EmptyString
      | t => String c t
      end
  end.

(** [g_client_names.find(client_id)]. *)
Fixpoint names_find (client_id : Z) (l : list (Z * string)) : option string :=
  match l with
  | [] => None
  | (k, v) :: l' => if decide (k = client_id) then Some v else names_find client_id l'
  end.

(** [g_client_names[client_id] = name]: an existing entry keeps its place;
    where the container puts a new one is its own business, here last. *)
Fixpoint names_set (client_id : Z) (nm : string) (l : list (Z * string))
    : list (Z * string) :=
  match l with
  | [] => [(client_id, nm)]
  | (k, v) :: l' =>
      if decide (k = client_id) then (k, nm) :: l'
      else (k, v) :: names_set client_id nm l'
  end.

(** [g_client_names.erase(client_id)]. *)
Definition names_erase (client_id : Z) (l : list (Z * string)) : list (Z * string) :=
  List.filter (λ kv, negb (bool_decide (kv.1 = client_id))) l.

(** The search loop shared by [#whisper], [#kick], [#ban] and [#mute]:
    [int target_id = -1; for (pair : g_client_names)
       if (pair.second == target_name) { target_id = pair.first; break; }] *)
Fixpoint find_by_name (target_name : string) (l : list (Z * string)) : Z :=
  match l with
  | [] => -1
  | (k, v) :: l' => if decide (v = target_name) then k else find_by_name target_name l'
  end.

Definition lookup_target (target_name : string) : M Z := λ w,
  (find_by_name target_name (g_client_names w), w).

(** [GetClientName] and [SetClientName]. *)
Definition GetClientName (client_id : Z) : M string := λ w,
  (match names_find client_id (g_client_names w) with
   | Some n => n
   | None => "User#" +:+ to_string client_id
   end, w).

Definition SetClientName (client_id : Z) (nm : string) : M unit := λ w,
  (tt, with_names (names_set client_id nm (g_client_names w)) w).

(** [SendToClient]. *)
Definition SendToClient (client_id : Z) (message : string) : M unit :=
  if decide (message = EmptyString) then ret tt
  else
    let msg := if decide (back message = Some LF) then message else message +:+ nl in
    Send client_id msg ;;; ret tt.

(** [BroadcastToRoom]. *)
Definition BroadcastToRoom (sender_id : Z) (message : string) : M unit :=
  nm <- GetClientName sender_id ;;
  r <- rooms_GetClientRoom sender_id ;;
  ts <- system_now ;;
  let chat_msg := {| MsgStore.sender_id := sender_id; MsgStore.sender_name := nm;
                     MsgStore.room := r; MsgStore.content := message;
                     MsgStore.timestamp := ts |} in
  store_Store chat_msg ;;;
  let formatted := nm +:+ ": " +:+ message in
  members <- rooms_GetRoomMembers r ;;
  for_each members (λ member_id,
    if decide (member_id ≠ sender_id) then SendToClient member_id formatted
    else ret tt).

Definition help_text : string :=
  "Available commands:" +:+ nl +:+
  "  #rooms     - List all chat rooms" +:+ nl +:+
  "  #join <r>  - Join room <r>" +:+ nl +:+
  "  #create <r>- Create new room" +:+ nl +:+
  "  #leave     - Leave to general" +:+ nl +:+
  "  #online    - List online users" +:+ nl +:+
  "  #whisper <user> <msg> - Private message" +:+ nl +:+
  "  #history [n] - Show last n messages" +:+ nl +:+
  "  #exit      - Disconnect" +:+ nl.

(** The text built by the [#rooms] branch. *)
Definition rooms_text (st : ChatRoom.ChatRoomManager) : string :=
  foldl (λ acc r,
           acc +:+ ("  #" +:+ r +:+ " (" +:+
                    to_string (Z.of_nat (length (ChatRoom.GetRoomMembers r st))) +:+
                    " users)" +:+ nl))
        ("Available rooms:" +:+ nl) (ChatRoom.ListRooms st).

(** The text built by the [#online] branch. *)
Definition online_text (w : World) : string :=
  foldl (λ acc c,
           acc +:+ ("  " +:+ (GetClientName (id c) w).1 +:+ " (#" +:+
                    ChatRoom.GetClientRoom (id c) (g_chat_rooms w) +:+ ")" +:+ nl))
        ("Online users (" +:+ to_string (Z.of_nat (length (clients w))) +:+ "):" +:+ nl)
        (clients w).

Section Dispatcher.

(** [ChatMessage::GetTimestampString], provided by the platform. *)
Variable GetTimestampString : Z → string.

(** The text built by the [#history] branch. *)
Definition history_text (r : string) (messages : list MsgStore.ChatMessage) : string :=
  foldl (λ acc m, acc +:+ ("  " +:+ MsgStore.ToString GetTimestampString m +:+ nl))
        ("Last " +:+ to_string (Z.of_nat (length messages)) +:+
         " messages in #" +:+ r +:+ ":" +:+ nl)
        messages.

(** [msg[0] == '#'] *)
Definition starts_with_hash (s : string) : bool :=
  match s with
  | String c _ => Ascii.eqb c "#"
  | EmptyString => false
  end.

(** [ProcessCommand]. *)
Definition ProcessCommand (client_id : Z) (cmd : string) : M unit :=
  nm <- GetClientName client_id ;;
  let iss := istringstream_new cmd in
  let '(command, iss) := extract_string EmptyString iss in
  if decide (command = "#exit") then
    DisconnectClient client_id
  else if decide (command = "#help") then
    SendToClient client_id help_text
  else if decide (command = "#rooms") then
    λ w, SendToClient client_id (rooms_text (g_chat_rooms w)) w
  else if decide (command = "#join") then
    let '(room_name, iss) := extract_string EmptyString iss in
    if decide (room_name = EmptyString) then
      SendToClient client_id "Usage: #join <room_name>"
    else
      old_room <- rooms_GetClientRoom client_id ;;
      if decide (old_room = room_name) then
        SendToClient client_id ("You are already in #" +:+ room_name)
      else
        joined <- rooms_JoinRoom room_name client_id ;;
        if joined then
          (if decide (old_room ≠ EmptyString) then
             old_members <- rooms_GetRoomMembers old_room ;;
             for_each old_members (λ m,
               SendToClient m (nm +:+ " left #" +:+ old_room))
           else ret tt) ;;;
          new_members <- rooms_GetRoomMembers room_name ;;
          for_each new_members (λ m,
            if decide (m ≠ client_id)
            then SendToClient m (nm +:+ " joined #" +:+ room_name)
            else ret tt) ;;;
          SendToClient client_id ("Joined #" +:+ room_name)
        else
          SendToClient client_id "Failed to join room. Does it exist?"
  else if decide (command = "#create") then
    let '(room_name, iss) := extract_string EmptyString iss in
    if decide (room_name = EmptyString) then
      SendToClient client_id "Usage: #create <room_name>"
    else
      created <- rooms_CreateRoom room_name client_id ;;
      if created then
        rooms_JoinRoom room_name client_id ;;;
        SendToClient client_id ("Created and joined #" +:+ room_name)
      else
        SendToClient client_id "Failed to create room. Does it already exist?"
  else if decide (command = "#leave") then
    current <- rooms_GetClientRoom client_id ;;
    if decide (current ≠ "general") then
      rooms_JoinRoom "general" client_id ;;;
      SendToClient client_id ("You left #" +:+ current +:+ " and joined #general")
    else
      SendToClient client_id "You are already in #general"
  else if decide (command = "#online") then
    λ w, SendToClient client_id (online_text w) w
  else if decide (command = "#whisper") then
    let '(target_name, iss) := extract_string EmptyString iss in
    let '(private_msg, iss) := getline EmptyString iss in
    if decide (target_name = EmptyString ∨ private_msg = EmptyString) then
      SendToClient client_id "Usage: #whisper <username> <message>"
    else
      target_id <- lookup_target target_name ;;
      if decide (target_id = -1) then
        SendToClient client_id ("User not found: " +:+ target_name)
      else
        SendToClient target_id ("[Whisper from " +:+ nm +:+ "]:" +:+ private_msg) ;;;
        SendToClient client_id ("[Whisper to " +:+ target_name +:+ "]:" +:+ private_msg)
  else if decide (command = "#history") then
    let '(count, iss) := extract_int 10 iss in
    let count := if count <? 1 then 10 else count in
    let count := if 50 <? count then 50 else count in
    r <- rooms_GetClientRoom client_id ;;
    messages <- store_GetRecent r (Z.to_nat count) ;;
    SendToClient client_id (history_text r messages)
  else if decide (command = "#kick") then
    let '(target_name, iss) := extract_string EmptyString iss in
    target_id <- lookup_target target_name ;;
    if decide (target_id ≠ -1) then
      SendToClient target_id ("You have been kicked by " +:+ nm) ;;;
      DisconnectClient target_id ;;;
      SendToClient client_id ("Kicked " +:+ target_name)
    else
      SendToClient client_id "User not found"
  else if decide (command = "#ban") then
    let '(target_name, iss) := extract_string EmptyString iss in
    target_id <- lookup_target target_name ;;
    if decide (target_id ≠ -1) then
      client <- GetClient target_id ;;
      match client with
      | Some c =>
          cm_Ban (ip_address c) ;;;
          SendToClient target_id ("You have been banned by " +:+ nm) ;;;
          DisconnectClient target_id ;;;
          SendToClient client_id ("Banned IP for " +:+ target_name)
      | None => ret tt
      end
    else
      SendToClient client_id "User not found"
  else if decide (command = "#mute") then
    let '(target_name, iss) := extract_string EmptyString iss in
    let '(duration, iss) := extract_int 60 iss in
    target_id <- lookup_target target_name ;;
    if decide (target_id ≠ -1) then
      cm_Mute target_id duration ;;;
      SendToClient target_id ("You have been muted for " +:+ to_string duration +:+
                              " seconds") ;;;
      SendToClient client_id ("Muted " +:+ target_name +:+ " for " +:+
                              to_string duration +:+ " seconds")
    else
      SendToClient client_id "User not found"
  else
    SendToClient client_id "Unknown command. Type #help for available commands.".

(** [HandleMessage]; [message] is the chunk [std::string(message, length)]. *)
Definition HandleMessage (client_id : Z) (message : string) : M unit :=
  let msg := trim_line_end message in
  if decide (msg = EmptyString) then ret tt
  else
    allowed <- cm_AllowMessage client_id ;;
    if negb allowed then
      SendToClient client_id "You are sending too many messages. Please slow down."
    else
      cm_RecordMessage client_id ;;;
      muted <- cm_IsMuted client_id ;;
      if muted then
        SendToClient client_id "You are muted."
      else
        current_name <- GetClientName client_id ;;
        let dispatch :=
          if starts_with_hash msg then ProcessCommand client_id msg
          else BroadcastToRoom client_id msg in
        if decide (current_name = "User#" +:+ to_string client_id) then
          if starts_with_hash msg then dispatch
          else
            SetClientName client_id msg ;;;
            r <- rooms_GetClientRoom client_id ;;
            let join_msg := msg +:+ " has joined #" +:+ r in
            members <- rooms_GetRoomMembers r ;;
            for_each members (λ member_id,
              if decide (member_id ≠ client_id) then SendToClient member_id join_msg
              else ret tt)
        else dispatch.

(** [HandleConnect]; [ip] is what [GetSocketAddress(socket)] returns. *)
Definition HandleConnect (client_id : Z) (ip : string) : M unit :=
  allowed <- cm_AllowConnection ip ;;
  if negb allowed then DisconnectClient client_id
  else
    cm_OnConnect ;;;
    rooms_JoinRoom "general" client_id ;;;
    SendToClient client_id
      ("Welcome to the chat server! You are in #general." +:+ nl +:+
       "Type #help for available commands." +:+ nl).

(** [HandleDisconnect]. *)
Definition HandleDisconnect (client_id : Z) : M unit :=
  nm <- GetClientName client_id ;;
  r <- rooms_GetClientRoom client_id ;;
  rooms_LeaveRoom client_id ;;;
  cm_OnDisconnect ;;;
  (λ w, (tt, with_names (names_erase client_id (g_client_names w)) w)) ;;;
  let bye := nm +:+ " has left the chat" in
  if decide (r ≠ EmptyString) then
    members <- rooms_GetRoomMembers r ;;
    for_each members (λ member_id, SendToClient member_id bye)
  else ret tt.

End Dispatcher.

(** The state the server starts from: the managers as [main] configures
    them, nobody connected. *)
Definition server_cm_config : ConnMgr.Config :=
  {| ConnMgr.max_connections_per_second := 50;
     ConnMgr.max_messages_per_minute := 60;
     ConnMgr.heartbeat_interval_seconds := 30;
     ConnMgr.connection_timeout_seconds := 300;
     ConnMgr.max_total_connections := 1000 |}.

Definition World_init (steady system : Z) (ticks : list N) : World :=
  {| g_connection_manager := ConnMgr.ConnectionManager_new server_cm_config;
     g_chat_rooms := ChatRoom.ChatRoomManager_new steady;
     g_message_store := MsgStore.MessageStore_new MsgStore.Config_default;
     g_client_names := [];
     clients := [];
     outbox := [];
     disconnect_queue := [];
     steady_clock := steady;
     system_clock := system;
     elapse := ticks |}.

(** [IOCPServer::HandleAccept], as far as the client table goes. *)
Definition accept_client (client_id : Z) (ip : string) (w : World) : World :=
  with_clients (clients w ++ [{| id := client_id; ip_address := ip |}])%list w.

(** What [SendToClient] hands to the transport for a non-empty message:
    the message, with a line feed appended unless it ends in one. *)
Definition wire (message : string) : string :=
  if decide (back message = Some LF) then message else message +:+ nl.

(** The outbox entries a loop [for (m : members) if (m != skip)
    SendToClient(m, message)] produces: one per listed member other than
    [skip] that the transport knows, in list order. *)
Definition fanout (w : World) (skip : option Z) (members : list Z) (message : string)
    : list (Z * string) :=
  (λ m, (m, wire message)) <$>
  List.filter (λ m, negb (bool_decide (Some m = skip)) &&
                    bool_decide (m ∈ id <$> clients w)) members.

(** The three manager calls [HandleMessage] makes for a non-empty chunk
    before it dispatches. *)
Definition admission (client_id : Z) : M unit :=
  cm_AllowMessage client_id ;;; cm_RecordMessage client_id ;;;
  cm_IsMuted client_id ;;; ret tt.

(** The events the transport delivers, to speak about whole runs:
    [Accepted] is [IOCPServer::HandleAccept] entering the client in its
    table, the other three are the callbacks; [Elapsed] lets time pass and
    fixes how the clock moves during the following callbacks. *)
Inductive Event :=
| Accepted (client_id : Z) (ip : string)
| Connected (client_id : Z) (ip : string)
| Message (client_id : Z) (chunk : string)
| Disconnected (client_id : Z)
| Elapsed (d : N) (ticks : list N).

Definition handle (GetTimestampString : Z → string) (w : World) (e : Event) : World :=
  match e with
  | Accepted c ip => accept_client c ip w
  | Connected c ip => exec (HandleConnect c ip) w
  | Message c chunk => exec (HandleMessage GetTimestampString c chunk) w
  | Disconnected c => exec (HandleDisconnect c) w
  | Elapsed d ticks =>
      {| g_connection_manager := g_connection_manager w; g_chat_rooms := g_chat_rooms w;
         g_message_store := g_message_store w; g_client_names := g_client_names w;
         clients := clients w; outbox := outbox w;
         disconnect_queue := disconnect_queue w;
         steady_clock := steady_clock w + Z.of_N d;
         system_clock := system_clock w + Z.of_N d; elapse := ticks |}
  end.

Definition serve (GetTimestampString : Z → string) (es : list Event) (w : World) : World :=
  foldl (handle GetTimestampString) w es.

(** A computation keeps a property of the room manager. *)
Definition keeps (P : ChatRoom.ChatRoomManager → Prop) {A : Type} (m : M A) : Prop :=
  ∀ w, P (g_chat_rooms w) → P (g_chat_rooms (m w).2).

(** The command words [ProcessCommand] knows. *)
Definition known_commands : list string :=
  ["#exit"; "#help"; "#rooms"; "#join"; "#create"; "#leave"; "#online";
   "#whisper"; "#history"; "#kick"; "#ban"; "#mute"].





End Server.

(* ===================================================================== *)
(** * Concrete states used to exercise the theorems                      *)
(* ===================================================================== *)

Module Samples.

(** Two clients in a room devs owned by client 7, one client in general. *)
Definition sample_rooms : ChatRoom.ChatRoomManager :=
  ChatRoom.run
    [ChatRoom.OpCreate 5 "devs" 7 false ""; ChatRoom.OpJoin "devs" 7 "";
     ChatRoom.OpJoin "devs" 8 ""; ChatRoom.OpJoin "general" 9 ""]
    (ChatRoom.ChatRoomManager_new 0).

(** The same rooms plus a private room vault with password s3cret. *)
Definition private_rooms : ChatRoom.ChatRoomManager :=
  (ChatRoom.CreateRoom 6 "vault" 7 true "s3cret" sample_rooms).2.

(** Client 7 muted for good; client 3 with three recorded messages. *)
Definition sample_cm : ConnMgr.ConnectionManager :=
  ConnMgr.Mute 0 7 0
    (ConnMgr.RecordMessage (Mach.seconds 100) (Mach.seconds 100) 3
      (ConnMgr.RecordMessage (Mach.seconds 70) (Mach.seconds 70) 3
        (ConnMgr.RecordMessage (Mach.seconds 10) (Mach.seconds 10) 3
          (ConnMgr.ConnectionManager_new ConnMgr.Config_default)))).

(** A store that keeps two messages per room. *)
Definition small_config : MsgStore.Config :=
  {| MsgStore.max_messages_per_room := 2; MsgStore.max_file_size_mb := 10;
     MsgStore.log_directory := "./chat_logs"; MsgStore.enable_persistence := false |}.

Definition note (i : Z) (text : string) : MsgStore.ChatMessage :=
  {| MsgStore.sender_id := 1; MsgStore.sender_name := "alice";
     MsgStore.room := "general"; MsgStore.content := text;
     MsgStore.timestamp := i |}.

(** The messages 1 .. 100, all for the room general. *)
Definition hundred_later : list MsgStore.ChatMessage :=
  (λ i : nat, note (Z.of_nat i) "later") <$> seq 1 100.

(** Three clients connected and named alice (1), bob (2) and carol (3),
    all in general. *)
Definition no_stamp (t : Z) : string := EmptyString.

Definition chat_world : Server.World :=
  foldl (λ w step, Server.exec step w)
    (Server.accept_client 3 "10.0.0.3:5000"
       (Server.accept_client 2 "10.0.0.2:5000"
          (Server.accept_client 1 "10.0.0.1:5000" (Server.World_init 0 0 []))))
    [Server.HandleConnect 1 "10.0.0.1:5000";
     Server.HandleConnect 2 "10.0.0.2:5000";
     Server.HandleConnect 3 "10.0.0.3:5000";
     Server.HandleMessage no_stamp 1 "alice";
     Server.HandleMessage no_stamp 2 "bob";
     Server.HandleMessage no_stamp 3 "carol"].

(** [chat_world] after a fourth client has also taken the name bob and
    alice has kicked bob: client 2 is gone from the transport's table while
    its disconnect callback is still queued, so the registry still lists
    it, before client 4. *)
Definition two_bobs_world : Server.World :=
  foldl (λ w step, Server.exec step w)
    (Server.accept_client 4 "10.0.0.4:5000" chat_world)
    [Server.HandleConnect 4 "10.0.0.4:5000";
     Server.HandleMessage no_stamp 4 "bob";
     Server.HandleMessage no_stamp 1 "#kick bob"].


(** The same world after alice has sent [#mute bob 1000]. *)
Definition muted_world : Server.World :=
  Server.exec (Server.HandleMessage no_stamp 1 "#mute bob 1000") chat_world.

End Samples.

(* ===================================================================== *)
(** * Properties of the room manager                                     *)
(* ===================================================================== *)

Local Set Warnings "-clear-no-such-hyp".

Module ChatRoomFacts.
Import ChatRoom Samples.

Lemma set_members_members f r : members (set_members f r) = f (members r).
Proof. reflexivity. Qed.

(** Membership after an in-place change of one room's member set. *)
Lemma member_after_alter (f : gset Z → gset Z) (k r : string) (x : Z)
    (m : gmap string Room) :
  (∃ R, alter (set_members f) k m !! r = Some R ∧ x ∈ members R) ↔
  (∃ R, m !! r = Some R ∧ x ∈ (if decide (k = r) then f (members R) else members R)).
Proof.
  destruct (decide (k = r)) as [->|Hne].
  - rewrite lookup_alter_eq. destruct (m !! r) as [R0|]; simpl.
    + split; intros (R & HR & Hx); simplify_eq; eauto.
    + split; intros (R & HR & _); discriminate.
  - rewrite lookup_alter_ne by done. reflexivity.
Qed.

Lemma migrate_other now l : ∀ st r, r ≠ "general" →
  rooms (foldl (migrate_step now) st l) !! r = rooms st !! r.
Proof.
  induction l as [|c l IH]; intros st r Hr; simpl; [done|].
  rewrite IH by done. simpl. by rewrite lookup_insert_ne.
Qed.

Lemma migrate_general now l : ∀ st G, rooms st !! "general" = Some G →
  ∃ G', rooms (foldl (migrate_step now) st l) !! "general" = Some G' ∧
        members G' = list_to_set l ∪ members G.
Proof.
  induction l as [|c l IH]; intros st G HG; simpl.
  - exists G. split; [done|]. set_solver.
  - destruct (IH (migrate_step now st c) (set_members (λ m, {[c]} ∪ m) G))
      as (G' & HG' & Hm).
    { simpl. rewrite HG. simpl. by rewrite lookup_insert_eq. }
    exists G'. split; [done|]. rewrite Hm. simpl. set_solver.
Qed.

Lemma migrate_clients now l : ∀ st c,
  client_rooms (foldl (migrate_step now) st l) !! c =
  if decide (c ∈ l) then Some "general" else client_rooms st !! c.
Proof.
  induction l as [|x l IH]; intros st c.
  - case_decide as Hin; [by apply elem_of_nil in Hin|done].
  - cbn [foldl]. rewrite IH. cbn [migrate_step client_rooms].
    destruct (decide (x = c)) as [->|Hne].
    + rewrite lookup_insert_eq. repeat case_decide; try done; exfalso; set_solver.
    + rewrite lookup_insert_ne by done.
      repeat case_decide; try done; exfalso; set_solver.
Qed.

Lemma Inv_init now : Inv (ChatRoomManager_new now).
Proof.
  split.
  - unfold general_exists. simpl. rewrite lookup_singleton_eq. eauto.
  - intros c r. simpl. rewrite lookup_empty. split; [done|].
    intros (R & HR & Hc). apply lookup_singleton_Some in HR as [_ <-].
    simpl in Hc. by apply not_elem_of_empty in Hc.
Qed.

Lemma Inv_CreateRoom now nm owner priv pw st :
  Inv st → Inv (CreateRoom now nm owner priv pw st).2.
Proof.
  intros [Hg Hm]. unfold general_exists, membership_agrees in *. unfold CreateRoom.
  destruct (rooms st !! nm) as [R0|] eqn:Hnm; [by split|].
  split; simpl.
  - unfold general_exists. simpl. destruct (decide (nm = "general")) as [->|Hne].
    + rewrite lookup_insert_eq. eauto.
    + by rewrite lookup_insert_ne.
  - intros c r. simpl. rewrite Hm. destruct (decide (nm = r)) as [->|Hne].
    + rewrite lookup_insert_eq, Hnm. split.
      * intros (R & HR & _). discriminate.
      * intros (R & HR & Hc). simplify_eq. simpl in Hc.
        by apply not_elem_of_empty in Hc.
    + by rewrite lookup_insert_ne.
Qed.

Lemma Inv_LeaveRoom c st : Inv st → Inv (LeaveRoom c st).
Proof.
  intros [Hg Hm]. unfold general_exists, membership_agrees in *. unfold LeaveRoom.
  destruct (client_rooms st !! c) as [cur|] eqn:Hcur; [|by split].
  split.
  - unfold general_exists in *. simpl. destruct (decide (cur = "general")) as [->|Hne].
    + rewrite lookup_alter_eq. destruct Hg as [G ->]. simpl. eauto.
    + by rewrite lookup_alter_ne.
  - intros x r. simpl. rewrite member_after_alter.
    destruct (decide (x = c)) as [->|Hx].
    + rewrite lookup_delete_eq. split; [done|].
      intros (R & HR & Hin). exfalso. case_decide as Hk.
      * apply elem_of_difference in Hin as [_ Hin]. apply Hin. by apply elem_of_singleton.
      * assert (client_rooms st !! c = Some r) as Hr by (apply Hm; eauto). congruence.
    + rewrite lookup_delete_ne by done. rewrite Hm.
      split; intros (R & HR & Hin); exists R; (split; [done|]);
        case_decide; try done.
      * apply elem_of_difference. split; [done|]. by rewrite elem_of_singleton.
      * by apply elem_of_difference in Hin as [Hin _].
Qed.

Lemma Inv_JoinRoom nm c pw st : Inv st → Inv (JoinRoom nm c pw st).2.
Proof.
  intros [Hg Hm]. unfold general_exists, membership_agrees in *. unfold JoinRoom.
  destruct (rooms st !! nm) as [R0|] eqn:Hnm; [|by split].
  destruct (is_private R0 && bool_decide (password R0 ≠ pw)); [by split|].
  cbn [snd]. split.
  - unfold general_exists in *. cbn [rooms].
    assert (is_Some (match client_rooms st !! c with
                     | Some cur => alter (set_members (λ m, m ∖ {[c]})) cur (rooms st)
                     | None => rooms st
                     end !! "general")) as [G1 HG1].
    { destruct (client_rooms st !! c) as [cur|]; [|done].
      destruct (decide (cur = "general")) as [->|Hne].
      - rewrite lookup_alter_eq. destruct Hg as [G ->]. simpl. eauto.
      - by rewrite lookup_alter_ne. }
    destruct (decide (nm = "general")) as [->|Hne].
    + rewrite lookup_alter_eq, HG1. simpl. eauto.
    + rewrite lookup_alter_ne by done. eauto.
  - intros x r. cbn [rooms client_rooms]. rewrite member_after_alter.
    destruct (client_rooms st !! c) as [cur|] eqn:Hcur.
    + destruct (decide (x = c)) as [->|Hx].
      * rewrite lookup_insert_eq. split.
        -- intros [= <-]. (case_decide; [|done]).
           destruct (decide (cur = nm)) as [->|Hne].
           ++ rewrite lookup_alter_eq, Hnm. simpl. eexists. split; [done|].
              apply elem_of_union_l. by apply elem_of_singleton.
           ++ rewrite lookup_alter_ne by done. rewrite Hnm. eexists. split; [done|].
              apply elem_of_union_l. by apply elem_of_singleton.
        -- intros (R & HR & Hin). case_decide as Hk; [by subst|].
           exfalso.
           assert (∃ R', alter (set_members (λ m, m ∖ {[c]})) cur (rooms st) !! r = Some R'
                         ∧ c ∈ members R') as Hex by eauto.
           apply member_after_alter in Hex as (R' & HR' & Hin').
           case_decide as Hk'.
           ++ apply elem_of_difference in Hin' as [_ Hin']. apply Hin'.
              by apply elem_of_singleton.
           ++ assert (client_rooms st !! c = Some r) as Hr by (apply Hm; eauto).
              congruence.
      * rewrite lookup_insert_ne by done. rewrite Hm.
        split.
        -- intros (R & HR & Hin).
           assert (∃ R', alter (set_members (λ m, m ∖ {[c]})) cur (rooms st) !! r = Some R'
                         ∧ x ∈ members R') as (R' & HR' & Hin').
           { apply member_after_alter. exists R. split; [done|].
             case_decide; [|done]. apply elem_of_difference. split; [done|].
             by rewrite elem_of_singleton. }
           exists R'. split; [done|]. case_decide; [|done]. by apply elem_of_union_r.
        -- intros (R & HR & Hin).
           assert (x ∈ members R) as Hin0.
           { case_decide; [|done]. apply elem_of_union in Hin as [Hin|Hin]; [|done].
             apply elem_of_singleton in Hin. done. }
           assert (∃ R', alter (set_members (λ m, m ∖ {[c]})) cur (rooms st) !! r = Some R'
                         ∧ x ∈ members R') as Hex by eauto.
           apply member_after_alter in Hex as (R' & HR' & Hin').
           exists R'. split; [done|]. case_decide; [|done].
           by apply elem_of_difference in Hin' as [Hin' _].
    + destruct (decide (x = c)) as [->|Hx].
      * rewrite lookup_insert_eq. split.
        -- intros [= <-]. (case_decide; [|done]). exists R0. split; [done|].
           apply elem_of_union_l. by apply elem_of_singleton.
        -- intros (R & HR & Hin). case_decide as Hk; [by subst|].
           assert (client_rooms st !! c = Some r) as Hr by (apply Hm; eauto).
           congruence.
      * rewrite lookup_insert_ne by done. rewrite Hm.
        split; intros (R & HR & Hin); exists R; (split; [done|]);
          case_decide; try done.
        -- by apply elem_of_union_r.
        -- apply elem_of_union in Hin as [Hin|Hin]; [|done].
           apply elem_of_singleton in Hin. done.
Qed.

Lemma DeleteRoom_refused now nm req st :
  nm = "general" ∨ rooms st !! nm = None ∨
  (∃ R, rooms st !! nm = Some R ∧ owner_id R ≠ req ∧ req ≠ 0) →
  DeleteRoom now nm req st = (false, st).
Proof.
  unfold DeleteRoom. intros [->|[Hnone|(R & HR & Ho & Hr)]].
  - done.
  - case_decide; [done|]. by rewrite Hnone.
  - case_decide; [done|]. rewrite HR.
    by rewrite !bool_decide_eq_true_2.
Qed.

Lemma DeleteRoom_done now nm req st R G :
  nm ≠ "general" → rooms st !! nm = Some R → owner_id R = req ∨ req = 0 →
  rooms st !! "general" = Some G →
  ∃ st', DeleteRoom now nm req st = (true, st') ∧
    rooms st' !! nm = None ∧
    (∃ G', rooms st' !! "general" = Some G' ∧ members G' = members R ∪ members G) ∧
    (∀ r, r ≠ nm → r ≠ "general" → rooms st' !! r = rooms st !! r) ∧
    (∀ c, client_rooms st' !! c =
          if decide (c ∈ members R) then Some "general" else client_rooms st !! c).
Proof.
  intros Hne HR Hauth HG. unfold DeleteRoom.
  rewrite decide_False by done. rewrite HR.
  assert (bool_decide (owner_id R ≠ req) && bool_decide (req ≠ 0) = false) as ->.
  { destruct Hauth as [Ho|Hr].
    - rewrite (bool_decide_eq_false_2 (owner_id R ≠ req)); [done|]. by intros [].
    - rewrite (bool_decide_eq_false_2 (req ≠ 0)); [|by intros []].
      by rewrite andb_false_r. }
  eexists. split; [reflexivity|]. cbn [rooms client_rooms].
  split; [by rewrite lookup_delete_eq|]. split; [|split].
  - destruct (migrate_general now (elements (members R)) st G HG) as (G' & HG' & Hm).
    exists G'. rewrite lookup_delete_ne by done. split; [done|].
    by rewrite Hm, list_to_set_elements_L.
  - intros r Hr1 Hr2. rewrite lookup_delete_ne by done. by apply migrate_other.
  - intros c. rewrite migrate_clients.
    destruct (decide (c ∈ elements (members R))) as [Hin|Hin];
      destruct (decide (c ∈ members R)) as [Hin'|Hin']; try done; exfalso.
    + by apply elem_of_elements in Hin.
    + apply Hin. by apply elem_of_elements.
Qed.

Lemma Inv_DeleteRoom now nm req st : Inv st → Inv (DeleteRoom now nm req st).2.
Proof.
  intros HI.
  destruct (decide (nm = "general")) as [Hgen|Hgen].
  { rewrite DeleteRoom_refused by auto. done. }
  destruct (rooms st !! nm) as [R|] eqn:HR.
  2: { rewrite DeleteRoom_refused by auto. done. }
  destruct (decide (owner_id R = req ∨ req = 0)) as [Hauth|Hauth].
  2: { rewrite DeleteRoom_refused; [done|]. right. right. exists R.
       split; [done|]. split; intros ?; apply Hauth; auto. }
  destruct HI as [[G HG] Hm]. unfold membership_agrees in Hm.
  destruct (DeleteRoom_done now nm req st R G Hgen HR Hauth HG)
    as (st' & -> & Hgone & (G' & HG' & HmG) & Hother & Hcl).
  cbn [snd]. split; [by exists G'|].
  intros c r. rewrite Hcl.
  destruct (decide (r = nm)) as [->|Hr1].
  { rewrite Hgone. split.
    - case_decide as Hin; [intros [= Heq]; by rewrite Heq in Hgen|].
      intros Hc. apply Hm in Hc as (R' & HR' & Hin'). congruence.
    - intros (? & ? & _). discriminate. }
  destruct (decide (r = "general")) as [->|Hr2].
  { rewrite HG'. split.
    - intros Hc. exists G'. split; [done|]. rewrite HmG.
      case_decide as Hin; [by apply elem_of_union_l|].
      apply elem_of_union_r. apply Hm in Hc as (G0 & HG0 & Hin0). congruence.
    - intros (G0 & [= <-] & Hin). rewrite HmG in Hin.
      case_decide as HinR; [done|].
      apply elem_of_union in Hin as [Hin|Hin]; [done|]. apply Hm. eauto. }
  rewrite Hother by done. case_decide as Hin.
  - split; [intros [= Heq]; by rewrite Heq in Hr2|].
    intros Hex. apply Hm in Hex.
    assert (client_rooms st !! c = Some nm) as Hc by (apply Hm; eauto). congruence.
  - apply Hm.
Qed.

Lemma Inv_apply_op st o : Inv st → Inv (apply_op st o).
Proof.
  destruct o; simpl; auto using Inv_CreateRoom, Inv_DeleteRoom, Inv_JoinRoom, Inv_LeaveRoom.
Qed.

Lemma Inv_run ops : ∀ st, Inv st → Inv (run ops st).
Proof.
  induction ops as [|o ops IH]; intros st HI; [done|].
  apply IH. by apply Inv_apply_op.
Qed.

(** C1. Room-membership consistency.  After any sequence of CreateRoom,
    DeleteRoom, JoinRoom and LeaveRoom calls on a freshly constructed
    manager, a client that [client_rooms] maps to room [r] is a member of
    the existing room [r] and of no other room. *)
Theorem room_membership_consistent now ops c r :
  client_rooms (run ops (ChatRoomManager_new now)) !! c = Some r →
  (∃ R, rooms (run ops (ChatRoomManager_new now)) !! r = Some R ∧ c ∈ members R) ∧
  (∀ r' R', rooms (run ops (ChatRoomManager_new now)) !! r' = Some R' →
            c ∈ members R' → r' = r).
Proof.
  intros Hc.
  destruct (Inv_run ops _ (Inv_init now)) as [_ Hm].
  split; [by apply Hm|].
  intros r' R' HR' Hin.
  assert (client_rooms (run ops (ChatRoomManager_new now)) !! c = Some r') as Hc'
    by (apply Hm; eauto).
  congruence.
Qed.

Lemma room_membership_consistent_witness :
  let ops := [OpCreate 5 "devs" 1 false ""; OpJoin "general" 1 ""; OpJoin "devs" 1 "";
              OpJoin "devs" 2 ""; OpDelete 9 "devs" 1; OpLeave 2;
              OpCreate 11 "ops" 1 false ""; OpJoin "ops" 1 ""] in
  client_rooms (run ops (ChatRoomManager_new 0)) !! 1 = Some "ops" ∧
  (∃ R, rooms (run ops (ChatRoomManager_new 0)) !! "ops" = Some R ∧ 1 ∈ members R) ∧
  (∀ r' R', rooms (run ops (ChatRoomManager_new 0)) !! r' = Some R' →
            1 ∈ members R' → r' = "ops").
Proof.
  intros ops.
  assert (client_rooms (run ops (ChatRoomManager_new 0)) !! 1 = Some "ops") as H
    by (vm_compute; reflexivity).
  split; [exact H|].
  exact (room_membership_consistent 0 ops 1 "ops" H).
Defined.

(** C5. DeleteRoom refuses, changing nothing, for the room general, for an
    unknown room and for a requester who is neither the owner nor the
    administrator 0; otherwise it removes the room and moves every member
    into general, in the member set and in [client_rooms] alike. *)
Theorem DeleteRoom_spec now nm req st :
  general_exists st →
  (nm = "general" ∨ rooms st !! nm = None ∨
   (∃ R, rooms st !! nm = Some R ∧ owner_id R ≠ req ∧ req ≠ 0) →
   DeleteRoom now nm req st = (false, st)) ∧
  (∀ R, nm ≠ "general" → rooms st !! nm = Some R → owner_id R = req ∨ req = 0 →
     ∃ st', DeleteRoom now nm req st = (true, st') ∧
       rooms st' !! nm = None ∧
       (∀ c, c ∈ members R →
          client_rooms st' !! c = Some "general" ∧
          ∃ G', rooms st' !! "general" = Some G' ∧ c ∈ members G') ∧
       (∀ r, r ≠ nm → r ≠ "general" → rooms st' !! r = rooms st !! r) ∧
       (∀ c, c ∉ members R → client_rooms st' !! c = client_rooms st !! c)).
Proof.
  intros [G HG]. split; [apply DeleteRoom_refused|].
  intros R Hne HR Hauth.
  destruct (DeleteRoom_done now nm req st R G Hne HR Hauth HG)
    as (st' & Heq & Hgone & (G' & HG' & HmG) & Hother & Hcl).
  exists st'. repeat split; try done.
  - rewrite Hcl. by rewrite decide_True.
  - exists G'. split; [done|]. rewrite HmG. by apply elem_of_union_l.
  - intros c Hc. rewrite Hcl. by rewrite decide_False.
Qed.

Lemma DeleteRoom_spec_witness :
  DeleteRoom 1 "general" 0 sample_rooms = (false, sample_rooms) ∧
  DeleteRoom 1 "devs" 8 sample_rooms = (false, sample_rooms) ∧
  ∃ st', DeleteRoom 1 "devs" 7 sample_rooms = (true, st') ∧
         rooms st' !! "devs" = None ∧
         client_rooms st' !! 8 = Some "general".
Proof.
  assert (general_exists sample_rooms) as Hg by (apply Inv_run, Inv_init).
  split; [|split].
  - apply (DeleteRoom_spec 1 "general" 0 sample_rooms Hg). by left.
  - apply (DeleteRoom_spec 1 "devs" 8 sample_rooms Hg). right. right.
    eexists. split; [vm_compute; reflexivity|]. by split.
  - destruct (proj2 (DeleteRoom_spec 1 "devs" 7 sample_rooms Hg)
                (set_members (λ _, {[7; 8]}) (Room_new 5 "devs" 7)))
      as (st' & Heq & Hgone & Hmoved & _); [done|by vm_compute|by left|].
    exists st'. split; [done|]. split; [done|].
    apply Hmoved. vm_compute. reflexivity.
Defined.

(** C10. GetClientRoom answers general for a client without an entry in
    the client-to-room map (never joined, or gone through LeaveRoom), and
    the recorded room name for a tracked client. *)
Theorem GetClientRoom_spec c st :
  (client_rooms st !! c = None → GetClientRoom c st = "general") ∧
  (∀ r, client_rooms st !! c = Some r → GetClientRoom c st = r) ∧
  (∀ now, GetClientRoom c (ChatRoomManager_new now) = "general") ∧
  GetClientRoom c (LeaveRoom c st) = "general".
Proof.
  unfold GetClientRoom. repeat split.
  - by intros ->.
  - by intros r ->.
  - unfold LeaveRoom. destruct (client_rooms st !! c) as [cur|] eqn:Hc; simpl.
    + by rewrite lookup_delete_eq.
    + by rewrite Hc.
Qed.

Lemma GetClientRoom_spec_witness :
  GetClientRoom 3 sample_rooms = "general" ∧ GetClientRoom 8 sample_rooms = "devs".
Proof.
  split.
  - apply (proj1 (GetClientRoom_spec 3 sample_rooms)). vm_compute. reflexivity.
  - apply (proj1 (proj2 (GetClientRoom_spec 8 sample_rooms))). vm_compute. reflexivity.
Defined.

End ChatRoomFacts.

(* ===================================================================== *)
(** * Properties of the connection manager                               *)
(* ===================================================================== *)

Module ConnMgrFacts.
Import Mach ConnMgr Samples.
Local Open Scope list_scope.

Lemma wrap32_small x : INT_MIN ≤ x ≤ INT_MAX → wrap32 x = x.
Proof.
  unfold INT_MIN, INT_MAX, wrap32. intros H.
  rewrite Z.mod_small by lia. lia.
Qed.

Lemma wrap64_small x : - 2 ^ 63 ≤ x ≤ time_point_max → wrap64 x = x.
Proof.
  unfold time_point_max, wrap64. intros H.
  rewrite Z.mod_small by lia. lia.
Qed.

Lemma to_size_t_small x : 0 ≤ x < 2 ^ 64 → to_size_t x = x.
Proof. intros H. unfold to_size_t. by apply Z.mod_small. Qed.

Lemma filter_keeps_all (P : Z → Prop) `{∀ x, Decision (P x)} (d : list Z) :
  Forall P d → filter P d = d.
Proof.
  induction 1 as [|t d Ht Hd IH]; [done|].
  rewrite filter_cons_True by done. by rewrite IH.
Qed.

(** On an ascending deque the eviction loop leaves exactly the entries that
    are not older than the cutoff. *)
Lemma pop_expired_sorted cutoff d :
  StronglySorted Z.le d → pop_expired cutoff d = filter (λ t, cutoff ≤ t) d.
Proof.
  induction 1 as [|t d Hs IH Hall]; [done|].
  simpl. destruct (Z.ltb_spec t cutoff) as [Hlt|Hge].
  - rewrite filter_cons_False by lia. apply IH.
  - symmetry. apply filter_keeps_all. constructor; [done|].
    eapply Forall_impl; [exact Hall|]. simpl. intros. lia.
Qed.

Lemma pop_expired_sublist cutoff d : sublist (pop_expired cutoff d) d.
Proof.
  induction d as [|t d IH]; simpl; [done|].
  destruct (t <? cutoff); [by apply sublist_cons|done].
Qed.

Lemma sorted_snoc (d : list Z) (t : Z) :
  StronglySorted Z.le d → Forall (λ x, x ≤ t) d → StronglySorted Z.le (d ++ [t]).
Proof.
  induction 1 as [|x d Hs IH Hall]; intros Hle; simpl.
  - repeat constructor.
  - apply Forall_cons in Hle as [Hx Hd]. constructor; [by apply IH|].
    apply Forall_app. split; [done|]. by repeat constructor.
Qed.

Lemma IsMuted_true now c cm :
  (IsMuted now c cm).1 = true → (IsMuted now c cm).2 = cm.
Proof.
  unfold IsMuted. destruct (muted_clients cm !! c) as [e|]; [|done].
  by destruct (bool_decide (e ≠ time_point_max) && (e <? now)).
Qed.

Lemma IsMuted_false now c cm :
  (IsMuted now c cm).1 = false →
  muted_clients (IsMuted now c cm).2 !! c = None ∧
  client_messages (IsMuted now c cm).2 = client_messages cm ∧
  config (IsMuted now c cm).2 = config cm.
Proof.
  unfold IsMuted. destruct (muted_clients cm !! c) as [e|] eqn:He; [|done].
  destruct (bool_decide (e ≠ time_point_max) && (e <? now)); [|done].
  intros _. simpl. by rewrite lookup_delete_eq.
Qed.

(** Once [AllowMessage] has admitted a message, the mute check
    [HandleMessage] makes after its [RecordMessage] answers false, whatever
    the clock readings, when no other call comes in between. *)
Lemma mute_check_after_admission t1 t2 t3 t4 t5 c cm :
  (AllowMessage t1 t2 c cm).1 = true →
  (IsMuted t5 c (RecordMessage t3 t4 c (AllowMessage t1 t2 c cm).2)).1 = false.
Proof.
  unfold AllowMessage.
  destruct (IsMuted t1 c cm) as [muted cm1] eqn:Hm.
  destruct muted; [done|]. intros _.
  pose proof (IsMuted_false t1 c cm) as Hf. rewrite Hm in Hf.
  destruct (Hf eq_refl) as (Hnone & _ & _). simpl in Hnone.
  unfold IsMuted, RecordMessage. simpl. by rewrite Hnone.
Qed.

(** C6. AllowMessage refuses a muted client (an expired mute entry is
    erased by the check); for a client that is not muted it answers true
    exactly when fewer than max_messages_per_minute of the client's recorded
    time stamps lie within the last minute, older ones being evicted.  It
    records nothing itself; RecordMessage appends one time stamp. *)
Theorem AllowMessage_spec now_mute now c cm :
  ((IsMuted now_mute c cm).1 = true →
   AllowMessage now_mute now c cm = (false, cm)) ∧
  (∀ e, muted_clients cm !! c = Some e → e ≠ time_point_max → e < now_mute →
     muted_clients (AllowMessage now_mute now c cm).2 !! c = None) ∧
  ((IsMuted now_mute c cm).1 = false →
   0 ≤ max_messages_per_minute (config cm) ≤ INT_MAX →
   - 2 ^ 63 ≤ now - minutes 1 → now ≤ time_point_max →
   StronglySorted Z.le (default [] (client_messages cm !! c)) →
   ((AllowMessage now_mute now c cm).1 = true ↔
    Z.of_nat (length (recent now (default [] (client_messages cm !! c))))
      < max_messages_per_minute (config cm)) ∧
   client_messages (AllowMessage now_mute now c cm).2 !! c =
     Some (recent now (default [] (client_messages cm !! c)))) ∧
  (∀ t t_activity,
     client_messages (RecordMessage t t_activity c cm) !! c =
       Some (default [] (client_messages cm !! c) ++ [t])%list).
Proof.
  split; [|split; [|split]].
  - intros Hm. unfold AllowMessage.
    pose proof (IsMuted_true now_mute c cm Hm) as Hsame.
    destruct (IsMuted now_mute c cm) as [muted cm1]. simpl in *. by subst.
  - intros e He Hmax Hexp. unfold AllowMessage, IsMuted. rewrite He.
    rewrite bool_decide_eq_true_2 by done.
    destruct (Z.ltb_spec e now_mute); [|lia]. simpl.
    by rewrite lookup_delete_eq.
  - intros Hm Hcfg Hlo Hhi Hsorted. unfold AllowMessage.
    destruct (IsMuted_false now_mute c cm Hm) as (_ & Hmsgs & Hconf).
    destruct (IsMuted now_mute c cm) as [muted cm1]. simpl in *. subst muted.
    rewrite Hmsgs, Hconf. simpl.
    rewrite to_size_t_small by (unfold INT_MAX in Hcfg; lia).
    unfold tp_sub. rewrite wrap64_small by (unfold minutes, seconds, ticks_per_second in *; lia).
    rewrite pop_expired_sorted by done. fold (recent now (default [] (client_messages cm !! c))).
    split; [apply Z.ltb_lt|]. by rewrite lookup_insert_eq.
  - intros t ta. unfold RecordMessage, UpdateActivity. simpl.
    by rewrite lookup_insert_eq.
Qed.

Lemma AllowMessage_spec_witness :
  AllowMessage (seconds 101) (seconds 101) 7 sample_cm = (false, sample_cm) ∧
  (AllowMessage (seconds 101) (seconds 101) 3 sample_cm).1 = true ∧
  client_messages (AllowMessage (seconds 101) (seconds 101) 3 sample_cm).2 !! 3 =
    Some [seconds 70; seconds 100].
Proof.
  pose proof (AllowMessage_spec (seconds 101) (seconds 101) 7 sample_cm) as (H7 & _).
  pose proof (AllowMessage_spec (seconds 101) (seconds 101) 3 sample_cm) as (_ & _ & H3 & _).
  split; [apply H7; vm_compute; reflexivity|].
  destruct H3 as [Hiff Hd].
  - vm_compute. reflexivity.
  - vm_compute. split; discriminate.
  - vm_compute. discriminate.
  - vm_compute. discriminate.
  - vm_compute. repeat constructor; discriminate.
  - split; [apply Hiff; vm_compute; reflexivity|]. rewrite Hd. vm_compute. reflexivity.
Defined.

(** One whole call on the counter does what the member function does. *)
Lemma call_ops_run k e s :
  k ∉ passed s →
  counter_run (call_ops k e) s =
  {| stored := match e with
               | Connect => wrap32 (stored s + 1)
               | Disconnect => if 0 <? stored s then wrap32 (stored s - 1) else stored s
               end;
     passed := passed s |}.
Proof.
  intros Hk. destruct e; [done|]. unfold counter_run. cbn [call_ops foldl].
  unfold counter_step at 2. destruct (0 <? stored s) eqn:Hpos.
  - unfold counter_step. cbn [passed stored].
    rewrite bool_decide_eq_true_2 by set_solver. f_equal.
    apply leibniz_equiv. set_solver.
  - unfold counter_step. cbn [passed stored].
    rewrite bool_decide_eq_false_2 by set_solver. f_equal.
    apply leibniz_equiv. set_solver.
Qed.

Lemma call_ops_members k cm :
  stored (counter_run (call_ops k Connect) (Counter_of cm)) =
    GetConnectionCount (OnConnect cm) ∧
  stored (counter_run (call_ops k Disconnect) (Counter_of cm)) =
    GetConnectionCount (OnDisconnect cm).
Proof.
  rewrite !call_ops_run by set_solver. cbn [stored Counter_of].
  unfold GetConnectionCount, OnConnect, OnDisconnect. split; [done|].
  by destruct (0 <? current_connections cm).
Qed.

(** Calls that do not overlap keep the count at or above zero, as long as
    the 32-bit counter does not overflow. *)
Lemma one_after_another_bounds calls : ∀ s,
  passed s = ∅ → 0 ≤ stored s →
  stored s + Z.of_nat (length calls) ≤ INT_MAX →
  passed (counter_run (one_after_another calls) s) = ∅ ∧
  0 ≤ stored (counter_run (one_after_another calls) s) ≤
    stored s + Z.of_nat (length calls).
Proof.
  induction calls as [|[k e] calls IH]; intros s Hp H0 Hmax.
  - simpl. split; [done|lia].
  - unfold one_after_another, counter_run in *. cbn [flat_map fst snd].
    rewrite foldl_app. fold (counter_run (call_ops k e) s).
    rewrite call_ops_run by (rewrite Hp; set_solver).
    cbn [length] in Hmax.
    set (v := match e with
              | Connect => wrap32 (stored s + 1)
              | Disconnect => if 0 <? stored s then wrap32 (stored s - 1) else stored s
              end).
    assert (0 ≤ v ≤ stored s + 1) as Hv.
    { subst v. destruct e; [|destruct (Z.ltb_spec 0 (stored s))];
        try rewrite wrap32_small by (unfold INT_MIN, INT_MAX in *; lia); lia. }
    clearbody v.
    destruct (IH {| stored := v; passed := passed s |}) as [Hp1 Hb1];
      cbn [passed stored] in *; try done; try lia.
    split; [done|]. cbn [length]. lia.
Qed.

(** C9, evaluated.  One connection is counted; two disconnect callbacks,
    run by two different pool workers, overlap: both load the count 1 and
    pass the test, then both decrement.  GetConnectionCount then reports
    -1.  Each call's operations occur in program order.  The same three
    calls made one after another leave the count at 0, and so does any
    sequence of calls that do not overlap. *)
Theorem overlapping_disconnects_go_negative (a b : nat) cfg :
  a ≠ b →
  stored (counter_run [FetchAdd; LoadTest a; LoadTest b; FetchSub a; FetchSub b]
            (Counter_of (ConnectionManager_new cfg))) = -1 ∧
  call_ops a Disconnect `sublist_of`
    [FetchAdd; LoadTest a; LoadTest b; FetchSub a; FetchSub b] ∧
  call_ops b Disconnect `sublist_of`
    [FetchAdd; LoadTest a; LoadTest b; FetchSub a; FetchSub b] ∧
  stored (counter_run
            (one_after_another [(a, Connect); (a, Disconnect); (b, Disconnect)])
            (Counter_of (ConnectionManager_new cfg))) = 0 ∧
  (∀ calls, Z.of_nat (length calls) ≤ INT_MAX →
     0 ≤ stored (counter_run (one_after_another calls)
                   (Counter_of (ConnectionManager_new cfg)))).
Proof.
  intros Hab. split_and!.
  - unfold counter_run. cbn [foldl]. unfold counter_step at 4. cbn [stored passed Counter_of
      ConnectionManager_new current_connections].
    unfold counter_step at 3. cbn [stored passed Z.ltb Z.compare].
    change (0 <? wrap32 (0 + 1)) with true. cbv iota.
    unfold counter_step at 2. cbn [stored passed].
    change (0 <? wrap32 (0 + 1)) with true. cbv iota.
    unfold counter_step at 2. cbn [stored passed].
    rewrite bool_decide_eq_true_2 by set_solver.
    unfold counter_step. cbn [stored passed].
    rewrite bool_decide_eq_true_2 by set_solver. reflexivity.
  - cbn [call_ops]. apply sublist_cons, sublist_skip, sublist_cons, sublist_skip.
    apply sublist_nil_l.
  - cbn [call_ops]. apply sublist_cons, sublist_cons, sublist_skip, sublist_cons,
      sublist_skip. apply sublist_nil_l.
  - unfold one_after_another. cbn [flat_map fst snd app].
    change [FetchAdd; LoadTest a; FetchSub a; LoadTest b; FetchSub b]
      with (call_ops a Connect ++ call_ops a Disconnect ++ call_ops b Disconnect).
    unfold counter_run. rewrite !foldl_app.
    fold (counter_run (call_ops a Connect) (Counter_of (ConnectionManager_new cfg))).
    rewrite call_ops_run by set_solver.
    match goal with
    | |- context [foldl counter_step ?s1 (call_ops a Disconnect)] =>
        fold (counter_run (call_ops a Disconnect) s1)
    end.
    rewrite call_ops_run by set_solver.
    match goal with
    | |- context [foldl counter_step ?s1 (call_ops b Disconnect)] =>
        fold (counter_run (call_ops b Disconnect) s1)
    end.
    rewrite call_ops_run by set_solver. reflexivity.
  - intros calls Hlen.
    apply (one_after_another_bounds calls (Counter_of (ConnectionManager_new cfg)));
      [done|done|]. cbn [stored Counter_of ConnectionManager_new current_connections]. lia.
Qed.

Lemma overlapping_disconnects_go_negative_witness :
  stored (counter_run [FetchAdd; LoadTest 1; LoadTest 2; FetchSub 1; FetchSub 2]
            (Counter_of (ConnectionManager_new Config_default))) = -1.
Proof.
  apply (overlapping_disconnects_go_negative 1 2 Config_default). lia.
Defined.

End ConnMgrFacts.

(* ===================================================================== *)
(** * Properties of the message store                                    *)
(* ===================================================================== *)

Module MsgStoreFacts.
Import MsgStore Samples.
Local Open Scope nat_scope.
Local Open Scope list_scope.

Lemma trim_front_lastn {A : Type} (k : nat) (l : list A) :
  trim_front k l = lastn k l.
Proof.
  unfold lastn. induction l as [|x l IH]; [done|].
  cbn [trim_front]. destruct (Nat.ltb_spec k (length (x :: l))) as [Hlt|Hge].
  - rewrite IH. simpl in *. replace (S (length l) - k) with (S (length l - k)) by lia.
    done.
  - simpl in *. replace (S (length l) - k) with 0 by lia. done.
Qed.

Lemma lastn_length {A : Type} (k : nat) (l : list A) :
  length (lastn k l) = k `min` length l.
Proof. unfold lastn. rewrite length_drop. lia. Qed.

Lemma lastn_app_lastn {A : Type} (k : nat) (l l' : list A) :
  lastn k (lastn k l ++ l') = lastn k (l ++ l').
Proof.
  unfold lastn. rewrite !length_app, length_drop.
  destruct (decide (length l ≤ k)) as [Hle|Hgt].
  - replace (length l - k) with 0 by lia. simpl. f_equal. lia.
  - rewrite <- (drop_app_le l l' (length l - k)) by lia.
    rewrite drop_drop. f_equal. lia.
Qed.

Lemma lastn_lastn {A : Type} (n k : nat) (l : list A) :
  lastn n (lastn k l) = lastn (n `min` k) l.
Proof.
  unfold lastn. rewrite length_drop, drop_drop. f_equal. lia.
Qed.

(** The index loop of [GetRecent] copies a slice. *)
Lemma copy_loop {A : Type} (l : list A) (len : nat) : ∀ (start : nat) (acc : list A),
  foldl (λ result i, match l !! i with
                     | Some m => result ++ [m]
                     | None => result
                     end) acc (seq start len) = acc ++ take len (drop start l).
Proof.
  induction len as [|len IH]; intros start acc.
  - simpl. by rewrite app_nil_r.
  - cbn [seq foldl]. rewrite IH. destruct (l !! start) as [m|] eqn:Hm.
    + rewrite (drop_S l m start Hm). simpl. by rewrite <- app_assoc.
    + apply lookup_ge_None in Hm.
      rewrite !drop_ge by lia. by rewrite !take_nil.
Qed.

Lemma GetRecent_lastn r n st : GetRecent r n st = lastn n (cache r st).
Proof.
  unfold GetRecent, cache, lastn.
  destruct (room_messages st !! r) as [d|]; [|done]. simpl.
  rewrite copy_loop. simpl.
  assert ((if n <? length d then length d - n else 0) = length d - n) as ->.
  { destruct (Nat.ltb_spec n (length d)); lia. }
  apply take_ge. rewrite length_drop. lia.
Qed.

Lemma cache_Store r m st :
  cache r (Store m st) =
  if decide (room m = r)
  then lastn (max_messages_per_room (config st)) (cache r st ++ [m])
  else cache r st.
Proof.
  unfold cache, Store. simpl. case_decide as Hr.
  - subst r. rewrite lookup_insert_eq. simpl. apply trim_front_lastn.
  - by rewrite lookup_insert_ne.
Qed.

Lemma config_store_all ms : ∀ st, config (store_all ms st) = config st.
Proof.
  induction ms as [|m ms IH]; intros st; [done|].
  change (store_all (m :: ms) st) with (store_all ms (Store m st)).
  by rewrite IH.
Qed.

Lemma cache_store_all r ms : ∀ st,
  cache r (store_all ms st) =
  match in_room r ms with
  | [] => cache r st
  | f => lastn (max_messages_per_room (config st)) (cache r st ++ f)
  end.
Proof.
  unfold in_room.
  induction ms as [|m ms IH]; intros st; [done|].
  change (store_all (m :: ms) st) with (store_all ms (Store m st)).
  rewrite IH, cache_Store. change (config (Store m st)) with (config st).
  destruct (decide (room m = r)) as [Hr|Hr].
  - rewrite filter_cons_True by done.
    destruct (filter (λ m0, room m0 = r) ms) as [|x f]; [done|].
    rewrite lastn_app_lastn. by rewrite <- app_assoc.
  - by rewrite filter_cons_False.
Qed.

Lemma lastn_all {A : Type} (n : nat) (l : list A) : length l ≤ n → lastn n l = l.
Proof. intros H. unfold lastn. by replace (length l - n) with 0 by lia. Qed.

Lemma cache_after_later r m later st :
  room m = r →
  cache r (store_all later (Store m st)) =
  lastn (max_messages_per_room (config st)) ((cache r st ++ [m]) ++ in_room r later).
Proof.
  intros Hr. rewrite cache_store_all, cache_Store, decide_True by done.
  change (config (Store m st)) with (config st).
  destruct (in_room r later) as [|x f]; [by rewrite app_nil_r|].
  apply lastn_app_lastn.
Qed.

(** C7 (amended). Right after [Store m] the message is the last element of
    what GetRecent returns; GetRecent returns the most recent
    min(n, cache length) stored messages of the room in insertion order;
    and a stored message stays retrievable as long as fewer than
    max_messages_per_room later messages have been stored in its room,
    after which only later messages are returned. *)
Theorem store_getrecent_roundtrip (st : MessageStore) (m : ChatMessage) :
  (1 ≤ max_messages_per_room (config st) →
   ∀ n, length (cache (room m) (Store m st)) ≤ n →
        last (GetRecent (room m) n (Store m st)) = Some m) ∧
  (∀ r n, GetRecent r n st = lastn n (cache r st) ∧
          length (GetRecent r n st) = n `min` length (cache r st)) ∧
  (∀ cfg ms r n,
     GetRecent r n (store_all ms (MessageStore_new cfg)) =
     lastn (n `min` max_messages_per_room cfg) (in_room r ms)) ∧
  (∀ later n,
     length (in_room (room m) later) < max_messages_per_room (config st) →
     length (cache (room m) (store_all later (Store m st))) ≤ n →
     m ∈ GetRecent (room m) n (store_all later (Store m st))) ∧
  (∀ later n,
     max_messages_per_room (config st) ≤ length (in_room (room m) later) →
     GetRecent (room m) n (store_all later (Store m st))
       `suffix_of` in_room (room m) later).
Proof.
  split; [|split; [|split; [|split]]].
  - intros Hlimit n Hn. rewrite GetRecent_lastn, lastn_all by done.
    rewrite cache_Store, decide_True by done. unfold lastn.
    rewrite drop_app_le by (rewrite length_app; simpl; lia).
    apply last_snoc.
  - intros r n. rewrite GetRecent_lastn. split; [done|]. apply lastn_length.
  - intros cfg ms r n. rewrite GetRecent_lastn, cache_store_all.
    change (config (MessageStore_new cfg)) with cfg.
    change (cache r (MessageStore_new cfg)) with (@nil ChatMessage).
    destruct (in_room r ms) as [|x f] eqn:Hf.
    + done.
    + simpl. apply lastn_lastn.
  - intros later n Hk Hn. rewrite GetRecent_lastn, lastn_all by done.
    rewrite cache_after_later by done. unfold lastn.
    rewrite <- app_assoc. rewrite drop_app_le by (rewrite !length_app; simpl; lia).
    apply elem_of_app. right. by left.
  - intros later n Hk. rewrite GetRecent_lastn, cache_after_later by done.
    unfold lastn at 2. rewrite drop_app_ge by (rewrite !length_app; simpl; lia).
    unfold lastn. rewrite drop_drop. apply suffix_drop.
Qed.

Lemma store_getrecent_roundtrip_witness :
  last (GetRecent "general" 5 (Store (note 1 "a") (MessageStore_new small_config)))
    = Some (note 1 "a") ∧
  note 1 "a" ∈ GetRecent "general" 2
                 (store_all [note 2 "b"] (Store (note 1 "a") (MessageStore_new small_config))) ∧
  GetRecent "general" 2
    (store_all [note 2 "b"; note 3 "c"] (Store (note 1 "a") (MessageStore_new small_config)))
    `suffix_of` [note 2 "b"; note 3 "c"].
Proof.
  pose proof (store_getrecent_roundtrip (MessageStore_new small_config) (note 1 "a"))
    as (Hlast & _ & _ & Hkeep & Hgone).
  split; [|split].
  - apply Hlast; vm_compute; lia.
  - apply Hkeep; vm_compute; lia.
  - apply (Hgone [note 2 "b"; note 3 "c"] 2). vm_compute. lia.
Defined.

Lemma GetRecent_only_cached r n st m :
  bool_decide (m ∈ cache r st) = false → m ∉ GetRecent r n st.
Proof.
  intros Hb Hin. apply bool_decide_eq_false in Hb. apply Hb.
  rewrite GetRecent_lastn in Hin.
  exact (elem_of_sublist _ _ _ Hin (sublist_drop _ _)).
Qed.

(** With the default limit of 100, a message followed by exactly 100 later
    messages of its room (not more than the limit) is already gone. *)
Lemma retention_counterexample :
  length (in_room "general" hundred_later) = max_messages_per_room Config_default ∧
  ∀ n, note 0 "first" ∉
       GetRecent "general" n
         (store_all hundred_later
            (Store (note 0 "first") (MessageStore_new Config_default))).
Proof.
  split; [vm_compute; reflexivity|].
  intros n. apply GetRecent_only_cached. vm_compute. reflexivity.
Qed.

End MsgStoreFacts.

(* ===================================================================== *)
(** * Properties of the stream operations and of the dispatcher          *)
(* ===================================================================== *)

Module IStreamFacts.
Import Mach IStream.

Lemma app_String c s t : String c s +:+ t = String c (s +:+ t).
Proof. reflexivity. Qed.

Lemma append_assoc_s (a b c : string) : (a +:+ b) +:+ c = a +:+ (b +:+ c).
Proof.
  induction a as [|x a IH]; [done|].
  change (String x (a +:+ b) +:+ c = String x (a +:+ b +:+ c)).
  change (String x ((a +:+ b) +:+ c) = String x (a +:+ b +:+ c)). by f_equal.
Qed.

Lemma append_nil_r_s (a : string) : a +:+ "" = a.
Proof.
  induction a as [|x a IH]; [done|].
  change (String x (a +:+ "") = String x a). by f_equal.
Qed.

Lemma append_not_nil (a b : string) : b ≠ "" → a +:+ b ≠ "".
Proof. intros Hb. destruct a; [done|discriminate]. Qed.

Lemma take_word_app u c rest :
  all_chars (λ c, negb (isspace c)) u = true → isspace c = true →
  take_word (u +:+ String c rest) = (u, String c rest).
Proof.
  intros Hu Hc. induction u as [|a u IH]; simpl.
  - by rewrite Hc.
  - simpl in Hu. apply andb_true_iff in Hu as [Ha Hu].
    apply negb_true_iff in Ha. rewrite Ha, IH by done. done.
Qed.

Lemma take_word_end u :
  all_chars (λ c, negb (isspace c)) u = true → take_word u = (u, EmptyString).
Proof.
  intros Hu. induction u as [|a u IH]; simpl; [done|].
  simpl in Hu. apply andb_true_iff in Hu as [Ha Hu].
  apply negb_true_iff in Ha. rewrite Ha, IH by done. done.
Qed.

Lemma skipws_word u rest : is_word u → skipws (u +:+ rest) = u +:+ rest.
Proof.
  intros [Hne Hu]. destruct u as [|a u]; [done|]. simpl in *.
  apply andb_true_iff in Hu as [Ha _]. apply negb_true_iff in Ha. by rewrite Ha.
Qed.

Lemma split_line_single text :
  single_line text → split_line text = (text, EmptyString, false).
Proof.
  unfold single_line. induction text as [|a t IH]; simpl; [done|].
  intros [Ha Ht]%andb_true_iff. apply negb_true_iff in Ha.
  rewrite Ha, IH by done. done.
Qed.

(** [iss >> word] on a stream holding white space, a word, white space
    and more. *)
Lemma extract_string_word old u c rest :
  is_word u → isspace c = true →
  extract_string old {| buf := String " " (u +:+ String c rest); good := true |} =
  (u, {| buf := String c rest; good := true |}).
Proof.
  intros Hw Hc. unfold extract_string. cbn [good buf skipws isspace].
  rewrite skipws_word by done. destruct Hw as [Hne Hu].
  destruct u as [|a u]; [done|]. rewrite app_String.
  rewrite <- app_String. rewrite take_word_app by done.
  rewrite bool_decide_eq_false_2 by done. done.
Qed.

Lemma extract_string_last old u :
  is_word u →
  extract_string old {| buf := String " " u; good := true |} =
  (u, {| buf := EmptyString; good := false |}).
Proof.
  intros Hw. unfold extract_string. cbn [good buf skipws isspace].
  pose proof (skipws_word u EmptyString Hw) as Hs.
  assert (u +:+ "" = u) as Hnil.
  { clear. induction u as [|a u IH]; [done|]. change (String a u +:+ "") with (String a (u +:+ "")). by f_equal. }
  rewrite Hnil in Hs. rewrite Hs. destruct Hw as [Hne Hu].
  destruct u as [|a u]; [done|]. rewrite take_word_end by done.
  rewrite bool_decide_eq_true_2 by done. done.
Qed.

Lemma take_digits_numeral d :
  take_digits (DecimalString.NilEmpty.string_of_uint d) = (d, EmptyString).
Proof. induction d; simpl; rewrite ?IHd; reflexivity. Qed.

Lemma extract_int_digits old d :
  d ≠ Decimal.Nil →
  extract_int old {| buf := String " " (DecimalString.NilEmpty.string_of_uint d);
                     good := true |} =
  (saturate (Z.of_uint d), {| buf := EmptyString; good := false |}).
Proof.
  intros Hd. unfold extract_int. cbn [good buf skipws isspace].
  destruct d; try done;
    (cbn [DecimalString.NilEmpty.string_of_uint skipws isspace Ascii.eqb Bool.eqb
          take_digits digit_value];
     rewrite take_digits_numeral; cbn [bool_decide]; by rewrite andb_false_r).
Qed.

Lemma extract_int_neg_digits old d :
  d ≠ Decimal.Nil →
  extract_int old {| buf := String " " (String "-" (DecimalString.NilEmpty.string_of_uint d));
                     good := true |} =
  (saturate (- Z.of_uint d), {| buf := EmptyString; good := false |}).
Proof.
  intros Hd. unfold extract_int.
  cbn [good buf skipws isspace Ascii.eqb Bool.eqb].
  rewrite take_digits_numeral. destruct d; try done; by rewrite andb_false_r.
Qed.

(** [iss >> n] reads back the numeral [std::to_string] prints, up to the
    range of [int]. *)
Lemma extract_int_to_string old n :
  extract_int old {| buf := String " " (to_string n); good := true |} =
  (saturate n, {| buf := EmptyString; good := false |}).
Proof.
  pose proof (DecimalZ.of_to n) as Hn.
  unfold to_string. destruct n as [|p|p]; [reflexivity| |].
  - simpl in Hn. unfold DecimalString.NilZero.string_of_int, Z.to_int.
    pose proof (DecimalPos.Unsigned.to_uint_nonnil p) as Hnn.
    replace (DecimalString.NilZero.string_of_uint (Pos.to_uint p))
      with (DecimalString.NilEmpty.string_of_uint (Pos.to_uint p))
      by (by destruct (Pos.to_uint p)).
    rewrite extract_int_digits by done. by rewrite Hn.
  - simpl in Hn. unfold DecimalString.NilZero.string_of_int, Z.to_int.
    pose proof (DecimalPos.Unsigned.to_uint_nonnil p) as Hnn.
    replace (DecimalString.NilZero.string_of_uint (Pos.to_uint p))
      with (DecimalString.NilEmpty.string_of_uint (Pos.to_uint p))
      by (by destruct (Pos.to_uint p)).
    rewrite extract_int_neg_digits by done. by rewrite Hn.
Qed.

End IStreamFacts.

Module ServerFacts.
Import Mach IStream Server IStreamFacts Samples.
Local Open Scope list_scope.

Lemma not_elem_by_compute {A : Type} `{EqDecision A} (x : A) (l : list A) :
  bool_decide (x ∈ l) = false → x ∉ l.
Proof. apply bool_decide_eq_false. Qed.

Lemma find_by_name_elem user (l : list (Z * string)) u :
  (u, user) ∈ l → (find_by_name user l, user) ∈ l.
Proof.
  induction l as [|[k v] l IH]; intros Hin; [by apply elem_of_nil in Hin|].
  simpl. case_decide as Hv.
  - subst v. by left.
  - right. apply IH. apply elem_of_cons in Hin as [Heq|Hin]; [|done].
    by injection Heq as -> ->.
Qed.

Lemma Send_connected c msg w :
  c ∈ id <$> clients w →
  Send c msg w = (true, with_outbox (outbox w ++ [(c, msg)]) w).
Proof. intros Hc. unfold Send. by rewrite bool_decide_eq_true_2. Qed.

Lemma back_app a b : b ≠ EmptyString → back (a +:+ b) = back b.
Proof.
  intros Hb. induction a as [|c a IH]; [done|].
  change (String c a +:+ b) with (String c (a +:+ b)).
  cbn [back]. destruct (a +:+ b) eqn:Hab; [|done].
  destruct a; [|discriminate]. change ("" +:+ b) with b in Hab. congruence.
Qed.

Lemma back_single_line c t :
  c ≠ LF → single_line t → back (String c t) ≠ Some LF.
Proof.
  revert c. unfold single_line. induction t as [|a t IH]; intros c Hc Ht.
  - simpl. congruence.
  - simpl in Ht. apply andb_true_iff in Ht as [Ha Ht].
    apply negb_true_iff, Ascii.eqb_neq in Ha.
    change (back (String c (String a t))) with (back (String a t)). by apply IH.
Qed.

Lemma SendToClient_line c text w :
  c ∈ id <$> clients w → text ≠ EmptyString → back text ≠ Some LF →
  SendToClient c text w = (tt, with_outbox (outbox w ++ [(c, text +:+ nl)]) w).
Proof.
  intros Hc Hne Hb. unfold SendToClient.
  rewrite decide_False by done. rewrite decide_False by done.
  unfold bind, ret. by rewrite Send_connected.
Qed.

Ltac world_fields :=
  cbn [with_cm with_rooms with_store with_names with_clients with_outbox
       with_disconnect_queue advance
       g_connection_manager g_chat_rooms g_message_store g_client_names clients
       outbox disconnect_queue steady_clock system_clock elapse fst snd].

Lemma SendToClient_run c message w :
  message ≠ "" →
  SendToClient c message w =
  (tt, if bool_decide (c ∈ id <$> clients w)
       then with_outbox (outbox w ++ [(c, wire message)]) w
       else w).
Proof.
  intros Hne. unfold SendToClient, wire. rewrite decide_False by done.
  unfold bind, ret, Send. by case_bool_decide.
Qed.

Lemma with_outbox_twice a b w : with_outbox a (with_outbox b w) = with_outbox a w.
Proof. reflexivity. Qed.

Lemma with_outbox_same w : with_outbox (outbox w) w = w.
Proof. by destruct w. Qed.

Lemma names_valid_find user (l : list (Z * string)) u :
  (u, user) ∈ l → (∀ k v, (k, v) ∈ l → k ≠ -1) → find_by_name user l ≠ -1.
Proof.
  intros Hin Hall. apply (Hall _ user). by eapply find_by_name_elem.
Qed.

Lemma chat_world_names_valid :
  ∀ k v, (k, v) ∈ g_client_names chat_world → k ≠ -1 ∧ k ∈ id <$> clients chat_world.
Proof.
  intros k v Hin.
  assert ((k, v) ∈ [(1, "alice"); (2, "bob"); (3, "carol")]) as Hin' by exact Hin.
  clear Hin. rewrite !elem_of_cons in Hin'.
  destruct Hin' as [Heq|[Heq|[Heq|Hnil]]];
    [injection Heq as -> ->|injection Heq as -> ->|injection Heq as -> ->
    |by apply elem_of_nil in Hnil];
    (split; [done|vm_compute]).
  - left.
  - right. left.
  - right. right. left.
Qed.

Lemma split_line_first text more :
  single_line text → split_line (text +:+ String LF more) = (text, more, true).
Proof.
  unfold single_line. induction text as [|a t IH]; intros Ht.
  - reflexivity.
  - cbn [all_chars] in Ht. apply andb_true_iff in Ht as [Ha Ht].
    apply negb_true_iff in Ha. rewrite app_String. cbn [split_line].
    rewrite Ha, IH by done. done.
Qed.

(** The search loop stops at the first entry with the name. *)
Lemma find_by_name_first user (l : list (Z * string)) u :
  (u, user) ∈ l →
  ∃ pre post, l = pre ++ (find_by_name user l, user) :: post ∧
              ∀ k v, (k, v) ∈ pre → v ≠ user.
Proof.
  induction l as [|[k v] l IH]; intros Hin; [by apply elem_of_nil in Hin|].
  cbn [find_by_name]. case_decide as Hv.
  - subst v. exists [], l. split; [done|]. intros k' v' H'. by apply elem_of_nil in H'.
  - apply elem_of_cons in Hin as [Heq|Hin]; [by injection Heq as -> ->|].
    destruct (IH Hin) as (pre & post & Hl & Hpre).
    exists ((k, v) :: pre), post. split; [by rewrite Hl at 1|].
    intros k' v' [Heq|H']%elem_of_cons; [by injection Heq as -> ->|by eapply Hpre].
Qed.

Lemma wire_line (a : string) sep text :
  sep ≠ LF → single_line text →
  wire (a +:+ String sep text) = a +:+ String sep text +:+ nl.
Proof.
  intros Hsep Hl. unfold wire.
  rewrite decide_False; [by rewrite append_assoc_s|].
  rewrite back_app by done. by apply back_single_line.
Qed.

(** C4 (amended). A sender registered as [s] sends
    [#whisper <user><sep><text>], [sep] being one white-space character
    other than a line feed and [text] running to the end of the line
    (whatever follows a line feed is dropped), while some registered
    client is named [user].  The target is the first client registered
    under that name, in the registry's iteration order.  If it is in the
    transport's client table it is sent exactly the line
    [[Whisper from s]:<sep><text>], and the sender exactly
    [[Whisper to <user>]:<sep><text>]: the delivered text is what follows
    the user name INCLUDING the separator.  Nothing else is sent and
    nothing else changes; a target that is no longer connected gets
    nothing, and nobody gets its line. *)
Theorem whisper_delivery GetTimestampString (w : World) (c : Z)
    (s user text tail : string) (sep : ascii) (u : Z) :
  names_find c (g_client_names w) = Some s →
  (u, user) ∈ g_client_names w →
  (∀ k v, (k, v) ∈ g_client_names w → k ≠ -1) →
  is_word user → isspace sep = true → sep ≠ LF → single_line text →
  tail = "" ∨ (∃ more, tail = String LF more) →
  ∃ t pre post,
    g_client_names w = pre ++ (t, user) :: post ∧
    (∀ k v, (k, v) ∈ pre → v ≠ user) ∧
    ProcessCommand GetTimestampString c
      ("#whisper " +:+ user +:+ String sep text +:+ tail) w =
    (tt, with_outbox
           (outbox w ++
            (if bool_decide (t ∈ id <$> clients w)
             then [(t, "[Whisper from " +:+ s +:+ "]:" +:+ String sep text +:+ nl)]
             else []) ++
            (if bool_decide (c ∈ id <$> clients w)
             then [(c, "[Whisper to " +:+ user +:+ "]:" +:+ String sep text +:+ nl)]
             else [])) w).
Proof.
  intros Hs Hu Hids Hw Hsep HLF Hl Htail.
  destruct (find_by_name_first user _ u Hu) as (pre & post & Hnames & Hpre).
  pose proof (names_valid_find user _ u Hu Hids) as Hfound.
  exists (find_by_name user (g_client_names w)), pre, post.
  split; [done|]. split; [done|].
  set (t := find_by_name user (g_client_names w)) in *.
  unfold ProcessCommand. unfold bind at 1. unfold GetClientName at 1. rewrite Hs.
  cbv beta iota zeta.
  assert (extract_string ""
            (istringstream_new ("#whisper " +:+ user +:+ String sep text +:+ tail)) =
          ("#whisper",
           {| buf := String " " (user +:+ String sep (text +:+ tail)); good := true |}))
    as -> by reflexivity.
  cbv beta iota.
  do 7 (rewrite decide_False by discriminate).
  rewrite decide_True by reflexivity.
  rewrite extract_string_word by done.
  assert (∃ rest found, split_line (String sep (text +:+ tail)) =
                        (String sep text, rest, found)) as (rest & found & Hsplit).
  { cbn [split_line]. rewrite (proj2 (Ascii.eqb_neq sep LF) HLF).
    destruct Htail as [->|[more ->]].
    - rewrite append_nil_r_s, split_line_single by done. eauto.
    - rewrite split_line_first by done. eauto. }
  unfold getline. cbn [good buf]. rewrite Hsplit.
  rewrite decide_False by (destruct Hw as [Hw _]; intros [?|?]; done).
  unfold bind at 1. unfold lookup_target. fold t.
  rewrite decide_False by done.
  assert (∀ a : string, a +:+ String sep text ≠ "") as Hne
    by (intros a; by apply append_not_nil).
  assert (∀ a b : string, a +:+ b +:+ "]:" +:+ String sep text =
                          (a +:+ b +:+ "]:") +:+ String sep text) as Hassoc
    by (intros a b; by rewrite !append_assoc_s).
  unfold bind.
  rewrite !Hassoc.
  rewrite SendToClient_run by done.
  rewrite wire_line by done.
  destruct (bool_decide (t ∈ id <$> clients w)) eqn:Ht;
    rewrite SendToClient_run by done; rewrite wire_line by done;
    world_fields; destruct (bool_decide (c ∈ id <$> clients w)) eqn:Hc;
    world_fields; rewrite ?app_nil_r, ?with_outbox_same, <- ?app_assoc;
    rewrite ?append_assoc_s; try reflexivity.
Qed.

Lemma whisper_delivery_witness :
  ∃ t pre post,
    g_client_names chat_world = pre ++ (t, "bob") :: post ∧
    (∀ k v, (k, v) ∈ pre → v ≠ "bob") ∧
    ProcessCommand no_stamp 1
      ("#whisper " +:+ "bob" +:+ String " " "hello there" +:+ "") chat_world =
    (tt, with_outbox
           (outbox chat_world ++
            (if bool_decide (t ∈ id <$> clients chat_world)
             then [(t, "[Whisper from " +:+ "alice" +:+ "]:" +:+
                       String " " "hello there" +:+ nl)]
             else []) ++
            (if bool_decide (1 ∈ id <$> clients chat_world)
             then [(1, "[Whisper to " +:+ "bob" +:+ "]:" +:+
                       String " " "hello there" +:+ nl)]
             else [])) chat_world).
Proof.
  apply (whisper_delivery no_stamp chat_world 1 "alice" "bob" "hello there" ""
           " "%char 2).
  - vm_compute. reflexivity.
  - vm_compute. right. left.
  - intros k v Hin. by destruct (chat_world_names_valid k v Hin).
  - split; [done|vm_compute; reflexivity].
  - reflexivity.
  - discriminate.
  - vm_compute. reflexivity.
  - by left.
Defined.

(** The line the specification promises to bob, without the blank after
    the colon, is not what the server sends.  And a registered client
    named bob need not get anything: when a second client has taken the
    name and the first bob has been kicked, its disconnect callback still
    queued, the search resolves the first bob, and the second one, though
    registered and connected, gets no line. *)
Lemma whisper_counterexample :
  outbox (exec (ProcessCommand no_stamp 1 "#whisper bob hello there") chat_world) =
    outbox chat_world ++
      [(2, "[Whisper from alice]: hello there" +:+ nl);
       (1, "[Whisper to bob]: hello there" +:+ nl)] ∧
  ((2, "[Whisper from alice]:hello there" +:+ nl)
     ∉ outbox (exec (ProcessCommand no_stamp 1 "#whisper bob hello there") chat_world)) ∧
  (4, "bob") ∈ g_client_names two_bobs_world ∧
  4 ∈ id <$> clients two_bobs_world ∧
  outbox (exec (ProcessCommand no_stamp 1 "#whisper bob hello there") two_bobs_world) =
    outbox two_bobs_world ++ [(1, "[Whisper to bob]: hello there" +:+ nl)].
Proof.
  split; [vm_compute; reflexivity|]. split.
  { apply not_elem_by_compute. vm_compute. reflexivity. }
  split; [vm_compute; do 3 right; left|].
  split; [vm_compute; do 2 right; left|].
  vm_compute. reflexivity.
Qed.

Lemma SendToClient_keeps c m w :
  ∃ out, (SendToClient c m w).2 = with_outbox out w.
Proof.
  unfold SendToClient. case_decide.
  - exists (outbox w). by destruct w.
  - unfold bind, ret, Send. case_bool_decide.
    + eexists. reflexivity.
    + exists (outbox w). by destruct w.
Qed.

Lemma cm_Mute_run t d w :
  cm_Mute t d w =
  (tt, with_cm (ConnMgr.Mute (steady_clock w) t d (g_connection_manager w)) (advance w)).
Proof. reflexivity. Qed.

(** C3. [#mute <user>] without a seconds token mutes the resolved client
    for the default 60 seconds: the entry expires 60 s after the clock
    reading, it is not the permanent sentinel, the client counts as muted
    up to that instant and no longer afterwards. *)
Theorem mute_default_duration GetTimestampString (w : World) (c u : Z) (user : string) :
  is_word user →
  (u, user) ∈ g_client_names w →
  (∀ k v, (k, v) ∈ g_client_names w → k ≠ -1) →
  - 2 ^ 63 ≤ steady_clock w → steady_clock w + seconds 60 < time_point_max →
  ∃ t, (t, user) ∈ g_client_names w ∧
    ConnMgr.muted_clients
      (g_connection_manager
         (exec (ProcessCommand GetTimestampString c ("#mute " +:+ user)) w)) !! t
      = Some (steady_clock w + seconds 60) ∧
    steady_clock w + seconds 60 ≠ time_point_max ∧
    (∀ now, now ≤ steady_clock w + seconds 60 →
       (ConnMgr.IsMuted now t
          (g_connection_manager
             (exec (ProcessCommand GetTimestampString c ("#mute " +:+ user)) w))).1 = true) ∧
    (∀ now, steady_clock w + seconds 60 < now →
       (ConnMgr.IsMuted now t
          (g_connection_manager
             (exec (ProcessCommand GetTimestampString c ("#mute " +:+ user)) w))).1 = false).
Proof.
  intros Hw Hu Hvalid Hlo Hhi.
  pose proof (find_by_name_elem user _ u Hu) as Ht.
  pose proof (names_valid_find user _ u Hu Hvalid) as Hne.
  exists (find_by_name user (g_client_names w)). split; [done|].
  assert (ConnMgr.muted_clients
            (g_connection_manager
               (exec (ProcessCommand GetTimestampString c ("#mute " +:+ user)) w))
            !! find_by_name user (g_client_names w) = Some (steady_clock w + seconds 60))
    as Hentry.
  { unfold exec, ProcessCommand. unfold bind at 1.
    cbv beta iota zeta.
    destruct (GetClientName c w) as [nm w0] eqn:Hnm.
    assert (w0 = w) as -> by (unfold GetClientName in Hnm; congruence).
    assert (extract_string "" (istringstream_new ("#mute " +:+ user)) =
            ("#mute", {| buf := String " " user; good := true |})) as -> by reflexivity.
    cbv beta iota.
    do 11 (rewrite decide_False by discriminate).
    rewrite decide_True by reflexivity.
    rewrite extract_string_last by done.
    change (extract_int 60 {| buf := ""; good := false |})
      with (60, {| buf := ""; good := false |}).
    cbv beta iota. unfold bind at 1. unfold lookup_target.
    rewrite decide_True by done.
    unfold bind at 1. rewrite cm_Mute_run. unfold bind.
    match goal with |- context [SendToClient ?a ?m ?w1] =>
      destruct (SendToClient_keeps a m w1) as [o1 Ho1];
      destruct (SendToClient a m w1) as [[] w2] end.
    simpl in Ho1. subst w2.
    match goal with |- context [SendToClient ?a ?m ?w1] =>
      destruct (SendToClient_keeps a m w1) as [o2 Ho2];
      destruct (SendToClient a m w1) as [[] w3] end.
    simpl in Ho2. subst w3. cbn [snd with_outbox with_cm advance g_connection_manager].
    unfold ConnMgr.Mute. cbn [Z.eqb ConnMgr.with_muted_clients ConnMgr.muted_clients].
    rewrite lookup_insert_eq. unfold tp_add.
    rewrite ConnMgrFacts.wrap64_small
      by (unfold time_point_max, seconds, ticks_per_second in *; lia).
    done. }
  split; [done|]. split; [lia|]. split.
  - intros now Hnow. unfold ConnMgr.IsMuted. rewrite Hentry.
    destruct (Z.ltb_spec (steady_clock w + seconds 60) now); [lia|].
    by rewrite andb_false_r.
  - intros now Hnow. unfold ConnMgr.IsMuted. rewrite Hentry.
    rewrite bool_decide_eq_true_2 by lia.
    destruct (Z.ltb_spec (steady_clock w + seconds 60) now); [done|lia].
Qed.

Lemma mute_default_duration_witness :
  ∃ t, (t, "bob") ∈ g_client_names chat_world ∧
    ConnMgr.muted_clients
      (g_connection_manager
         (exec (ProcessCommand no_stamp 1 ("#mute " +:+ "bob")) chat_world)) !! t
      = Some (steady_clock chat_world + seconds 60).
Proof.
  destruct (mute_default_duration no_stamp chat_world 1 2 "bob") as (t & Ht & Hm & _).
  - split; [done|vm_compute; reflexivity].
  - vm_compute. right. left.
  - intros k v Hin. by destruct (chat_world_names_valid k v Hin).
  - vm_compute. discriminate.
  - vm_compute. reflexivity.
  - exists t. by split.
Defined.








(** C2, evaluated: bob is muted and sends a message.  The message is
    suppressed, but the line bob gets is the rate-limit line, because
    [AllowMessage] has already refused the muted client before the
    mute check of [HandleMessage] is reached. *)
Theorem muted_sender_reply :
  (ConnMgr.IsMuted (steady_clock muted_world) 2 (g_connection_manager muted_world)).1
    = true ∧
  outbox (exec (HandleMessage no_stamp 2 "hello") muted_world) =
    outbox muted_world ++
      [(2, "You are sending too many messages. Please slow down." +:+ nl)] ∧
  g_message_store (exec (HandleMessage no_stamp 2 "hello") muted_world) =
    g_message_store muted_world ∧
  (2, "You are muted." +:+ nl)
    ∉ outbox (exec (HandleMessage no_stamp 2 "hello") muted_world).
Proof.
  split; [vm_compute; reflexivity|]. split; [vm_compute; reflexivity|].
  split; [vm_compute; reflexivity|].
  apply not_elem_by_compute. vm_compute. reflexivity.
Qed.

End ServerFacts.

(* ===================================================================== *)
(** * Further properties: rooms                                          *)
(* ===================================================================== *)

Module ChatRoomMore.
Import ChatRoom Samples ChatRoomFacts.

(** CreateRoom refuses a taken name and changes nothing; otherwise it adds
    exactly one room, empty, with the given owner, privacy and password,
    and touches no membership. *)
Theorem CreateRoom_spec now nm owner priv pw st :
  (is_Some (rooms st !! nm) → CreateRoom now nm owner priv pw st = (false, st)) ∧
  (rooms st !! nm = None →
   ∃ st', CreateRoom now nm owner priv pw st = (true, st') ∧
     (∃ R, rooms st' !! nm = Some R ∧ members R = ∅ ∧ owner_id R = owner ∧
           is_private R = priv ∧ password R = pw ∧ topic R = "" ∧ name R = nm) ∧
     (∀ r, r ≠ nm → rooms st' !! r = rooms st !! r) ∧
     client_rooms st' = client_rooms st).
Proof.
  unfold CreateRoom. split.
  - intros [R ->]. done.
  - intros ->. eexists. split; [done|]. simpl. split; [|split; [|done]].
    + eexists. rewrite lookup_insert_eq. split; [done|]. by simpl.
    + intros r Hr. by rewrite lookup_insert_ne.
Qed.

Lemma CreateRoom_spec_witness :
  CreateRoom 3 "devs" 9 false "" sample_rooms = (false, sample_rooms) ∧
  ∃ st', CreateRoom 3 "ops" 9 true "pw" sample_rooms = (true, st') ∧
         client_rooms st' = client_rooms sample_rooms.
Proof.
  destruct (CreateRoom_spec 3 "devs" 9 false "" sample_rooms) as [Hrefuse _].
  destruct (CreateRoom_spec 3 "ops" 9 true "pw" sample_rooms) as [_ Hadd].
  split.
  - apply Hrefuse. vm_compute. eauto.
  - destruct Hadd as (st' & Heq & _ & _ & Hcl); [vm_compute; reflexivity|].
    exists st'. by split.
Defined.

(** JoinRoom refuses, changing nothing, an unknown room and a private room
    whose password differs; a public room ignores the password.  On success
    the client is recorded in the room, is a member of it, and has left the
    room it was recorded in before. *)
Theorem JoinRoom_spec nm c pw st :
  (rooms st !! nm = None → JoinRoom nm c pw st = (false, st)) ∧
  (∀ R, rooms st !! nm = Some R → is_private R = true → password R ≠ pw →
        JoinRoom nm c pw st = (false, st)) ∧
  (∀ R, rooms st !! nm = Some R → is_private R = false ∨ password R = pw →
     ∃ st', JoinRoom nm c pw st = (true, st') ∧
       client_rooms st' !! c = Some nm ∧
       (∃ R', rooms st' !! nm = Some R' ∧ c ∈ members R') ∧
       (∀ old Ro, client_rooms st !! c = Some old → old ≠ nm →
                  rooms st' !! old = Some Ro → c ∉ members Ro) ∧
       (∀ x, x ≠ c → client_rooms st' !! x = client_rooms st !! x)).
Proof.
  unfold JoinRoom. split; [|split].
  - by intros ->.
  - intros R -> Hp Hpw. rewrite Hp. by rewrite bool_decide_eq_true_2.
  - intros R HR Hok. rewrite HR.
    assert (is_private R && bool_decide (password R ≠ pw) = false) as ->.
    { destruct Hok as [->| ->]; [done|].
      rewrite bool_decide_eq_false_2; [by rewrite andb_false_r|]. by intros []. }
    eexists. split; [done|]. cbn [rooms client_rooms].
    split; [by rewrite lookup_insert_eq|]. split; [|split].
    + apply member_after_alter.
      assert (∃ R1, match client_rooms st !! c with
                    | Some cur => alter (set_members (λ m, m ∖ {[c]})) cur (rooms st)
                    | None => rooms st
                    end !! nm = Some R1) as [R1 HR1].
      { destruct (client_rooms st !! c) as [cur|]; [|by eauto].
        destruct (decide (cur = nm)) as [->|Hne].
        - rewrite lookup_alter_eq, HR. simpl. eauto.
        - rewrite lookup_alter_ne by done. eauto. }
      exists R1. split; [done|]. case_decide; [|done].
      apply elem_of_union_l. by apply elem_of_singleton.
    + intros old Ro Hold Hne. rewrite Hold. rewrite lookup_alter_ne by done.
      rewrite lookup_alter_eq. destruct (rooms st !! old) as [R0|]; [|done].
      simpl. intros [= <-]. simpl. intros Hin.
      apply elem_of_difference in Hin as [_ Hin]. apply Hin. by apply elem_of_singleton.
    + intros x Hx. by rewrite lookup_insert_ne.
Qed.

Lemma JoinRoom_spec_witness :
  JoinRoom "nowhere" 9 "" private_rooms = (false, private_rooms) ∧
  JoinRoom "vault" 9 "guess" private_rooms = (false, private_rooms) ∧
  ∃ st', JoinRoom "vault" 9 "s3cret" private_rooms = (true, st') ∧
         client_rooms st' !! 9 = Some "vault".
Proof.
  destruct (JoinRoom_spec "nowhere" 9 "" private_rooms) as (Hnone & _ & _).
  destruct (JoinRoom_spec "vault" 9 "guess" private_rooms) as (_ & Hbad & _).
  destruct (JoinRoom_spec "vault" 9 "s3cret" private_rooms) as (_ & _ & Hok).
  split; [apply Hnone; vm_compute; reflexivity|]. split.
  - eapply Hbad; [vm_compute; reflexivity|reflexivity|discriminate].
  - edestruct Hok as (st' & Heq & Hc & _); [vm_compute; reflexivity|by right|].
    exists st'. by split.
Defined.

(** SetTopic needs an existing room and a requester who is its owner or
    the administrator 0; a refusal changes nothing, a success changes the
    topic of that room and nothing else. *)
Theorem SetTopic_spec room_name t req st :
  (rooms st !! room_name = None → SetTopic room_name t req st = (false, st)) ∧
  (∀ R, rooms st !! room_name = Some R → owner_id R ≠ req → req ≠ 0 →
        SetTopic room_name t req st = (false, st)) ∧
  (∀ R, rooms st !! room_name = Some R → owner_id R = req ∨ req = 0 →
     ∃ st', SetTopic room_name t req st = (true, st') ∧
       (∃ R', rooms st' !! room_name = Some R' ∧ topic R' = t ∧
              members R' = members R ∧ owner_id R' = owner_id R ∧
              is_private R' = is_private R ∧ password R' = password R) ∧
       (∀ r, r ≠ room_name → rooms st' !! r = rooms st !! r) ∧
       client_rooms st' = client_rooms st).
Proof.
  unfold SetTopic. split; [|split].
  - by intros ->.
  - intros R -> Ho Hr. by rewrite !bool_decide_eq_true_2.
  - intros R -> Hauth.
    assert (bool_decide (owner_id R ≠ req) && bool_decide (req ≠ 0) = false) as ->.
    { destruct Hauth as [Ho|Hr].
      - rewrite (bool_decide_eq_false_2 (owner_id R ≠ req)); [done|]. by intros [].
      - rewrite (bool_decide_eq_false_2 (req ≠ 0)); [|by intros []].
        by rewrite andb_false_r. }
    eexists. split; [done|]. simpl. split; [|split; [|done]].
    + eexists. rewrite lookup_insert_eq. split; [done|]. by simpl.
    + intros r Hr. by rewrite lookup_insert_ne.
Qed.

Lemma SetTopic_spec_witness :
  SetTopic "devs" "hi" 8 sample_rooms = (false, sample_rooms) ∧
  ∃ st', SetTopic "devs" "hi" 7 sample_rooms = (true, st') ∧
         client_rooms st' = client_rooms sample_rooms.
Proof.
  destruct (SetTopic_spec "devs" "hi" 8 sample_rooms) as (_ & Hbad & _).
  destruct (SetTopic_spec "devs" "hi" 7 sample_rooms) as (_ & _ & Hok).
  split.
  - eapply Hbad; [vm_compute; reflexivity|by vm_compute|done].
  - edestruct Hok as (st' & Heq & _ & _ & Hcl); [vm_compute; reflexivity|by left|].
    exists st'. by split.
Defined.

(** ListRooms returns exactly the names of the public rooms, in ascending
    bytewise order and without repetition. *)
Theorem ListRooms_spec st :
  (∀ nm, nm ∈ ListRooms st ↔ public_room st nm) ∧
  StronglySorted String.le (ListRooms st) ∧
  NoDup (ListRooms st).
Proof.
  unfold ListRooms. change (λ a b : string, Is_true (String.leb a b)) with String.le.
  split; [|split].
  - intros nm. rewrite merge_sort_Permutation. rewrite list_elem_of_fmap. split.
    + intros ([k R] & -> & Hin). apply elem_of_map_to_list in Hin.
      apply map_lookup_filter_Some in Hin as [HR Hp]. simpl in *. by exists R.
    + intros (R & HR & Hp). exists (nm, R). split; [done|].
      apply elem_of_map_to_list. by apply map_lookup_filter_Some.
  - apply StronglySorted_merge_sort; apply _.
  - rewrite merge_sort_Permutation. apply NoDup_fst_map_to_list.
Qed.

(** LeaveRoom on a consistent manager takes the client out of every room
    and out of the client-to-room map, and leaves the other clients and
    the set of rooms as they were; for an unknown client it does nothing. *)
Theorem LeaveRoom_spec c st :
  Inv st →
  client_rooms (LeaveRoom c st) !! c = None ∧
  (∀ r R, rooms (LeaveRoom c st) !! r = Some R → c ∉ members R) ∧
  (∀ x, x ≠ c → client_rooms (LeaveRoom c st) !! x = client_rooms st !! x) ∧
  (∀ r, is_Some (rooms (LeaveRoom c st) !! r) ↔ is_Some (rooms st !! r)) ∧
  (client_rooms st !! c = None → LeaveRoom c st = st).
Proof.
  intros HI. pose proof (Inv_LeaveRoom c st HI) as [_ Hm'].
  unfold membership_agrees in Hm'.
  assert (client_rooms (LeaveRoom c st) !! c = None) as Hnone.
  { unfold LeaveRoom. destruct (client_rooms st !! c) as [cur|] eqn:Hc; simpl.
    - by rewrite lookup_delete_eq.
    - done. }
  split; [done|]. split; [|split; [|split]].
  - intros r R HR Hin.
    assert (client_rooms (LeaveRoom c st) !! c = Some r) as Hc by (apply Hm'; eauto).
    congruence.
  - intros x Hx. unfold LeaveRoom.
    destruct (client_rooms st !! c) as [cur|]; simpl; [|done].
    by rewrite lookup_delete_ne.
  - intros r. unfold LeaveRoom.
    destruct (client_rooms st !! c) as [cur|]; simpl; [|done].
    destruct (decide (cur = r)) as [->|Hne].
    + rewrite lookup_alter_eq. by rewrite fmap_is_Some.
    + by rewrite lookup_alter_ne.
  - unfold LeaveRoom. by intros ->.
Qed.

Lemma LeaveRoom_spec_witness :
  client_rooms (LeaveRoom 8 sample_rooms) !! 8 = None ∧
  (∀ r R, rooms (LeaveRoom 8 sample_rooms) !! r = Some R → 8 ∉ members R).
Proof.
  assert (Inv sample_rooms) as HI by (apply Inv_run, Inv_init).
  destruct (LeaveRoom_spec 8 sample_rooms HI) as (H1 & H2 & _).
  by split.
Defined.

(** On a consistent manager GetRoommates lists exactly the clients recorded
    in the caller's room (the caller included), and for a caller without a
    room exactly those recorded in general. *)
Theorem GetRoommates_spec c st :
  Inv st →
  (∀ r, client_rooms st !! c = Some r →
        c ∈ GetRoommates c st ∧
        ∀ x, x ∈ GetRoommates c st ↔ client_rooms st !! x = Some r) ∧
  (client_rooms st !! c = None →
   ∀ x, x ∈ GetRoommates c st ↔ client_rooms st !! x = Some "general") ∧
  NoDup (GetRoommates c st).
Proof.
  intros [[G HG] Hm]. unfold membership_agrees in Hm.
  assert (∀ r x, x ∈ GetRoomMembers r st ↔ client_rooms st !! x = Some r) as Hmem.
  { intros r x. unfold GetRoomMembers. rewrite Hm.
    destruct (rooms st !! r) as [R|].
    - rewrite elem_of_elements. split; [by eauto|]. by intros (R' & [= <-] & Hin).
    - split; [by intros ?%elem_of_nil|]. by intros (? & ? & _). }
  unfold GetRoommates. split; [|split].
  - intros r Hr. rewrite Hr. split; [by apply Hmem|]. intros x. apply Hmem.
  - intros Hnone. rewrite Hnone. intros x. apply Hmem.
  - assert (∀ r, NoDup (GetRoomMembers r st)) as Hnd.
    { intros r. unfold GetRoomMembers.
      destruct (rooms st !! r); [apply NoDup_elements|apply NoDup_nil_2]. }
    destruct (client_rooms st !! c); apply Hnd.
Qed.

Lemma GetRoommates_spec_witness :
  8 ∈ GetRoommates 8 sample_rooms ∧
  (∀ x, x ∈ GetRoommates 8 sample_rooms ↔ client_rooms sample_rooms !! x = Some "devs").
Proof.
  assert (Inv sample_rooms) as HI by (apply Inv_run, Inv_init).
  destruct (GetRoommates_spec 8 sample_rooms HI) as (H1 & _).
  apply (H1 "devs"). vm_compute. reflexivity.
Defined.

End ChatRoomMore.

(* ===================================================================== *)
(** * Further properties: connection manager                             *)
(* ===================================================================== *)

Module ConnMgrMore.
Import Mach ConnMgr Samples ConnMgrFacts.
Local Open Scope list_scope.

(** AllowConnection refuses a banned address and a full server without
    touching the state; otherwise it evicts the accept time stamps older
    than one second and admits the connection, recording its time stamp,
    exactly when fewer than max_connections_per_second remain. *)
Theorem AllowConnection_spec now ip cm :
  (ip ∈ banned_ips cm → AllowConnection now ip cm = (false, cm)) ∧
  (max_total_connections (config cm) ≤ current_connections cm →
   AllowConnection now ip cm = (false, cm)) ∧
  (ip ∉ banned_ips cm →
   current_connections cm < max_total_connections (config cm) →
   0 ≤ max_connections_per_second (config cm) ≤ INT_MAX →
   - 2 ^ 63 ≤ now - seconds 1 → now ≤ time_point_max →
   StronglySorted Z.le (connection_timestamps cm) →
   AllowConnection now ip cm =
   if bool_decide (Z.of_nat (length (recent_accepts now (connection_timestamps cm)))
                   < max_connections_per_second (config cm))
   then (true, with_connection_timestamps
                 (recent_accepts now (connection_timestamps cm) ++ [now]) cm)
   else (false, with_connection_timestamps
                  (recent_accepts now (connection_timestamps cm)) cm)).
Proof.
  unfold AllowConnection, IsBanned. split; [|split].
  - intros Hb. by rewrite bool_decide_eq_true_2.
  - intros Hfull. destruct (bool_decide (ip ∈ banned_ips cm)); [done|].
    destruct (Z.leb_spec (max_total_connections (config cm)) (current_connections cm));
      [done|lia].
  - intros Hb Hroom Hcfg Hlo Hhi Hsorted.
    rewrite bool_decide_eq_false_2 by done.
    destruct (Z.leb_spec (max_total_connections (config cm)) (current_connections cm));
      [lia|].
    rewrite to_size_t_small by (unfold INT_MAX in Hcfg; lia).
    unfold tp_sub. rewrite wrap64_small
      by (unfold time_point_max, seconds, ticks_per_second in *; lia).
    rewrite pop_expired_sorted by done.
    fold (recent_accepts now (connection_timestamps cm)).
    destruct (Z.leb_spec (max_connections_per_second (config cm))
                (Z.of_nat (length (recent_accepts now (connection_timestamps cm))))).
    + by rewrite bool_decide_eq_false_2 by lia.
    + by rewrite bool_decide_eq_true_2 by lia.
Qed.

(** Ban, IsBanned and Unban: a banned address is reported and refused by
    AllowConnection, Unban lifts the ban, and neither touches any other
    address. *)
Theorem ban_roundtrip ip cm :
  IsBanned ip (Ban ip cm) = true ∧
  (∀ now, AllowConnection now ip (Ban ip cm) = (false, Ban ip cm)) ∧
  IsBanned ip (Unban ip (Ban ip cm)) = false ∧
  (∀ other, other ≠ ip →
     IsBanned other (Ban ip cm) = IsBanned other cm ∧
     IsBanned other (Unban ip cm) = IsBanned other cm).
Proof.
  unfold IsBanned, Ban, Unban. simpl. split; [|split; [|split]].
  - apply bool_decide_eq_true_2. set_solver.
  - intros now. unfold AllowConnection, IsBanned. simpl.
    rewrite bool_decide_eq_true_2; [done|set_solver].
  - apply bool_decide_eq_false_2. set_solver.
  - intros other Hne. split; apply bool_decide_ext; set_solver.
Qed.

(** Mute, IsMuted and Unmute.  A mute of duration 0 holds at every later
    check and leaves the entry in place; a mute of d seconds holds up to
    and including the instant now + d and no longer; Unmute ends either;
    other clients are not affected. *)
Theorem mute_lifecycle c cm :
  (∀ t0 now, IsMuted now c (Mute t0 c 0 cm) = (true, Mute t0 c 0 cm)) ∧
  (∀ t0 d now, d ≠ 0 →
     - 2 ^ 63 ≤ t0 + seconds d < time_point_max →
     (IsMuted now c (Mute t0 c d cm)).1 = bool_decide (now ≤ t0 + seconds d)) ∧
  (∀ now, IsMuted now c (Unmute c cm) = (false, Unmute c cm)) ∧
  (∀ x t0 d now, x ≠ c →
     (IsMuted now x (Mute t0 c d cm)).1 = (IsMuted now x cm).1 ∧
     (IsMuted now x (Unmute c cm)).1 = (IsMuted now x cm).1).
Proof.
  split; [|split; [|split]].
  - intros t0 now. unfold IsMuted, Mute. simpl. rewrite lookup_insert_eq.
    by rewrite bool_decide_eq_false_2 by (by intros []).
  - intros t0 d now Hd Hrange. unfold IsMuted, Mute.
    destruct (Z.eqb_spec d 0) as [|_]; [done|]. simpl. rewrite lookup_insert_eq.
    unfold tp_add. rewrite wrap64_small by (unfold time_point_max in *; lia).
    rewrite bool_decide_eq_true_2 by lia.
    destruct (Z.ltb_spec (t0 + seconds d) now); simpl.
    + by rewrite bool_decide_eq_false_2 by lia.
    + by rewrite bool_decide_eq_true_2 by lia.
  - intros now. unfold IsMuted, Unmute. simpl. by rewrite lookup_delete_eq.
  - intros x t0 d now Hx. unfold IsMuted, Mute, Unmute. split.
    + destruct (d =? 0); simpl; rewrite lookup_insert_ne by done;
        destruct (muted_clients cm !! x) as [e|]; try done;
        by destruct (bool_decide (e ≠ time_point_max) && (e <? now)).
    + simpl. rewrite lookup_delete_ne by done.
      destruct (muted_clients cm !! x) as [e|]; try done;
        by destruct (bool_decide (e ≠ time_point_max) && (e <? now)).
Qed.

Lemma mute_lifecycle_witness :
  (IsMuted (seconds 30) 4 (Mute (seconds 10) 4 20 sample_cm)).1 = true ∧
  (IsMuted (seconds 31) 4 (Mute (seconds 10) 4 20 sample_cm)).1 = false.
Proof.
  destruct (mute_lifecycle 4 sample_cm) as (_ & Hd & _).
  split.
  - rewrite (Hd (seconds 10) 20 (seconds 30)); [by vm_compute|done|by vm_compute].
  - rewrite (Hd (seconds 10) 20 (seconds 31)); [by vm_compute|done|by vm_compute].
Defined.

Lemma CheckTimeouts_needs_activity now ids cm c :
  last_activity cm !! c = None → c ∉ CheckTimeouts now ids cm.
Proof.
  intros Hnone Hin. unfold CheckTimeouts in Hin.
  apply list_elem_of_In, filter_In in Hin as [_ Hc]. by rewrite Hnone in Hc.
Qed.

(** CheckTimeouts reports, in the order given, exactly the listed clients
    whose recorded last activity lies more than connection_timeout_seconds
    back; a client without a recorded activity is never reported. *)
Theorem CheckTimeouts_spec now ids cm :
  (∀ c, c ∈ CheckTimeouts now ids cm ↔
        c ∈ ids ∧ ∃ t, last_activity cm !! c = Some t ∧
                       seconds (connection_timeout_seconds (config cm)) < wrap64 (now - t)) ∧
  CheckTimeouts now ids cm `sublist_of` ids ∧
  (∀ c, last_activity cm !! c = None → c ∉ CheckTimeouts now ids cm).
Proof.
  assert (∀ c, c ∈ CheckTimeouts now ids cm ↔
        c ∈ ids ∧ ∃ t, last_activity cm !! c = Some t ∧
                       seconds (connection_timeout_seconds (config cm)) < wrap64 (now - t))
    as Hiff.
  { intros c. unfold CheckTimeouts. rewrite !list_elem_of_In, filter_In.
    split; intros [Hin Hc]; (split; [done|]).
    - destruct (last_activity cm !! c) as [t|]; [|done].
      exists t. split; [done|]. by apply Z.ltb_lt.
    - destruct Hc as (t & -> & Hlt). by apply Z.ltb_lt. }
  split; [done|]. split.
  - clear Hiff. unfold CheckTimeouts. induction ids as [|i ids IH]; simpl; [done|].
    destruct (match last_activity cm !! i with Some t => _ | None => false end).
    + by apply sublist_skip.
    + by apply sublist_cons.
  - intros c Hnone Hin. apply Hiff in Hin as (_ & t & Ht & _). congruence.
Qed.

Lemma IsMuted_last_activity now c cm :
  last_activity (IsMuted now c cm).2 = last_activity cm.
Proof.
  unfold IsMuted. destruct (muted_clients cm !! c) as [e|]; [|done].
  by destruct (bool_decide (e ≠ time_point_max) && (e <? now)).
Qed.

Lemma last_activity_step c o cm :
  refreshes c o = false → last_activity (cm_step cm o) !! c = last_activity cm !! c.
Proof.
  destruct o; simpl; intros Hr; try done.
  - unfold AllowConnection. repeat case_match; done.
  - unfold AllowMessage.
    pose proof (IsMuted_last_activity now_mute client cm) as Hm.
    destruct (IsMuted now_mute client cm) as [[] cm1]; simpl in *; by rewrite Hm.
  - apply bool_decide_eq_false in Hr. unfold RecordMessage, UpdateActivity. simpl.
    by rewrite lookup_insert_ne.
  - unfold Mute. by destruct (duration =? 0).
  - by rewrite IsMuted_last_activity.
  - apply bool_decide_eq_false in Hr. unfold UpdateActivity. simpl.
    by rewrite lookup_insert_ne.
  - unfold OnDisconnect. by case_match.
Qed.

(** A client for which no message was ever recorded (and whose activity
    was never refreshed) is never reported by CheckTimeouts, whatever else
    happened and however long ago it connected. *)
Theorem silent_client_never_times_out cfg ops c now ids :
  forallb (λ o, negb (refreshes c o)) ops = true →
  c ∉ CheckTimeouts now ids (cm_run ops (ConnectionManager_new cfg)).
Proof.
  intros Hops. apply CheckTimeouts_needs_activity.
  assert (∀ cm, last_activity cm !! c = None →
                last_activity (cm_run ops cm) !! c = None) as Hrun.
  { induction ops as [|o ops IH]; intros cm Hcm; [done|].
    simpl in Hops. apply andb_true_iff in Hops as [Ho Hops].
    apply negb_true_iff in Ho.
    change (cm_run (o :: ops) cm) with (cm_run ops (cm_step cm o)).
    apply IH; [done|]. by rewrite last_activity_step. }
  apply Hrun. done.
Qed.

Lemma silent_client_never_times_out_witness :
  5 ∉ CheckTimeouts (seconds 100000) [3; 5]
        (cm_run [CAllowConnection 0 "10.0.0.5"; COnConnect; CAllowMessage 1 1 5;
                 CRecordMessage 2 2 3; CMute 3 5 0]
                (ConnectionManager_new Config_default)).
Proof.
  apply silent_client_never_times_out. vm_compute. reflexivity.
Defined.

Lemma sorted_sublist (l1 l2 : list Z) :
  l1 `sublist_of` l2 → StronglySorted Z.le l2 → StronglySorted Z.le l1.
Proof.
  induction 1 as [|x l1 l2 Hsub IH|x l1 l2 Hsub IH]; intros Hs.
  - constructor.
  - apply StronglySorted_inv in Hs as [Hs Hall]. constructor; [by apply IH|].
    apply Forall_forall. intros y Hy.
    rewrite Forall_forall in Hall. apply Hall. by eapply elem_of_sublist.
  - apply StronglySorted_inv in Hs as [Hs _]. by apply IH.
Qed.

Lemma deque_step c o cm :
  default [] (client_messages (cm_step cm o) !! c) `sublist_of`
  default [] (client_messages cm !! c) ++ recorded_times [o].
Proof.
  destruct o; simpl; rewrite ?app_nil_r; try done.
  - unfold AllowConnection. by repeat case_match.
  - unfold AllowMessage.
    assert (client_messages (IsMuted now_mute client cm).2 = client_messages cm) as Hm.
    { unfold IsMuted. by repeat case_match. }
    destruct (IsMuted now_mute client cm) as [[] cm1]; simpl in *; rewrite Hm; [done|].
    destruct (decide (client = c)) as [->|Hne].
    + rewrite lookup_insert_eq. simpl. apply pop_expired_sublist.
    + by rewrite lookup_insert_ne.
  - unfold RecordMessage, UpdateActivity. simpl.
    destruct (decide (client = c)) as [->|Hne].
    + rewrite lookup_insert_eq. done.
    + rewrite lookup_insert_ne by done. by apply sublist_inserts_r.
  - unfold Mute. by destruct (duration =? 0).
  - unfold IsMuted. by repeat case_match.
  - unfold OnDisconnect. by case_match.
Qed.

Lemma deque_run c ops : ∀ cm rec0,
  default [] (client_messages cm !! c) `sublist_of` rec0 →
  default [] (client_messages (cm_run ops cm) !! c) `sublist_of`
    rec0 ++ recorded_times ops.
Proof.
  induction ops as [|o ops IH]; intros cm rec0 Hsub.
  - simpl. by rewrite app_nil_r.
  - change (cm_run (o :: ops) cm) with (cm_run ops (cm_step cm o)).
    replace (rec0 ++ recorded_times (o :: ops))
      with ((rec0 ++ recorded_times [o]) ++ recorded_times ops).
    + apply IH. etrans; [apply deque_step|]. by apply sublist_app.
    + rewrite <- app_assoc. f_equal. unfold recorded_times. simpl.
      by destruct o.
Qed.

(** When the readings taken by the successive RecordMessage calls never
    decrease (a monotonic clock), every per-client deque of message time
    stamps is in ascending order, whatever other calls are interleaved. *)
Theorem message_deques_ascending cfg ops c :
  StronglySorted Z.le (recorded_times ops) →
  StronglySorted Z.le
    (default [] (client_messages (cm_run ops (ConnectionManager_new cfg)) !! c)).
Proof.
  intros Hs. eapply sorted_sublist; [|exact Hs].
  apply (deque_run c ops (ConnectionManager_new cfg) []). simpl.
  rewrite lookup_empty. done.
Qed.

Lemma message_deques_ascending_witness :
  StronglySorted Z.le
    (default []
       (client_messages
          (cm_run [CRecordMessage 5 5 1; CAllowMessage 6 6 1; CRecordMessage 7 8 2;
                   CRecordMessage 9 9 1]
                  (ConnectionManager_new Config_default)) !! 1)).
Proof.
  apply message_deques_ascending. vm_compute.
  repeat constructor; discriminate.
Defined.

Lemma muted_none_step c o cm :
  mutes c o = false → muted_clients cm !! c = None →
  muted_clients (cm_step cm o) !! c = None.
Proof.
  intros Ho Hnone. destruct o as [now ip|t1 t2 k|t1 t2 k|ip|ip|now k d|k|now k|now k| |];
    cbn [cm_step mutes] in *.
  - unfold AllowConnection. by repeat case_match.
  - unfold AllowMessage, IsMuted.
    destruct (muted_clients cm !! k) as [e|] eqn:He; [|done].
    destruct (bool_decide (e ≠ time_point_max) && (e <? t1)); [|done].
    cbn [snd with_client_messages with_muted_clients muted_clients].
    destruct (decide (k = c)) as [->|Hne]; [by rewrite lookup_delete_eq|].
    by rewrite lookup_delete_ne.
  - done.
  - done.
  - done.
  - apply bool_decide_eq_false in Ho. unfold Mute.
    destruct (d =? 0); cbn [with_muted_clients muted_clients];
      by rewrite lookup_insert_ne.
  - unfold Unmute. cbn [with_muted_clients muted_clients].
    destruct (decide (k = c)) as [->|Hne]; [by rewrite lookup_delete_eq|].
    by rewrite lookup_delete_ne.
  - unfold IsMuted. destruct (muted_clients cm !! k) as [e|] eqn:He; [|done].
    destruct (bool_decide (e ≠ time_point_max) && (e <? now)); [|done].
    cbn [snd with_muted_clients muted_clients].
    destruct (decide (k = c)) as [->|Hne]; [by rewrite lookup_delete_eq|].
    by rewrite lookup_delete_ne.
  - done.
  - done.
  - unfold OnDisconnect. by destruct (0 <? current_connections cm).
Qed.

Lemma muted_none_run c ops : ∀ cm,
  forallb (λ o, negb (mutes c o)) ops = true → muted_clients cm !! c = None →
  muted_clients (cm_run ops cm) !! c = None.
Proof.
  induction ops as [|o ops IH]; intros cm Hops Hnone; [done|].
  cbn [forallb] in Hops. apply andb_true_iff in Hops as [Ho Hops].
  apply negb_true_iff in Ho.
  change (cm_run (o :: ops) cm) with (cm_run ops (cm_step cm o)).
  apply IH; [done|]. by apply muted_none_step.
Qed.

(** The mute test HandleMessage makes after admission.  The manager calls
    take and release their locks one by one, so calls of other workers can
    land between AllowMessage and the test.  Once AllowMessage has answered
    true for a client, IsMuted answers false for it after any calls that
    come in between (the RecordMessage of HandleMessage among them),
    whatever the clock readings, provided none of them is a Mute of that
    client.  When a Mute of the client does land in between and is in
    force at the test (no expiry, or an expiry not before the test's
    reading), IsMuted answers true. *)
Theorem mute_test_after_admission t1 t2 t5 c cm :
  (AllowMessage t1 t2 c cm).1 = true →
  (∀ ops, forallb (λ o, negb (mutes c o)) ops = true →
     (IsMuted t5 c (cm_run ops (AllowMessage t1 t2 c cm).2)).1 = false) ∧
  (∀ t3 t4,
     (IsMuted t5 c (RecordMessage t3 t4 c (AllowMessage t1 t2 c cm).2)).1 = false) ∧
  (∀ tm d t3 t4, d = 0 ∨ t5 ≤ tp_add tm (seconds d) →
     (IsMuted t5 c (RecordMessage t3 t4 c
                      (Mute tm c d (AllowMessage t1 t2 c cm).2))).1 = true).
Proof.
  intros Hok.
  assert (muted_clients (AllowMessage t1 t2 c cm).2 !! c = None) as Hnone.
  { revert Hok. unfold AllowMessage.
    destruct (IsMuted t1 c cm) as [muted cm1] eqn:Hm.
    destruct muted; [done|]. intros _.
    pose proof (IsMuted_false t1 c cm) as Hf. rewrite Hm in Hf.
    by destruct (Hf eq_refl) as (Hn & _ & _). }
  split_and!.
  - intros ops Hops. unfold IsMuted. by rewrite (muted_none_run c ops).
  - intros t3 t4. unfold IsMuted, RecordMessage. simpl. by rewrite Hnone.
  - intros tm d t3 t4 Hforce. unfold IsMuted, RecordMessage, Mute.
    destruct (Z.eqb_spec d 0) as [->|Hd];
      cbn [UpdateActivity with_last_activity with_client_messages with_muted_clients
           muted_clients]; rewrite lookup_insert_eq.
    + by rewrite bool_decide_eq_false_2 by (by intros []).
    + destruct Hforce as [->|Hle]; [done|].
      destruct (Z.ltb_spec (tp_add tm (seconds d)) t5); [lia|].
      by rewrite andb_false_r.
Qed.

Lemma mute_test_after_admission_witness :
  (IsMuted 9 3 (cm_run [CRecordMessage (seconds 102) (seconds 102) 3;
                         CMute (seconds 102) 4 30; CUnmute 3; COnDisconnect]
                  (AllowMessage (seconds 101) (seconds 101) 3 sample_cm).2)).1 = false ∧
  (IsMuted (seconds 103) 3
     (RecordMessage (seconds 102) (seconds 102) 3
        (Mute (seconds 102) 3 30
           (AllowMessage (seconds 101) (seconds 101) 3 sample_cm).2))).1 = true.
Proof.
  assert ((AllowMessage (seconds 101) (seconds 101) 3 sample_cm).1 = true) as Hok
    by (vm_compute; reflexivity).
  split.
  - apply (proj1 (mute_test_after_admission (seconds 101) (seconds 101) 9 3 sample_cm Hok)).
    vm_compute. reflexivity.
  - apply (proj2 (proj2 (mute_test_after_admission (seconds 101) (seconds 101)
                            (seconds 103) 3 sample_cm Hok))).
    right. vm_compute. discriminate.
Defined.

Lemma AllowConnection_spec_witness :
  AllowConnection (seconds 5) "10.0.0.9" sample_cm =
    (true, with_connection_timestamps [seconds 5] sample_cm) ∧
  AllowConnection (seconds 5) "10.0.0.9" (Ban "10.0.0.9" sample_cm) =
    (false, Ban "10.0.0.9" sample_cm).
Proof.
  destruct (AllowConnection_spec (seconds 5) "10.0.0.9" sample_cm) as (_ & _ & Hok).
  destruct (AllowConnection_spec (seconds 5) "10.0.0.9" (Ban "10.0.0.9" sample_cm))
    as (Hban & _).
  split.
  - rewrite Hok.
    + vm_compute. reflexivity.
    + vm_compute. set_solver.
    + vm_compute. reflexivity.
    + vm_compute. split; discriminate.
    + vm_compute. discriminate.
    + vm_compute. discriminate.
    + vm_compute. constructor.
  - apply Hban. vm_compute. set_solver.
Defined.

End ConnMgrMore.

(* ===================================================================== *)
(** * Further properties: message store                                  *)
(* ===================================================================== *)

Module MsgStoreMore.
Import MsgStore Samples MsgStoreFacts.
Local Open Scope nat_scope.
Local Open Scope list_scope.

Lemma search_in_room_take lq k msgs : ∀ result,
  length result ≤ k →
  search_in_room lq k msgs result =
  result ++ take (k - length result)
              (List.filter (λ m, contains lq (lower (content m))) msgs).
Proof.
  induction msgs as [|m msgs IH]; intros result Hlen.
  - simpl. by rewrite take_nil, app_nil_r.
  - cbn [search_in_room List.filter].
    destruct (Nat.leb_spec k (length result)) as [Hfull|Hroom].
    + replace (k - length result) with 0 by lia. by rewrite app_nil_r.
    + destruct (contains lq (lower (content m))).
      * rewrite IH by (rewrite length_app; simpl; lia).
        rewrite length_app. simpl.
        replace (k - length result) with (S (k - (length result + 1))) by lia.
        simpl. by rewrite <- app_assoc.
      * by apply IH.
Qed.

Lemma search_rooms_take lq k ds : ∀ result,
  length result ≤ k →
  search_rooms lq k ds result =
  result ++ take (k - length result)
              (List.filter (λ m, contains lq (lower (content m))) (concat ds)).
Proof.
  induction ds as [|d ds IH]; intros result Hlen.
  - simpl. by rewrite take_nil, app_nil_r.
  - cbn [search_rooms concat]. rewrite search_in_room_take by done.
    rewrite List.filter_app.
    set (fd := List.filter (λ m, contains lq (lower (content m))) d).
    set (fr := List.filter (λ m, contains lq (lower (content m))) (concat ds)).
    destruct (Nat.leb_spec k (length (result ++ take (k - length result) fd)))
      as [Hfull|Hroom].
    + rewrite length_app, length_take in Hfull.
      rewrite take_app_le by lia. done.
    + rewrite length_app, length_take in Hroom.
      rewrite IH by (rewrite length_app, length_take; lia).
      rewrite length_app, length_take.
      rewrite (take_ge fd) by lia.
      rewrite <- app_assoc. f_equal.
      rewrite take_app_ge by lia. f_equal. f_equal. lia.
Qed.

Lemma is_prefix_spec p s : is_prefix p s = true ↔ ∃ post, s = p +:+ post.
Proof.
  revert s. induction p as [|a p IH]; intros s; simpl.
  - split; [by eauto|done].
  - destruct s as [|b s].
    + split; [done|]. intros (post & Heq). discriminate.
    + rewrite andb_true_iff, IH, Ascii.eqb_eq. split.
      * intros (-> & post & ->). by exists post.
      * intros (post & Heq). injection Heq as -> ->. eauto.
Qed.

Lemma contains_spec needle hay :
  contains needle hay = true ↔ ∃ pre post, hay = pre +:+ needle +:+ post.
Proof.
  induction hay as [|b hay IH]; simpl.
  - rewrite orb_false_r, is_prefix_spec. split.
    + intros (post & ->). by exists "", post.
    + intros (pre & post & Heq). destruct pre; [by eauto|discriminate].
  - rewrite orb_true_iff, is_prefix_spec, IH. split.
    + intros [(post & ->)|(pre & post & ->)].
      * by exists "", post.
      * by exists (String b pre), post.
    + intros (pre & post & Heq). destruct pre as [|c pre].
      * left. by exists post.
      * right. injection Heq as -> ->. by exists pre, post.
Qed.

(** Search returns, in cache order, the first max_results messages whose
    lowered content contains the lowered query: from the named room, or
    from all rooms when the room name is empty; an unknown room gives
    nothing, and the empty query matches every message. *)
Theorem Search_spec query r k st :
  (r ≠ "" →
   Search query r k st = take k (List.filter (matches query) (cache r st))) ∧
  Search query "" k st = take k (List.filter (matches query) (concat (deques st))) ∧
  length (Search query r k st) ≤ k ∧
  (∀ m, matches query m = true ↔
        ∃ pre post, lower (content m) = pre +:+ lower query +:+ post) ∧
  (∀ m, matches "" m = true).
Proof.
  assert (r ≠ "" →
          Search query r k st = take k (List.filter (matches query) (cache r st))) as H1.
  { intros Hr. unfold Search, cache. rewrite decide_True by done.
    destruct (room_messages st !! r) as [d|]; simpl.
    - rewrite search_in_room_take by (simpl; lia). simpl. f_equal. lia.
    - by rewrite take_nil. }
  assert (∀ q, Search q "" k st =
               take k (List.filter (matches q) (concat (deques st)))) as H2.
  { intros q. unfold Search. rewrite decide_False by (by intros []).
    rewrite search_rooms_take by (simpl; lia). simpl. f_equal. lia. }
  split; [done|]. split; [done|]. split; [|split].
  - destruct (decide (r = "")) as [->|Hr].
    + rewrite H2, length_take. lia.
    + rewrite H1 by done. rewrite length_take. lia.
  - intros m. unfold matches. apply contains_spec.
  - intros m. unfold matches. simpl. by destruct (lower (content m)).
Qed.

Lemma by_sender_scan_take sender count msgs : ∀ result,
  length result < count `max` 1 →
  by_sender_scan sender count msgs result =
  let found := List.filter (λ m, bool_decide (sender_id m = sender)) msgs in
  if decide (length result + length found < count `max` 1)
  then (result ++ found, false)
  else (result ++ take (count `max` 1 - length result) found, true).
Proof.
  induction msgs as [|m msgs IH]; intros result Hlen.
  - simpl. rewrite decide_True by lia. by rewrite app_nil_r.
  - cbn [by_sender_scan List.filter]. cbv zeta.
    destruct (decide (sender_id m = sender)) as [Hm|Hm].
    + rewrite bool_decide_eq_true_2 by done. cbn [length].
      destruct (Nat.leb_spec count (length (result ++ [m]))) as [Hfull|Hroom];
        rewrite length_app in *; simpl in *.
      * rewrite decide_False by lia.
        replace (count `max` 1 - length result) with 1 by lia. done.
      * rewrite IH by (rewrite length_app; simpl; lia). cbv zeta.
        rewrite length_app. simpl.
        destruct (decide (length result + 1 +
                          length (List.filter (λ m0, bool_decide (sender_id m0 = sender)) msgs)
                          < count `max` 1)) as [Hlt|Hge].
        -- rewrite decide_True by lia. by rewrite <- app_assoc.
        -- rewrite decide_False by lia. rewrite <- app_assoc. simpl.
           replace (count `max` 1 - length result)
             with (S (count `max` 1 - (length result + 1))) by lia.
           done.
    + rewrite bool_decide_eq_false_2 by done. by apply IH.
Qed.

Lemma by_sender_rooms_take sender count ds : ∀ result,
  length result < count `max` 1 →
  by_sender_rooms sender count ds result =
  result ++ take (count `max` 1 - length result)
              (List.filter (λ m, bool_decide (sender_id m = sender)) (concat ds)).
Proof.
  induction ds as [|d ds IH]; intros result Hlen.
  - simpl. by rewrite take_nil, app_nil_r.
  - cbn [by_sender_rooms concat]. rewrite by_sender_scan_take by done. cbv zeta.
    rewrite List.filter_app.
    set (fd := List.filter (λ m, bool_decide (sender_id m = sender)) d).
    set (fr := List.filter (λ m, bool_decide (sender_id m = sender)) (concat ds)).
    case_decide as Hlt.
    + rewrite IH by (rewrite length_app; lia). rewrite length_app.
      rewrite <- app_assoc. f_equal. rewrite take_app_ge by lia.
      f_equal. f_equal. lia.
    + rewrite take_app_le by lia. done.
Qed.

(** GetBySender returns, in cache order, the first messages of the sender;
    because the size is tested after each push it returns up to
    max(count, 1) of them: a count of 0 still yields one message when the
    sender has any. *)
Theorem GetBySender_spec sender count st :
  GetBySender sender count st =
    take (count `max` 1)
         (List.filter (λ m, bool_decide (sender_id m = sender)) (concat (deques st))) ∧
  (∀ m, m ∈ GetBySender sender count st → sender_id m = sender) ∧
  length (GetBySender sender count st) ≤ count `max` 1 ∧
  ((∃ m, m ∈ concat (deques st) ∧ sender_id m = sender) →
   length (GetBySender sender 0 st) = 1).
Proof.
  assert (∀ n, GetBySender sender n st =
    take (n `max` 1)
         (List.filter (λ m, bool_decide (sender_id m = sender)) (concat (deques st))))
    as Heq.
  { intros n. unfold GetBySender. rewrite by_sender_rooms_take by (simpl; lia).
    simpl. f_equal. lia. }
  split; [done|]. split; [|split].
  - intros m Hin. rewrite Heq in Hin.
    apply (λ H, elem_of_sublist _ _ _ H (sublist_take _ _)) in Hin.
    apply list_elem_of_In, filter_In in Hin as [_ Hm].
    by apply bool_decide_eq_true in Hm.
  - rewrite Heq, length_take. lia.
  - intros (m & Hin & Hm). rewrite Heq, length_take. simpl.
    assert (m ∈ List.filter (λ m, bool_decide (sender_id m = sender)) (concat (deques st)))
      as Hf.
    { apply list_elem_of_In, filter_In. split; [by apply list_elem_of_In|].
      by apply bool_decide_eq_true. }
    destruct (List.filter _ _); [by apply elem_of_nil in Hf|]. simpl. lia.
Qed.

Lemma GetBySender_spec_witness :
  length (GetBySender 1 0
            (store_all [note 1 "a"; note 2 "b"] (MessageStore_new small_config))) = 1.
Proof.
  apply (proj2 (proj2 (proj2 (GetBySender_spec 1 0
           (store_all [note 1 "a"; note 2 "b"] (MessageStore_new small_config)))))).
  exists (note 2 "b"). split; [|done].
  vm_compute. right. left.
Defined.

Lemma total_of_delete (m : gmap string (list ChatMessage)) r d :
  m !! r = Some d → total_of m = total_of (delete r m) + length d.
Proof.
  intros Hr. unfold total_of.
  rewrite (map_fold_delete_L _ 0 r d m); [done| |done]. intros. lia.
Qed.

Lemma total_of_insert (m : gmap string (list ChatMessage)) r d :
  total_of (<[r:=d]> m) + length (default [] (m !! r)) = total_of m + length d.
Proof.
  rewrite (total_of_delete (<[r:=d]> m) r d) by apply lookup_insert_eq.
  rewrite delete_insert_eq.
  destruct (m !! r) as [d0|] eqn:Hr; simpl.
  - rewrite (total_of_delete m r d0) by done. lia.
  - rewrite delete_id by done. lia.
Qed.

Lemma total_of_bound (limit : nat) (m : gmap string (list ChatMessage)) :
  (∀ r d, m !! r = Some d → length d ≤ limit) → total_of m ≤ limit * size m.
Proof.
  unfold total_of.
  apply (map_fold_weak_ind
           (λ t m, (∀ r d, m !! r = Some d → length d ≤ limit) → t ≤ limit * size m)).
  - intros _. lia.
  - intros r d m' t Hnone IH Hall.
    rewrite map_size_insert_None by done.
    assert (length d ≤ limit) by (apply (Hall r); apply lookup_insert_eq).
    assert (t ≤ limit * size m').
    { apply IH. intros r' d' Hr'. apply (Hall r').
      rewrite lookup_insert_ne; [done|]. intros ->. congruence. }
    lia.
Qed.

(** GetTotalCount is 0 for a new store and after Clear of everything; a
    Store raises it by one unless the room's queue is already full; Clear
    of one room empties that room only and lowers the total by its
    length. *)
Theorem GetTotalCount_spec st :
  (∀ cfg, GetTotalCount (MessageStore_new cfg) = 0) ∧
  GetTotalCount (Clear "" st) = 0 ∧
  (∀ m, GetTotalCount (Store m st) + length (cache (room m) st) =
        GetTotalCount st +
        max_messages_per_room (config st) `min` (length (cache (room m) st) + 1)) ∧
  (∀ r, r ≠ "" →
        cache r (Clear r st) = [] ∧
        (∀ r', r' ≠ r → cache r' (Clear r st) = cache r' st) ∧
        GetTotalCount (Clear r st) + length (cache r st) = GetTotalCount st).
Proof.
  split; [|split; [|split]].
  - intros cfg. unfold GetTotalCount. simpl. apply map_fold_empty.
  - unfold GetTotalCount, Clear. simpl. apply map_fold_empty.
  - intros m. unfold GetTotalCount, Store. cbn [room_messages].
    fold (total_of (<[room m := trim_front (max_messages_per_room (config st))
                                  (default [] (room_messages st !! room m) ++ [m])]>
                      (room_messages st))).
    fold (total_of (room_messages st)). unfold cache.
    pose proof (total_of_insert (room_messages st) (room m)
                  (trim_front (max_messages_per_room (config st))
                     (default [] (room_messages st !! room m) ++ [m]))) as Ht.
    rewrite trim_front_lastn, lastn_length, length_app in *. simpl in *. lia.
  - intros r Hr. unfold cache, Clear, GetTotalCount. cbn [room_messages].
    rewrite decide_False by done. split; [|split].
    + by rewrite lookup_delete_eq.
    + intros r' Hr'. by rewrite lookup_delete_ne.
    + fold (total_of (delete r (room_messages st))). fold (total_of (room_messages st)).
      destruct (room_messages st !! r) as [d|] eqn:Hd; simpl.
      * rewrite (total_of_delete (room_messages st) r d) by done. lia.
      * rewrite delete_id by done. lia.
Qed.

(** Resource bound: a room's queue never holds more than
    max_messages_per_room messages after a Store into it, and a store
    filled by Store calls alone caches at most max_messages_per_room
    messages per room in total. *)
Theorem cache_never_exceeds_limit :
  (∀ m st, length (cache (room m) (Store m st)) ≤ max_messages_per_room (config st)) ∧
  (∀ cfg ms r,
     length (cache r (store_all ms (MessageStore_new cfg))) ≤ max_messages_per_room cfg) ∧
  (∀ cfg ms,
     GetTotalCount (store_all ms (MessageStore_new cfg)) ≤
     max_messages_per_room cfg *
       size (room_messages (store_all ms (MessageStore_new cfg)))).
Proof.
  assert (∀ cfg ms r,
     length (cache r (store_all ms (MessageStore_new cfg))) ≤ max_messages_per_room cfg)
    as Hall.
  { intros cfg ms r. rewrite cache_store_all.
    change (config (MessageStore_new cfg)) with cfg.
    destruct (in_room r ms) as [|x f].
    - unfold cache. simpl. rewrite lookup_empty. simpl. lia.
    - rewrite lastn_length. lia. }
  split; [|split; [done|]].
  - intros m st. rewrite cache_Store, decide_True by done. rewrite lastn_length. lia.
  - intros cfg ms. unfold GetTotalCount. apply (total_of_bound (max_messages_per_room cfg)).
    intros r d Hr. specialize (Hall cfg ms r). unfold cache in Hall.
    by rewrite Hr in Hall.
Qed.

End MsgStoreMore.

(* ===================================================================== *)
(** * Further properties: the dispatcher                                 *)
(* ===================================================================== *)

Module ServerMore.
Import Mach IStream Server IStreamFacts ServerFacts Samples.
Local Open Scope list_scope.

(** The member loops of the dispatcher. *)
Lemma for_each_others (c : Z) (message : string) (members : list Z) : ∀ w,
  message ≠ "" →
  for_each members (λ m, if decide (m ≠ c) then SendToClient m message
                         else ret tt) w =
  (tt, with_outbox (outbox w ++ fanout w (Some c) members message) w).
Proof.
  unfold fanout.
  induction members as [|m members IH]; intros w Hne.
  - simpl. unfold ret. by rewrite app_nil_r, with_outbox_same.
  - cbn [for_each List.filter]. unfold bind. case_decide as Hm.
    + rewrite SendToClient_run by done.
      rewrite (bool_decide_eq_false_2 (Some m = Some c)) by congruence.
      cbn [negb andb]. case_bool_decide as Hc.
      * rewrite IH by done. unfold with_outbox.
        cbn [outbox clients g_connection_manager g_chat_rooms g_message_store
             g_client_names disconnect_queue steady_clock system_clock elapse
             fmap list_fmap].
        by rewrite <- app_assoc.
      * by rewrite IH.
    + unfold ret. rewrite IH by done.
      by rewrite (bool_decide_eq_true_2 (Some m = Some c)) by congruence.
Qed.

Lemma for_each_all (message : string) (members : list Z) : ∀ w,
  message ≠ "" →
  for_each members (λ m, SendToClient m message) w =
  (tt, with_outbox (outbox w ++ fanout w None members message) w).
Proof.
  unfold fanout.
  induction members as [|m members IH]; intros w Hne.
  - simpl. unfold ret. by rewrite app_nil_r, with_outbox_same.
  - cbn [for_each List.filter]. unfold bind.
    rewrite SendToClient_run by done.
    rewrite (bool_decide_eq_false_2 (Some m = None)) by done.
    cbn [negb andb]. case_bool_decide as Hc.
    + rewrite IH by done. unfold with_outbox.
      cbn [outbox clients g_connection_manager g_chat_rooms g_message_store
           g_client_names disconnect_queue steady_clock system_clock elapse
           fmap list_fmap].
      by rewrite <- app_assoc.
    + by rewrite IH.
Qed.

Lemma fanout_skips w c members message :
  ∀ k line, (k, line) ∈ fanout w (Some c) members message →
    k ≠ c ∧ k ∈ members ∧ k ∈ id <$> clients w ∧ line = wire message.
Proof.
  intros k line Hin. unfold fanout in Hin.
  apply list_elem_of_fmap in Hin as (m & [= -> ->] & Hm).
  apply list_elem_of_In, filter_In in Hm as [Hm Hcond].
  apply andb_true_iff in Hcond as [Hs Hc].
  apply negb_true_iff, bool_decide_eq_false in Hs. apply bool_decide_eq_true in Hc.
  repeat split; try done.
  - intros ->. by apply Hs.
  - by apply list_elem_of_In.
Qed.

(** ** Trimming *)

Lemma trim_line_end_split s :
  ∃ tail, s = trim_line_end s +:+ tail ∧ all_chars is_line_end tail = true.
Proof.
  induction s as [|c s (tail & Hs & Ht)].
  - by exists "".
  - cbn [trim_line_end]. destruct (trim_line_end s) as [|b t] eqn:Htrim.
    + destruct (is_line_end c) eqn:Hc.
      * exists (String c s). split; [done|]. simpl. rewrite Hc. simpl.
        change ("" +:+ tail) with tail in Hs. by rewrite Hs.
      * exists tail. split; [|done]. rewrite Hs. done.
    + exists tail. split; [|done]. rewrite Hs at 1. done.
Qed.

Lemma trim_line_end_back s c :
  back (trim_line_end s) = Some c → is_line_end c = false.
Proof.
  induction s as [|a s IH]; [done|].
  cbn [trim_line_end]. destruct (trim_line_end s) as [|b t] eqn:Htrim.
  - destruct (is_line_end a) eqn:Ha; [done|]. simpl. by intros [= <-].
  - change (back (String a (String b t))) with (back (String b t)). apply IH.
Qed.

Lemma trim_line_end_only s :
  all_chars is_line_end s = true → trim_line_end s = "".
Proof.
  induction s as [|a s IH]; [done|]. simpl.
  intros [Ha Hs]%andb_true_iff. rewrite IH by done. by rewrite Ha.
Qed.

Lemma trim_line_end_fixed s c :
  back s = Some c → is_line_end c = false → trim_line_end s = s.
Proof.
  induction s as [|a s IH]; [done|]. intros Hb Hc.
  cbn [trim_line_end]. destruct s as [|b t].
  - simpl in *. injection Hb as ->. by rewrite Hc.
  - change (back (String a (String b t))) with (back (String b t)) in Hb.
    rewrite IH by done. done.
Qed.

(** The trimming at the head of HandleMessage removes exactly the trailing
    run of line feeds, carriage returns and NUL bytes: the chunk is the
    result followed by such bytes only, the result does not end in one, and
    a chunk made of such bytes only becomes empty. *)
Theorem trim_line_end_spec s :
  (∃ tail, s = trim_line_end s +:+ tail ∧ all_chars is_line_end tail = true) ∧
  (∀ c, back (trim_line_end s) = Some c → is_line_end c = false) ∧
  (all_chars is_line_end s = true ↔ trim_line_end s = "") ∧
  trim_line_end (trim_line_end s) = trim_line_end s.
Proof.
  split; [apply trim_line_end_split|]. split; [apply trim_line_end_back|]. split.
  - split; [apply trim_line_end_only|]. intros Hempty.
    destruct (trim_line_end_split s) as (tail & Hs & Ht).
    rewrite Hempty in Hs. change ("" +:+ tail) with tail in Hs. by rewrite Hs.
  - destruct (back (trim_line_end s)) as [c|] eqn:Hb.
    + eapply trim_line_end_fixed; [done|]. by eapply trim_line_end_back.
    + destruct (trim_line_end s) as [|a t]; [done|].
      exfalso. clear -Hb. revert a Hb. induction t as [|b t IH]; intros a Hb; [done|].
      change (back (String a (String b t))) with (back (String b t)) in Hb. by eapply IH.
Qed.

(** An empty chunk, or one of line ends only, is dropped by HandleMessage:
    nothing is sent, stored, recorded, and no clock is read. *)
Theorem empty_chunk_dropped GetTimestampString c chunk w :
  all_chars is_line_end chunk = true →
  HandleMessage GetTimestampString c chunk w = (tt, w).
Proof.
  intros Hchunk. unfold HandleMessage. cbv zeta.
  rewrite trim_line_end_only by done. by rewrite decide_True.
Qed.

Lemma empty_chunk_dropped_witness :
  HandleMessage no_stamp 2 (String CR (String LF "")) chat_world = (tt, chat_world).
Proof. apply empty_chunk_dropped. reflexivity. Defined.

(** ** Admission *)

Lemma admission_not_muted c w :
  (cm_AllowMessage c w).1 = true →
  (cm_IsMuted c (cm_RecordMessage c (cm_AllowMessage c w).2).2).1 = false.
Proof.
  unfold cm_AllowMessage, cm_RecordMessage, cm_IsMuted, bind, steady_now.
  world_fields.
  pose proof (ConnMgrFacts.mute_check_after_admission
                (steady_clock w) (steady_clock w + Z.of_N (hd 0%N (elapse w)))
                (steady_clock w + Z.of_N (hd 0%N (elapse w))
                   + Z.of_N (hd 0%N (tl (elapse w))))
                (steady_clock w + Z.of_N (hd 0%N (elapse w))
                   + Z.of_N (hd 0%N (tl (elapse w)))
                   + Z.of_N (hd 0%N (tl (tl (elapse w)))))
                (steady_clock w + Z.of_N (hd 0%N (elapse w))
                   + Z.of_N (hd 0%N (tl (elapse w)))
                   + Z.of_N (hd 0%N (tl (tl (elapse w))))
                   + Z.of_N (hd 0%N (tl (tl (tl (elapse w))))))
                c (g_connection_manager w)) as Hdead.
  destruct (ConnMgr.AllowMessage _ _ c (g_connection_manager w)) as [b cm1].
  world_fields. intros Hb. simpl in Hb. subst b. specialize (Hdead eq_refl).
  simpl in Hdead.
  destruct (ConnMgr.IsMuted _ c _) as [b2 cm2]. simpl in *. done.
Qed.

Lemma admission_run c w :
  exec (admission c) w =
  (cm_IsMuted c (cm_RecordMessage c (cm_AllowMessage c w).2).2).2.
Proof.
  unfold exec, admission, bind, ret.
  destruct (cm_AllowMessage c w) as [a w2]. cbn [snd].
  destruct (cm_RecordMessage c w2) as [[] w3]. cbn [snd].
  by destruct (cm_IsMuted c w3) as [m w4].
Qed.

Lemma HandleMessage_admitted GetTimestampString c chunk w :
  trim_line_end chunk ≠ "" → (cm_AllowMessage c w).1 = true →
  HandleMessage GetTimestampString c chunk w =
  (let msg := trim_line_end chunk in
   current_name <- GetClientName c ;;
   let dispatch :=
     if starts_with_hash msg then ProcessCommand GetTimestampString c msg
     else BroadcastToRoom c msg in
   if decide (current_name = "User#" +:+ to_string c) then
     if starts_with_hash msg then dispatch
     else
       SetClientName c msg ;;;
       r <- rooms_GetClientRoom c ;;
       let join_msg := msg +:+ " has joined #" +:+ r in
       members <- rooms_GetRoomMembers r ;;
       for_each members (λ member_id,
         if decide (member_id ≠ c) then SendToClient member_id join_msg
         else ret tt)
   else dispatch) (exec (admission c) w).
Proof.
  intros Hne Hok. pose proof (admission_not_muted c w Hok) as Hdead.
  rewrite admission_run.
  unfold HandleMessage. cbv zeta.
  rewrite decide_False by done.
  unfold bind at 1. destruct (cm_AllowMessage c w) as [allowed w2].
  cbn [fst snd] in Hok, Hdead. subst allowed. cbn [negb snd].
  unfold bind at 1.
  destruct (cm_RecordMessage c w2) as [[] w3]. cbn [fst snd] in Hdead. cbn [snd].
  unfold bind at 1.
  destruct (cm_IsMuted c w3) as [muted w4]. cbn [fst snd] in Hdead. subst muted.
  reflexivity.
Qed.

Lemma admission_frame c w :
  g_client_names (exec (admission c) w) = g_client_names w ∧
  g_chat_rooms (exec (admission c) w) = g_chat_rooms w ∧
  g_message_store (exec (admission c) w) = g_message_store w ∧
  clients (exec (admission c) w) = clients w ∧
  outbox (exec (admission c) w) = outbox w ∧
  disconnect_queue (exec (admission c) w) = disconnect_queue w.
Proof.
  rewrite admission_run.
  unfold cm_IsMuted, cm_RecordMessage, cm_AllowMessage, bind, steady_now.
  world_fields.
  destruct (ConnMgr.AllowMessage _ _ c (g_connection_manager w)) as [b cm1].
  world_fields.
  destruct (ConnMgr.IsMuted _ c _) as [b2 cm2]. world_fields. done.
Qed.

(** BroadcastToRoom stores the message under the sender's current room and
    name, and hands one line [<name>: <text>] to every member of that room
    that is connected, except the sender, who gets nothing back. *)
Theorem BroadcastToRoom_spec c text w :
  BroadcastToRoom c text w =
    (tt, with_outbox
           (outbox w ++
            fanout w (Some c)
              (ChatRoom.GetRoomMembers
                 (ChatRoom.GetClientRoom c (g_chat_rooms w)) (g_chat_rooms w))
              ((GetClientName c w).1 +:+ ": " +:+ text))
           (with_store
              (MsgStore.Store
                 {| MsgStore.sender_id := c;
                    MsgStore.sender_name := (GetClientName c w).1;
                    MsgStore.room := ChatRoom.GetClientRoom c (g_chat_rooms w);
                    MsgStore.content := text;
                    MsgStore.timestamp := system_clock w |}
                 (g_message_store w))
              (advance w))) ∧
  (∀ k line,
     (k, line) ∈ fanout w (Some c)
              (ChatRoom.GetRoomMembers
                 (ChatRoom.GetClientRoom c (g_chat_rooms w)) (g_chat_rooms w))
              ((GetClientName c w).1 +:+ ": " +:+ text) → k ≠ c) ∧
  (∀ k, k ≠ c → k ∈ id <$> clients w →
     k ∈ ChatRoom.GetRoomMembers
           (ChatRoom.GetClientRoom c (g_chat_rooms w)) (g_chat_rooms w) →
     (k, wire ((GetClientName c w).1 +:+ ": " +:+ text))
       ∈ fanout w (Some c)
              (ChatRoom.GetRoomMembers
                 (ChatRoom.GetClientRoom c (g_chat_rooms w)) (g_chat_rooms w))
              ((GetClientName c w).1 +:+ ": " +:+ text)).
Proof.
  split; [|split].
  - unfold BroadcastToRoom. unfold bind at 1.
    destruct (GetClientName c w) as [nm w0] eqn:Hnm.
    assert (w0 = w) as -> by (unfold GetClientName in Hnm; congruence).
    unfold bind at 1, rooms_GetClientRoom. unfold bind at 1, system_now.
    unfold bind at 1, store_Store. unfold bind at 1, rooms_GetRoomMembers.
    world_fields.
    rewrite for_each_others by (by apply append_not_nil).
    unfold fanout. world_fields. reflexivity.
  - intros k line Hin. by apply fanout_skips in Hin as (? & _).
  - intros k Hk Hconn Hmem. unfold fanout. apply list_elem_of_fmap.
    exists k. split; [done|]. apply list_elem_of_In, filter_In.
    split; [by apply list_elem_of_In|].
    rewrite (bool_decide_eq_false_2 (Some k = Some c)) by congruence.
    by rewrite bool_decide_eq_true_2.
Qed.

(** How HandleMessage routes a chunk whose trimmed text [msg] is not empty.
    Refused by AllowMessage: the sender gets the rate-limit line and
    nothing else happens.  Admitted: a text starting with # is run as a
    command, even for a client without a name; any other text names a
    client that still has its placeholder name (the others in its room are
    told, nothing is stored) and is broadcast for a named client.  The
    reply "You are muted." occurs in none of the cases. *)
Theorem HandleMessage_routes GetTimestampString c chunk w :
  trim_line_end chunk ≠ "" →
  ((cm_AllowMessage c w).1 = false →
   HandleMessage GetTimestampString c chunk w =
   SendToClient c "You are sending too many messages. Please slow down."
     (cm_AllowMessage c w).2) ∧
  ((cm_AllowMessage c w).1 = true →
   (starts_with_hash (trim_line_end chunk) = true →
    HandleMessage GetTimestampString c chunk w =
    ProcessCommand GetTimestampString c (trim_line_end chunk) (exec (admission c) w)) ∧
   (starts_with_hash (trim_line_end chunk) = false →
    (GetClientName c w).1 = "User#" +:+ to_string c →
    HandleMessage GetTimestampString c chunk w =
    (tt, with_outbox
           (outbox w ++
            fanout w (Some c)
              (ChatRoom.GetRoomMembers
                 (ChatRoom.GetClientRoom c (g_chat_rooms w)) (g_chat_rooms w))
              (trim_line_end chunk +:+ " has joined #" +:+
               ChatRoom.GetClientRoom c (g_chat_rooms w)))
           (with_names (names_set c (trim_line_end chunk) (g_client_names w))
              (exec (admission c) w)))) ∧
   (starts_with_hash (trim_line_end chunk) = false →
    (GetClientName c w).1 ≠ "User#" +:+ to_string c →
    HandleMessage GetTimestampString c chunk w =
    BroadcastToRoom c (trim_line_end chunk) (exec (admission c) w))).
Proof.
  intros Hne. split.
  - intros Hno. unfold HandleMessage. cbv zeta. rewrite decide_False by done.
    unfold bind at 1. destruct (cm_AllowMessage c w) as [allowed w2].
    cbn [fst snd] in *. by subst allowed.
  - intros Hok. pose proof (admission_frame c w) as (Hn & Hr & Hs & Hc & Ho & Hq).
    assert ((GetClientName c (exec (admission c) w)) =
            ((GetClientName c w).1, exec (admission c) w)) as Hname.
    { unfold GetClientName. by rewrite Hn. }
    split; [|split].
    + intros Hhash. rewrite HandleMessage_admitted by done. cbv zeta.
      unfold bind at 1. rewrite Hname, Hhash. by case_decide.
    + intros Hhash Hanon. rewrite HandleMessage_admitted by done. cbv zeta.
      unfold bind at 1. rewrite Hname, Hhash. rewrite decide_True by done.
      unfold bind at 1, SetClientName. unfold bind at 1, rooms_GetClientRoom.
      unfold bind at 1, rooms_GetRoomMembers. world_fields.
      rewrite for_each_others by (by apply append_not_nil).
      unfold fanout. world_fields. rewrite Hn, Hr, Hc, Ho. reflexivity.
    + intros Hhash Hnamed. rewrite HandleMessage_admitted by done. cbv zeta.
      unfold bind at 1. rewrite Hname, Hhash. by rewrite decide_False.
Qed.

Lemma HandleMessage_routes_witness :
  HandleMessage no_stamp 2 "hello" muted_world =
    SendToClient 2 "You are sending too many messages. Please slow down."
      (cm_AllowMessage 2 muted_world).2 ∧
  HandleMessage no_stamp 1 "hello" muted_world =
    BroadcastToRoom 1 "hello" (exec (admission 1) muted_world).
Proof.
  assert (trim_line_end "hello" ≠ "") as Hne by done.
  destruct (HandleMessage_routes no_stamp 2 "hello" muted_world Hne) as [Hno _].
  destruct (HandleMessage_routes no_stamp 1 "hello" muted_world Hne) as [_ Hyes].
  split.
  - apply Hno. vm_compute. reflexivity.
  - apply Hyes; [by vm_compute|by vm_compute|]. vm_compute. discriminate.
Defined.

Lemma extract_string_first u c rest :
  is_word u → isspace c = true →
  extract_string "" (istringstream_new (u +:+ String c rest)) =
  (u, {| buf := String c rest; good := true |}).
Proof.
  intros Hw Hc. unfold extract_string, istringstream_new. cbn [good buf].
  rewrite skipws_word by done. destruct Hw as [Hne Hu].
  destruct u as [|a u]; [done|]. rewrite app_String, <- app_String.
  rewrite take_word_app by done.
  by rewrite bool_decide_eq_false_2.
Qed.

Lemma extract_string_only u :
  is_word u →
  extract_string "" (istringstream_new u) = (u, {| buf := ""; good := false |}).
Proof.
  intros Hw. unfold extract_string, istringstream_new. cbn [good buf].
  pose proof (skipws_word u "" Hw) as Hs. rewrite append_nil_r_s in Hs. rewrite Hs.
  destruct Hw as [Hne Hu]. destruct u as [|a u]; [done|].
  rewrite take_word_end by done. by rewrite bool_decide_eq_true_2.
Qed.

(** A command word that ProcessCommand does not know, alone or followed by
    arguments, gets the reply "Unknown command. ..." and has no other
    effect. *)
Theorem unknown_command_reply GetTimestampString c word w :
  is_word word → word ∉ known_commands → c ∈ id <$> clients w →
  (ProcessCommand GetTimestampString c word w =
   (tt, with_outbox
          (outbox w ++
           [(c, "Unknown command. Type #help for available commands." +:+ nl)]) w)) ∧
  (∀ sp rest, isspace sp = true →
     ProcessCommand GetTimestampString c (word +:+ String sp rest) w =
     (tt, with_outbox
            (outbox w ++
             [(c, "Unknown command. Type #help for available commands." +:+ nl)]) w)).
Proof.
  intros Hw Hunknown Hc.
  assert (∀ cmd iss, extract_string "" (istringstream_new cmd) = (word, iss) →
            ProcessCommand GetTimestampString c cmd w =
            (tt, with_outbox
                   (outbox w ++
                    [(c, "Unknown command. Type #help for available commands." +:+ nl)])
                   w)) as Hrun.
  { intros cmd iss Hcmd. unfold ProcessCommand. unfold bind at 1. cbv beta iota zeta.
    destruct (GetClientName c w) as [nm w0] eqn:Hnm.
    assert (w0 = w) as -> by (unfold GetClientName in Hnm; congruence).
    rewrite Hcmd. cbv beta iota. unfold known_commands in Hunknown.
    do 12 (rewrite decide_False
             by (intros ->; apply Hunknown; repeat (first [by left|right]))).
    rewrite SendToClient_run by done. by rewrite bool_decide_eq_true_2. }
  split.
  - apply (Hrun _ _ (extract_string_only word Hw)).
  - intros sp rest Hsp. apply (Hrun _ _ (extract_string_first word sp rest Hw Hsp)).
Qed.

Lemma unknown_command_reply_witness :
  ProcessCommand no_stamp 1 "#dance" chat_world =
  (tt, with_outbox
         (outbox chat_world ++
          [(1, "Unknown command. Type #help for available commands." +:+ nl)])
         chat_world).
Proof.
  apply (unknown_command_reply no_stamp 1 "#dance" chat_world).
  - split; [done|reflexivity].
  - apply not_elem_by_compute. vm_compute. reflexivity.
  - vm_compute. left.
Defined.

Lemma two_sends_keep_cm a1 m1 a2 m2 w :
  g_connection_manager ((SendToClient a1 m1 ;;; SendToClient a2 m2) w).2 =
  g_connection_manager w.
Proof.
  unfold bind.
  destruct (SendToClient_keeps a1 m1 w) as [o1 Ho1].
  destruct (SendToClient a1 m1 w) as [[] w1]. cbn [snd] in Ho1. subst w1.
  destruct (SendToClient_keeps a2 m2 (with_outbox o1 w)) as [o2 Ho2].
  destruct (SendToClient a2 m2 (with_outbox o1 w)) as [[] w2]. cbn [snd] in *.
  by subst w2.
Qed.

(** [#mute <user> <junk>], where the seconds token does not start a
    number, and [#mute <user> 0] mute the user permanently: the failed
    extraction stores 0, and Mute takes 0 for "no expiry".  Every later
    IsMuted answers true. *)
Theorem mute_without_number_is_permanent GetTimestampString (w : World)
    (c u : Z) (user : string) :
  is_word user →
  (u, user) ∈ g_client_names w →
  (∀ k v, (k, v) ∈ g_client_names w → k ≠ -1) →
  (∀ a rest, isspace a = false → digit_value a = None →
     Ascii.eqb a "-" = false → Ascii.eqb a "+" = false →
     ∃ t, (t, user) ∈ g_client_names w ∧
       ConnMgr.muted_clients
         (g_connection_manager
            (exec (ProcessCommand GetTimestampString c
                     ("#mute " +:+ user +:+ " " +:+ String a rest)) w)) !! t
         = Some time_point_max ∧
       ∀ now, (ConnMgr.IsMuted now t
                 (g_connection_manager
                    (exec (ProcessCommand GetTimestampString c
                             ("#mute " +:+ user +:+ " " +:+ String a rest)) w))).1
              = true) ∧
  (∃ t, (t, user) ∈ g_client_names w ∧
     ConnMgr.muted_clients
       (g_connection_manager
          (exec (ProcessCommand GetTimestampString c
                   ("#mute " +:+ user +:+ " " +:+ to_string 0)) w)) !! t
       = Some time_point_max).
Proof.
  intros Hw Hu Hvalid.
  pose proof (find_by_name_elem user _ u Hu) as Ht.
  pose proof (names_valid_find user _ u Hu Hvalid) as Hne.
  assert (∀ tail,
            (extract_int 60 {| buf := String " " tail; good := true |}).1 = 0 →
            ConnMgr.muted_clients
              (g_connection_manager
                 (exec (ProcessCommand GetTimestampString c
                          ("#mute " +:+ user +:+ " " +:+ tail)) w))
              !! find_by_name user (g_client_names w) = Some time_point_max) as Hrun.
  { intros tail Hzero.
    unfold exec, ProcessCommand. unfold bind at 1. cbv beta iota zeta.
    destruct (GetClientName c w) as [nm w0] eqn:Hnm.
    assert (w0 = w) as -> by (unfold GetClientName in Hnm; congruence).
    assert (extract_string "" (istringstream_new ("#mute " +:+ user +:+ " " +:+ tail)) =
            ("#mute", {| buf := String " " (user +:+ String " " tail); good := true |}))
      as -> by reflexivity.
    cbv beta iota.
    do 11 (rewrite decide_False by discriminate).
    rewrite decide_True by reflexivity.
    rewrite extract_string_word by done.
    destruct (extract_int 60 {| buf := String " " tail; good := true |})
      as [duration iss'] eqn:Hint.
    cbn [fst] in Hzero. subst duration.
    cbv beta iota. unfold bind at 1. unfold lookup_target.
    rewrite decide_True by done.
    unfold bind at 1. rewrite cm_Mute_run.
    rewrite two_sends_keep_cm. world_fields.
    unfold ConnMgr.Mute. cbn [Z.eqb ConnMgr.with_muted_clients ConnMgr.muted_clients].
    by rewrite lookup_insert_eq. }
  split.
  - intros a rest Hsp Hdig Hminus Hplus.
    exists (find_by_name user (g_client_names w)). split; [done|].
    assert (ConnMgr.muted_clients
              (g_connection_manager
                 (exec (ProcessCommand GetTimestampString c
                          ("#mute " +:+ user +:+ " " +:+ String a rest)) w))
              !! find_by_name user (g_client_names w) = Some time_point_max) as Hentry.
    { apply Hrun. unfold extract_int. cbn [good buf skipws isspace]. rewrite Hsp.
      rewrite Hminus, Hplus. cbn [take_digits]. by rewrite Hdig. }
    split; [done|]. intros now. unfold ConnMgr.IsMuted. rewrite Hentry.
    by rewrite bool_decide_eq_false_2 by (by intros []).
  - exists (find_by_name user (g_client_names w)). split; [done|].
    apply Hrun. by rewrite extract_int_to_string.
Qed.

Lemma mute_without_number_is_permanent_witness :
  ∃ t, (t, "bob") ∈ g_client_names chat_world ∧
    ConnMgr.muted_clients
      (g_connection_manager
         (exec (ProcessCommand no_stamp 1
                  ("#mute " +:+ "bob" +:+ " " +:+ String "x" "y")) chat_world)) !! t
      = Some time_point_max.
Proof.
  destruct (mute_without_number_is_permanent no_stamp chat_world 1 2 "bob")
    as [Hjunk _].
  - split; [done|reflexivity].
  - vm_compute. right. left.
  - intros k v Hin. by destruct (chat_world_names_valid k v Hin).
  - destruct (Hjunk "x"%char "y") as (t & Ht & Hm & _); try reflexivity.
    exists t. by split.
Defined.

End ServerMore.

(* ===================================================================== *)
(** * Further properties: whole runs and the connection callbacks        *)
(* ===================================================================== *)

Module ServerRooms.
Import Mach IStream Server IStreamFacts ServerFacts ServerMore Samples.
Local Open Scope list_scope.

Section Keeps.

(** A property of the room manager that the three calls the callbacks make
    on it preserve, with the arguments they pass, is preserved by every
    callback. *)
Variable P : ChatRoom.ChatRoomManager → Prop.
Hypothesis P_join : ∀ r c st, P st → P (ChatRoom.JoinRoom r c "" st).2.
Hypothesis P_create : ∀ now r o st,
  P st → P (ChatRoom.CreateRoom now r o false "" st).2.
Hypothesis P_leave : ∀ c st, P st → P (ChatRoom.LeaveRoom c st).

Local Abbreviation keeps := (Server.keeps P).

Lemma keeps_ret {A : Type} (a : A) : keeps (ret a).
Proof. by intros w. Qed.

Lemma keeps_bind {A B : Type} (m : M A) (k : A → M B) :
  keeps m → (∀ a, keeps (k a)) → keeps (bind m k).
Proof.
  intros Hm Hk w HP. unfold bind. specialize (Hm w HP).
  destruct (m w) as [a w']. by apply Hk.
Qed.

Lemma keeps_same_rooms {A : Type} (m : M A) :
  (∀ w, g_chat_rooms (m w).2 = g_chat_rooms w) → keeps m.
Proof. intros H w HP. by rewrite H. Qed.

Lemma keeps_for_each {A : Type} (l : list A) (body : A → M unit) :
  (∀ x, keeps (body x)) → keeps (for_each l body).
Proof.
  intros Hb. induction l as [|x l IH]; simpl; [apply keeps_ret|].
  apply keeps_bind; [apply Hb|]. by intros _.
Qed.

Lemma keeps_Send c m : keeps (Send c m).
Proof.
  apply keeps_same_rooms. intros w. unfold Send. by case_bool_decide.
Qed.

Lemma keeps_SendToClient c m : keeps (SendToClient c m).
Proof.
  unfold SendToClient. case_decide; [apply keeps_ret|].
  apply keeps_bind; [apply keeps_Send|]. intros _. apply keeps_ret.
Qed.

Lemma keeps_steady_now : keeps steady_now.
Proof. by apply keeps_same_rooms. Qed.

Lemma keeps_system_now : keeps system_now.
Proof. by apply keeps_same_rooms. Qed.

Lemma keeps_JoinRoom r c : keeps (rooms_JoinRoom r c).
Proof.
  intros w HP. unfold rooms_JoinRoom.
  pose proof (P_join r c (g_chat_rooms w) HP) as HJ.
  by destruct (ChatRoom.JoinRoom r c "" (g_chat_rooms w)).
Qed.

Lemma keeps_CreateRoom r c : keeps (rooms_CreateRoom r c).
Proof.
  unfold rooms_CreateRoom. apply keeps_bind; [apply keeps_steady_now|].
  intros now w HP.
  pose proof (P_create now r c (g_chat_rooms w) HP) as HC.
  by destruct (ChatRoom.CreateRoom now r c false "" (g_chat_rooms w)).
Qed.

Lemma keeps_LeaveRoom c : keeps (rooms_LeaveRoom c).
Proof. intros w HP. by apply P_leave. Qed.

Lemma keeps_cm {A : Type} (m : M A) :
  (∀ w, ∃ cm x, m w = (x, with_cm cm w)) → keeps m.
Proof.
  intros H. apply keeps_same_rooms. intros w. destruct (H w) as (cm & x & ->). done.
Qed.

Lemma keeps_cm_AllowMessage c : keeps (cm_AllowMessage c).
Proof.
  unfold cm_AllowMessage. repeat (apply keeps_bind; [apply keeps_steady_now|intros ?]).
  apply keeps_cm. intros w. destruct (ConnMgr.AllowMessage _ _ _ _); eauto.
Qed.

Lemma keeps_cm_RecordMessage c : keeps (cm_RecordMessage c).
Proof.
  unfold cm_RecordMessage. repeat (apply keeps_bind; [apply keeps_steady_now|intros ?]).
  apply keeps_cm. intros w. eauto.
Qed.

Lemma keeps_cm_IsMuted c : keeps (cm_IsMuted c).
Proof.
  unfold cm_IsMuted. repeat (apply keeps_bind; [apply keeps_steady_now|intros ?]).
  apply keeps_cm. intros w. destruct (ConnMgr.IsMuted _ _ _); eauto.
Qed.

Lemma keeps_cm_AllowConnection ip : keeps (cm_AllowConnection ip).
Proof.
  unfold cm_AllowConnection. repeat (apply keeps_bind; [apply keeps_steady_now|intros ?]).
  apply keeps_cm. intros w. destruct (ConnMgr.AllowConnection _ _ _); eauto.
Qed.

Lemma keeps_cm_Mute c d : keeps (cm_Mute c d).
Proof.
  unfold cm_Mute. repeat (apply keeps_bind; [apply keeps_steady_now|intros ?]).
  apply keeps_cm. intros w. eauto.
Qed.

Create HintDb keeps.
Hint Resolve keeps_ret keeps_SendToClient keeps_JoinRoom keeps_CreateRoom
  keeps_LeaveRoom keeps_cm_AllowMessage keeps_cm_RecordMessage keeps_cm_IsMuted
  keeps_cm_AllowConnection keeps_cm_Mute keeps_steady_now keeps_system_now : keeps.

Ltac keeps_step :=
  first
    [ solve [auto with keeps]
    | solve [by apply keeps_same_rooms]
    | apply keeps_for_each; intros ?
    | apply keeps_bind; [|intros ?]
    | case_decide
    | match goal with
      | |- keeps (let '(_, _) := ?x in _) => destruct x
      | |- keeps (if ?b then _ else _) => destruct b
      | |- keeps (match ?o with Some _ => _ | None => _ end) => destruct o
      end ].

Lemma keeps_BroadcastToRoom c text : keeps (BroadcastToRoom c text).
Proof. unfold BroadcastToRoom. repeat keeps_step. Qed.

Lemma keeps_ProcessCommand fmt c cmd : keeps (ProcessCommand fmt c cmd).
Proof.
  unfold ProcessCommand. apply keeps_bind; [by apply keeps_same_rooms|]. intros nm.
  cbv zeta. destruct (extract_string "" (istringstream_new cmd)) as [command iss].
  repeat keeps_step.
  all: try (intros w HP; by apply keeps_SendToClient).
  apply keeps_Send.
Qed.

Lemma keeps_HandleMessage fmt c message : keeps (HandleMessage fmt c message).
Proof.
  unfold HandleMessage. cbv zeta.
  pose proof (keeps_ProcessCommand fmt) as HPC.
  pose proof keeps_BroadcastToRoom as HB.
  repeat keeps_step.
Qed.

Lemma keeps_HandleConnect c ip : keeps (HandleConnect c ip).
Proof. unfold HandleConnect. repeat keeps_step. Qed.

Lemma keeps_HandleDisconnect c : keeps (HandleDisconnect c).
Proof. unfold HandleDisconnect. repeat keeps_step. Qed.

Lemma keeps_handle fmt w e :
  P (g_chat_rooms w) → P (g_chat_rooms (handle fmt w e)).
Proof.
  intros HP. destruct e; simpl; try done.
  - by apply keeps_HandleConnect.
  - by apply keeps_HandleMessage.
  - by apply keeps_HandleDisconnect.
Qed.

Lemma keeps_serve fmt es : ∀ w,
  P (g_chat_rooms w) → P (g_chat_rooms (serve fmt es w)).
Proof.
  unfold serve. induction es as [|e es IH]; intros w HP; [done|].
  simpl. apply IH. by apply keeps_handle.
Qed.

End Keeps.

(** Whatever the transport delivers, the room manager stays consistent:
    #general exists, and a client is a member of a room exactly when the
    client table of the manager records that room for it. *)
Theorem serve_keeps_rooms_consistent fmt es w :
  ChatRoom.Inv (g_chat_rooms w) →
  ChatRoom.Inv (g_chat_rooms (serve fmt es w)).
Proof.
  apply (keeps_serve ChatRoom.Inv).
  - intros. by apply ChatRoomFacts.Inv_JoinRoom.
  - intros. by apply ChatRoomFacts.Inv_CreateRoom.
  - intros. by apply ChatRoomFacts.Inv_LeaveRoom.
Qed.

Lemma serve_keeps_rooms_consistent_witness :
  ChatRoom.Inv (g_chat_rooms
    (serve no_stamp
       [Accepted 1 "10.0.0.1"; Connected 1 "10.0.0.1"; Message 1 "alice";
        Message 1 "#create den"; Message 1 "#leave"; Disconnected 1]
       (World_init 0 0 []))).
Proof.
  apply serve_keeps_rooms_consistent. apply ChatRoomFacts.Inv_init.
Defined.

Lemma exists_after_alter (f : ChatRoom.Room → ChatRoom.Room) k
    (m : gmap string ChatRoom.Room) r :
  is_Some (m !! r) → is_Some (alter f k m !! r).
Proof.
  intros [R HR]. destruct (decide (k = r)) as [->|Hne].
  - rewrite lookup_alter_eq, HR. by eexists.
  - rewrite lookup_alter_ne by done. by eexists.
Qed.

(** The server never removes a room: a room that exists keeps existing
    through every callback. *)
Theorem rooms_never_removed fmt es w r :
  ChatRoom.RoomExists r (g_chat_rooms w) = true →
  ChatRoom.RoomExists r (g_chat_rooms (serve fmt es w)) = true.
Proof.
  apply (keeps_serve (λ st, ChatRoom.RoomExists r st = true)).
  - intros r' c st H. apply bool_decide_eq_true in H. apply bool_decide_eq_true.
    unfold ChatRoom.JoinRoom.
    destruct (ChatRoom.rooms st !! r') as [R|]; [|done].
    destruct (ChatRoom.is_private R && _); [done|]. cbn [snd ChatRoom.rooms].
    apply exists_after_alter.
    destruct (ChatRoom.client_rooms st !! c); [by apply exists_after_alter|done].
  - intros now r' o st H. apply bool_decide_eq_true in H.
    apply bool_decide_eq_true. unfold ChatRoom.CreateRoom.
    destruct (ChatRoom.rooms st !! r') eqn:Hr'; [done|]. cbn [snd ChatRoom.rooms].
    rewrite lookup_insert_ne; [done|]. intros ->. rewrite Hr' in H. by destruct H.
  - intros c st H. apply bool_decide_eq_true in H. apply bool_decide_eq_true.
    unfold ChatRoom.LeaveRoom.
    destruct (ChatRoom.client_rooms st !! c); [|done]. cbn [ChatRoom.rooms].
    by apply exists_after_alter.
Qed.

Lemma rooms_never_removed_witness :
  ChatRoom.RoomExists "den"
    (g_chat_rooms (serve no_stamp [Message 1 "#leave"; Disconnected 1; Disconnected 2]
                     (exec (HandleMessage no_stamp 1 "#create den") chat_world))) = true.
Proof.
  apply rooms_never_removed. vm_compute. reflexivity.
Defined.


Lemma public_after_alter (f : gset Z → gset Z) k (m : gmap string ChatRoom.Room) :
  (∀ r R, m !! r = Some R → ChatRoom.is_private R = false) →
  ∀ r R, alter (ChatRoom.set_members f) k m !! r = Some R →
         ChatRoom.is_private R = false.
Proof.
  intros Hall r R HR. destruct (decide (k = r)) as [->|Hne].
  - rewrite lookup_alter_eq in HR. destruct (m !! r) as [R0|] eqn:H0; [|done].
    injection HR as <-. by apply (Hall r R0).
  - rewrite lookup_alter_ne in HR by done. by apply (Hall r R).
Qed.

(** In a server started by [main], whatever the transport delivers, every
    room is public: [#join <room>] succeeds exactly when the room exists,
    no password ever stands in the way. *)
Theorem join_fails_only_for_missing_room fmt es steady system ticks r c :
  (ChatRoom.JoinRoom r c ""
     (g_chat_rooms (serve fmt es (World_init steady system ticks)))).1 =
  ChatRoom.RoomExists r (g_chat_rooms (serve fmt es (World_init steady system ticks))).
Proof.
  assert (∀ r R, ChatRoom.rooms
                   (g_chat_rooms (serve fmt es (World_init steady system ticks))) !! r
                 = Some R → ChatRoom.is_private R = false) as Hpub.
  { apply (keeps_serve (λ st, ∀ r R, ChatRoom.rooms st !! r = Some R →
                                      ChatRoom.is_private R = false)).
    - intros r' c' st Hall. unfold ChatRoom.JoinRoom.
      destruct (ChatRoom.rooms st !! r') as [R0|]; [|done].
      destruct (ChatRoom.is_private R0 && _); [done|]. cbn [snd ChatRoom.rooms].
      apply public_after_alter.
      destruct (ChatRoom.client_rooms st !! c'); [by apply public_after_alter|done].
    - intros now r' o st Hall. unfold ChatRoom.CreateRoom.
      destruct (ChatRoom.rooms st !! r') eqn:Hr'; [done|]. cbn [snd ChatRoom.rooms].
      intros r0 R0 HR0. destruct (decide (r' = r0)) as [->|Hne].
      + rewrite lookup_insert_eq in HR0. by injection HR0 as <-.
      + rewrite lookup_insert_ne in HR0 by done. by apply (Hall r0).
    - intros c' st Hall. unfold ChatRoom.LeaveRoom.
      destruct (ChatRoom.client_rooms st !! c'); [|done]. cbn [ChatRoom.rooms].
      by apply public_after_alter.
    - intros r0 R0 HR0. cbn in HR0.
      apply lookup_singleton_Some in HR0 as [_ <-]. reflexivity. }
  unfold ChatRoom.JoinRoom, ChatRoom.RoomExists.
  destruct (ChatRoom.rooms _ !! r) as [R|] eqn:HR.
  - rewrite (Hpub r R HR). cbn [andb fst]. by rewrite bool_decide_eq_true_2.
  - cbn [fst]. rewrite bool_decide_eq_false_2; [done|]. by intros [? ?].
Qed.

(** ** The disconnect callback *)

Lemma names_find_erase c l : names_find c (names_erase c l) = None.
Proof.
  unfold names_erase. induction l as [|[k v] l IH]; [done|].
  cbn [List.filter fst]. case_bool_decide as Hk; cbn [negb]; [done|].
  cbn [names_find]. by rewrite decide_False.
Qed.

Lemma fanout_same_clients w w' skip members message :
  clients w' = clients w → fanout w' skip members message = fanout w skip members message.
Proof. intros H. unfold fanout. by rewrite H. Qed.

Lemma HandleDisconnect_run c w :
  HandleDisconnect c w =
  (tt,
   if decide (ChatRoom.GetClientRoom c (g_chat_rooms w) ≠ "") then
     with_outbox
       (outbox w ++
        fanout w None
          (ChatRoom.GetRoomMembers (ChatRoom.GetClientRoom c (g_chat_rooms w))
             (ChatRoom.LeaveRoom c (g_chat_rooms w)))
          ((GetClientName c w).1 +:+ " has left the chat"))
       (with_names (names_erase c (g_client_names w))
          (with_cm (ConnMgr.OnDisconnect (g_connection_manager w))
             (with_rooms (ChatRoom.LeaveRoom c (g_chat_rooms w)) w)))
   else
     with_names (names_erase c (g_client_names w))
       (with_cm (ConnMgr.OnDisconnect (g_connection_manager w))
          (with_rooms (ChatRoom.LeaveRoom c (g_chat_rooms w)) w))).
Proof.
  unfold HandleDisconnect, bind, GetClientName, rooms_GetClientRoom, rooms_LeaveRoom,
    cm_OnDisconnect, rooms_GetRoomMembers, ret.
  world_fields. case_decide as Hr; [|done].
  rewrite for_each_all by (by apply append_not_nil).
  world_fields. f_equal.
Qed.

Lemma not_member_after_leave c st r :
  ChatRoom.Inv st → c ∉ ChatRoom.GetRoomMembers r (ChatRoom.LeaveRoom c st).
Proof.
  intros HI Hin.
  pose proof (ChatRoomFacts.Inv_LeaveRoom c st HI) as [_ Hm'].
  unfold ChatRoom.GetRoomMembers in Hin.
  destruct (ChatRoom.rooms (ChatRoom.LeaveRoom c st) !! r) as [R|] eqn:HR;
    [|by apply elem_of_nil in Hin].
  apply elem_of_elements in Hin.
  assert (ChatRoom.client_rooms (ChatRoom.LeaveRoom c st) !! c = Some r) as Hc
    by (apply Hm'; eauto).
  unfold ChatRoom.LeaveRoom in Hc.
  destruct (ChatRoom.client_rooms st !! c) eqn:Hcur.
  - cbn [ChatRoom.client_rooms] in Hc. by rewrite lookup_delete_eq in Hc.
  - congruence.
Qed.

(** After the disconnect callback for [c], nothing of the client is left:
    it has no registered name, no room is recorded for it, and it is a
    member of no room; the other clients' names and the transport's client
    table are as before.  The farewell line goes to the connected members
    the client's room has left, never to [c] itself. *)
Theorem disconnect_cleans_up c w :
  ChatRoom.Inv (g_chat_rooms w) →
  names_find c (g_client_names (exec (HandleDisconnect c) w)) = None ∧
  (∀ k, k ≠ c → names_find k (g_client_names (exec (HandleDisconnect c) w)) =
                 names_find k (g_client_names w)) ∧
  ChatRoom.client_rooms (g_chat_rooms (exec (HandleDisconnect c) w)) !! c = None ∧
  (∀ r, c ∉ ChatRoom.GetRoomMembers r (g_chat_rooms (exec (HandleDisconnect c) w))) ∧
  ChatRoom.Inv (g_chat_rooms (exec (HandleDisconnect c) w)) ∧
  clients (exec (HandleDisconnect c) w) = clients w ∧
  ∃ lines, outbox (exec (HandleDisconnect c) w) = outbox w ++ lines ∧
    ∀ k line, (k, line) ∈ lines →
      k ≠ c ∧ k ∈ id <$> clients w ∧
      k ∈ ChatRoom.GetRoomMembers (ChatRoom.GetClientRoom c (g_chat_rooms w))
            (g_chat_rooms (exec (HandleDisconnect c) w)) ∧
      line = wire ((GetClientName c w).1 +:+ " has left the chat").
Proof.
  intros HI. unfold exec. rewrite HandleDisconnect_run. cbn [snd].
  assert (∀ k l, k ≠ c → names_find k (names_erase c l) = names_find k l) as Hother.
  { intros k l Hk. unfold names_erase. induction l as [|[a v] l IH]; [done|].
    cbn [List.filter fst names_find]. case_bool_decide as Ha; cbn [negb].
    - subst a. by rewrite decide_False by done.
    - cbn [names_find]. by rewrite IH. }
  assert (ChatRoom.client_rooms (ChatRoom.LeaveRoom c (g_chat_rooms w)) !! c = None)
    as Hgone.
  { unfold ChatRoom.LeaveRoom.
    destruct (ChatRoom.client_rooms (g_chat_rooms w) !! c) eqn:Hcur; [|done].
    cbn [ChatRoom.client_rooms]. by rewrite lookup_delete_eq. }
  pose proof (ChatRoomFacts.Inv_LeaveRoom c _ HI) as HI'.
  case_decide as Hr; world_fields.
  - split_and!; try done.
    + apply names_find_erase.
    + intros k Hk. by apply Hother.
    + intros r. by apply not_member_after_leave.
    + eexists. split; [done|]. intros k line Hin.
      unfold fanout in Hin.
      apply list_elem_of_fmap in Hin as (m & [= -> ->] & Hm).
      apply list_elem_of_In, filter_In in Hm as [Hm Hcond].
      apply andb_true_iff in Hcond as [_ Hconn]. apply bool_decide_eq_true in Hconn.
      apply list_elem_of_In in Hm.
      split_and!; try done.
      intros ->. by apply (not_member_after_leave c (g_chat_rooms w) _ HI) in Hm.
  - split_and!; try done.
    + apply names_find_erase.
    + intros k Hk. by apply Hother.
    + intros r. by apply not_member_after_leave.
    + exists []. split; [by rewrite app_nil_r|]. intros k line Hin.
      by apply elem_of_nil in Hin.
Qed.

Lemma chat_world_rooms_consistent : ChatRoom.Inv (g_chat_rooms chat_world).
Proof.
  assert (∀ r c st, ChatRoom.Inv st → ChatRoom.Inv (ChatRoom.JoinRoom r c "" st).2)
    as Hj by (intros; by apply ChatRoomFacts.Inv_JoinRoom).
  assert (∀ now r o st, ChatRoom.Inv st →
            ChatRoom.Inv (ChatRoom.CreateRoom now r o false "" st).2)
    as Hc by (intros; by apply ChatRoomFacts.Inv_CreateRoom).
  unfold chat_world. cbn [foldl]. unfold exec.
  do 3 apply (keeps_HandleMessage ChatRoom.Inv Hj Hc).
  do 3 apply (keeps_HandleConnect ChatRoom.Inv Hj).
  apply ChatRoomFacts.Inv_init.
Qed.

Lemma disconnect_cleans_up_witness :
  names_find 2 (g_client_names (exec (HandleDisconnect 2) chat_world)) = None ∧
  ∀ r, 2 ∉ ChatRoom.GetRoomMembers r (g_chat_rooms (exec (HandleDisconnect 2) chat_world)).
Proof.
  pose proof (disconnect_cleans_up 2 chat_world chat_world_rooms_consistent)
    as (Hname & _ & _ & Hrooms & _).
  split; [exact Hname|exact Hrooms].
Defined.

(** ** The connect callback *)

Lemma cm_AllowConnection_run ip w :
  cm_AllowConnection ip w =
  ((ConnMgr.AllowConnection (steady_clock w) ip (g_connection_manager w)).1,
   with_cm (ConnMgr.AllowConnection (steady_clock w) ip (g_connection_manager w)).2
     (advance w)).
Proof.
  unfold cm_AllowConnection, bind, steady_now. world_fields.
  by destruct (ConnMgr.AllowConnection _ _ _).
Qed.

Lemma HandleConnect_run c ip w :
  HandleConnect c ip w =
  (if negb (ConnMgr.AllowConnection (steady_clock w) ip (g_connection_manager w)).1
   then DisconnectClient c
   else cm_OnConnect ;;; rooms_JoinRoom "general" c ;;;
        SendToClient c
          ("Welcome to the chat server! You are in #general." +:+ nl +:+
           "Type #help for available commands." +:+ nl))
    (with_cm (ConnMgr.AllowConnection (steady_clock w) ip (g_connection_manager w)).2
       (advance w)).
Proof. unfold HandleConnect. unfold bind at 1. by rewrite cm_AllowConnection_run. Qed.

Lemma AllowConnection_keeps_count now ip cm :
  ConnMgr.current_connections (ConnMgr.AllowConnection now ip cm).2 =
  ConnMgr.current_connections cm.
Proof. unfold ConnMgr.AllowConnection. repeat case_match; done. Qed.

Lemma JoinRoom_public nm c pw st R :
  ChatRoom.rooms st !! nm = Some R → ChatRoom.is_private R = false →
  ∃ st', ChatRoom.JoinRoom nm c pw st = (true, st') ∧
    ChatRoom.client_rooms st' !! c = Some nm ∧
    ∃ R', ChatRoom.rooms st' !! nm = Some R' ∧ c ∈ ChatRoom.members R'.
Proof.
  intros HR Hpub. unfold ChatRoom.JoinRoom. rewrite HR, Hpub. cbn [andb].
  eexists. split; [done|]. cbn [ChatRoom.rooms ChatRoom.client_rooms].
  split; [by rewrite lookup_insert_eq|].
  rewrite lookup_alter_eq.
  assert (∃ R1, match ChatRoom.client_rooms st !! c with
                | Some cur =>
                    alter (ChatRoom.set_members (λ m, m ∖ {[c]})) cur (ChatRoom.rooms st)
                | None => ChatRoom.rooms st
                end !! nm = Some R1) as [R1 ->].
  { destruct (ChatRoom.client_rooms st !! c) as [cur|]; [|by eauto].
    destruct (decide (cur = nm)) as [->|Hne].
    - rewrite lookup_alter_eq, HR. simpl. eauto.
    - rewrite lookup_alter_ne by done. eauto. }
  eexists. split; [done|]. rewrite ChatRoomFacts.set_members_members. set_solver.
Qed.

(** HandleConnect for a connection that AllowConnection refuses (banned
    address, server full, or too many connections in the last second)
    only drops it: the client leaves the transport's table and its
    disconnect callback is queued; it is not counted, joins no room and is
    sent nothing.  For an accepted connection, while #general is public,
    the count goes up by one, the client is put in #general and is sent
    the two welcome lines. *)
Theorem HandleConnect_spec c ip w :
  ((ConnMgr.AllowConnection (steady_clock w) ip (g_connection_manager w)).1 = false →
   (c ∉ id <$> clients (exec (HandleConnect c ip) w)) ∧
   disconnect_queue (exec (HandleConnect c ip) w) = disconnect_queue w ++ [c] ∧
   ConnMgr.GetConnectionCount (g_connection_manager (exec (HandleConnect c ip) w)) =
     ConnMgr.GetConnectionCount (g_connection_manager w) ∧
   g_chat_rooms (exec (HandleConnect c ip) w) = g_chat_rooms w ∧
   outbox (exec (HandleConnect c ip) w) = outbox w) ∧
  ((ConnMgr.AllowConnection (steady_clock w) ip (g_connection_manager w)).1 = true →
   c ∈ id <$> clients w →
   (∃ G, ChatRoom.rooms (g_chat_rooms w) !! "general" = Some G ∧
         ChatRoom.is_private G = false) →
   ConnMgr.GetConnectionCount (g_connection_manager (exec (HandleConnect c ip) w)) =
     wrap32 (ConnMgr.GetConnectionCount (g_connection_manager w) + 1) ∧
   ChatRoom.GetClientRoom c (g_chat_rooms (exec (HandleConnect c ip) w)) = "general" ∧
   c ∈ ChatRoom.GetRoomMembers "general" (g_chat_rooms (exec (HandleConnect c ip) w)) ∧
   clients (exec (HandleConnect c ip) w) = clients w ∧
   disconnect_queue (exec (HandleConnect c ip) w) = disconnect_queue w ∧
   outbox (exec (HandleConnect c ip) w) =
     outbox w ++ [(c, "Welcome to the chat server! You are in #general." +:+ nl +:+
                      "Type #help for available commands." +:+ nl)]).
Proof.
  unfold exec. rewrite !HandleConnect_run.
  unfold ConnMgr.GetConnectionCount.
  pose proof (AllowConnection_keeps_count (steady_clock w) ip (g_connection_manager w))
    as Hcount.
  split.
  - intros Hno. rewrite Hno. cbn [negb]. unfold DisconnectClient. world_fields.
    split_and!; try done.
    intros Hin. apply list_elem_of_fmap in Hin as (x & Hx & Hin).
    apply list_elem_of_In, filter_In in Hin as [_ Hf].
    apply negb_true_iff, bool_decide_eq_false in Hf. by symmetry in Hx.
  - intros Hyes Hc (G & HG & Hpub). rewrite Hyes. cbn [negb].
    destruct (JoinRoom_public "general" c "" (g_chat_rooms w) G HG Hpub)
      as (st' & HJ & Hcr & G' & HG' & HcG').
    unfold bind, cm_OnConnect, rooms_JoinRoom. world_fields. rewrite HJ. world_fields.
    rewrite SendToClient_run by discriminate. world_fields.
    rewrite bool_decide_eq_true_2 by done. world_fields.
    unfold ChatRoom.GetClientRoom, ChatRoom.GetRoomMembers. rewrite Hcr, HG'.
    unfold ConnMgr.OnConnect. cbn [ConnMgr.with_current_connections
      ConnMgr.current_connections]. rewrite Hcount.
    split_and!; try done. by apply elem_of_elements.
Qed.

Lemma HandleConnect_spec_witness :
  ChatRoom.GetClientRoom 4
    (g_chat_rooms (exec (HandleConnect 4 "10.0.0.4:5000")
                     (accept_client 4 "10.0.0.4:5000" chat_world))) = "general" ∧
  ConnMgr.GetConnectionCount
    (g_connection_manager (exec (HandleConnect 4 "10.0.0.4:5000")
                             (accept_client 4 "10.0.0.4:5000" chat_world))) =
  wrap32 (ConnMgr.GetConnectionCount
            (g_connection_manager (accept_client 4 "10.0.0.4:5000" chat_world)) + 1).
Proof.
  destruct (HandleConnect_spec 4 "10.0.0.4:5000"
              (accept_client 4 "10.0.0.4:5000" chat_world)) as [_ Hyes].
  destruct Hyes as (Hn & Hr & _).
  - vm_compute. reflexivity.
  - vm_compute. do 3 right. left.
  - eexists. split; [vm_compute; reflexivity|reflexivity].
  - split; [exact Hr|exact Hn].
Defined.

(** A refused connection is never counted by OnConnect, yet its queued
    disconnect callback runs OnDisconnect: a refusal while clients are
    connected leaves the connection count one too low. *)
Theorem refused_connection_lowers_count fmt c ip w :
  (ConnMgr.AllowConnection (steady_clock w) ip (g_connection_manager w)).1 = false →
  0 < ConnMgr.GetConnectionCount (g_connection_manager w) ≤ INT_MAX →
  disconnect_queue (serve fmt [Connected c ip] w) = disconnect_queue w ++ [c] ∧
  ConnMgr.GetConnectionCount
    (g_connection_manager (serve fmt [Connected c ip; Disconnected c] w)) =
  ConnMgr.GetConnectionCount (g_connection_manager w) - 1.
Proof.
  intros Hno Hpos. unfold serve. cbn [foldl handle].
  unfold exec at 1 3. rewrite !HandleConnect_run, Hno. cbn [negb fst snd].
  unfold DisconnectClient. world_fields. split; [done|].
  unfold exec. rewrite HandleDisconnect_run. cbn [snd].
  pose proof (AllowConnection_keeps_count (steady_clock w) ip (g_connection_manager w))
    as Hcount.
  unfold ConnMgr.GetConnectionCount in *.
  case_decide; world_fields; unfold ConnMgr.OnDisconnect; rewrite Hcount;
    (destruct (Z.ltb_spec 0 (ConnMgr.current_connections (g_connection_manager w)));
     [|lia]);
    cbn [ConnMgr.with_current_connections ConnMgr.current_connections];
    apply ConnMgrFacts.wrap32_small; unfold INT_MIN, INT_MAX in *; lia.
Qed.

Lemma refused_connection_lowers_count_witness :
  ConnMgr.GetConnectionCount
    (g_connection_manager
       (serve no_stamp [Connected 9 "10.0.0.9:5000"; Disconnected 9]
          (exec (cm_Ban "10.0.0.9:5000") chat_world))) =
  ConnMgr.GetConnectionCount
    (g_connection_manager (exec (cm_Ban "10.0.0.9:5000") chat_world)) - 1.
Proof.
  apply (refused_connection_lowers_count no_stamp 9 "10.0.0.9:5000"
           (exec (cm_Ban "10.0.0.9:5000") chat_world)).
  - vm_compute. reflexivity.
  - vm_compute. split; [reflexivity|discriminate].
Defined.

(** ** #kick *)

Lemma SendToClient_gone c message w :
  c ∉ id <$> clients w → SendToClient c message w = (tt, w).
Proof.
  intros Hc. unfold SendToClient. case_decide; [done|].
  unfold bind, ret, Send. by rewrite bool_decide_eq_false_2.
Qed.

Lemma kick_command user :
  is_word user →
  extract_string "" (istringstream_new ("#kick " +:+ user)) =
  ("#kick", {| buf := String " " user; good := true |}).
Proof. reflexivity. Qed.

(** [#kick <user>], from any client: if no registered client has that
    name the sender is told so and nothing else happens.  Otherwise the
    first client registered under the name is told who kicked it, leaves
    the transport's table and has its disconnect callback queued, and the
    sender is sent a confirmation; a sender that kicks itself gets none,
    being gone from the table by then.  No privilege is asked for. *)
Theorem kick_spec fmt c user w :
  is_word user → c ∈ id <$> clients w →
  (find_by_name user (g_client_names w) = -1 →
   ProcessCommand fmt c ("#kick " +:+ user) w =
   (tt, with_outbox (outbox w ++ [(c, "User not found" +:+ nl)]) w)) ∧
  (find_by_name user (g_client_names w) ≠ -1 →
   find_by_name user (g_client_names w) ∈ id <$> clients w →
   (find_by_name user (g_client_names w) ∉
      id <$> clients (exec (ProcessCommand fmt c ("#kick " +:+ user)) w)) ∧
   disconnect_queue (exec (ProcessCommand fmt c ("#kick " +:+ user)) w) =
     disconnect_queue w ++ [find_by_name user (g_client_names w)] ∧
   outbox (exec (ProcessCommand fmt c ("#kick " +:+ user)) w) =
     outbox w ++
     (find_by_name user (g_client_names w),
      wire ("You have been kicked by " +:+ (GetClientName c w).1)) ::
     (if decide (find_by_name user (g_client_names w) = c) then []
      else [(c, wire ("Kicked " +:+ user))]) ∧
   g_client_names (exec (ProcessCommand fmt c ("#kick " +:+ user)) w) =
     g_client_names w ∧
   g_chat_rooms (exec (ProcessCommand fmt c ("#kick " +:+ user)) w) = g_chat_rooms w).
Proof.
  intros Hw Hc. unfold exec.
  assert (ProcessCommand fmt c ("#kick " +:+ user) w =
          (let target_id := find_by_name user (g_client_names w) in
           if decide (target_id ≠ -1) then
             SendToClient target_id
               ("You have been kicked by " +:+ (GetClientName c w).1) ;;;
             DisconnectClient target_id ;;;
             SendToClient c ("Kicked " +:+ user)
           else SendToClient c "User not found") w) as ->.
  { unfold ProcessCommand. unfold bind at 1. cbv beta iota zeta.
    destruct (GetClientName c w) as [nm w0] eqn:Hnm.
    assert (w0 = w) as -> by (unfold GetClientName in Hnm; congruence).
    rewrite kick_command by done. cbv beta iota. cbn [fst].
    do 9 (rewrite decide_False by discriminate).
    rewrite decide_True by reflexivity.
    rewrite extract_string_last by done. cbv beta iota.
    unfold bind at 1. unfold lookup_target. done. }
  cbv zeta. split.
  - intros Hnone. rewrite decide_False by (by intros []).
    by rewrite SendToClient_line by (done || discriminate).
  - intros Hsome Hconn. rewrite decide_True by done.
    set (t := find_by_name user (g_client_names w)) in *.
    assert ("You have been kicked by " +:+ (GetClientName c w).1 ≠ "") as Hne1
      by discriminate.
    assert ("Kicked " +:+ user ≠ "") as Hne2 by discriminate.
    unfold bind. rewrite SendToClient_run by done.
    rewrite bool_decide_eq_true_2 by done.
    unfold DisconnectClient. world_fields.
    assert (t ∉ id <$> List.filter (λ x, negb (bool_decide (id x = t))) (clients w))
      as Hgone.
    { intros Hin. apply list_elem_of_fmap in Hin as (x & Hx & Hin).
      apply list_elem_of_In, filter_In in Hin as [_ Hf].
      apply negb_true_iff, bool_decide_eq_false in Hf. by symmetry in Hx. }
    case_decide as Hself.
    + rewrite SendToClient_gone by (world_fields; by rewrite <- Hself).
      world_fields. by split_and!.
    + rewrite SendToClient_run by done. world_fields.
      rewrite bool_decide_eq_true_2.
      * world_fields. split_and!; try done. by rewrite <- app_assoc.
      * apply list_elem_of_fmap in Hc as (x & -> & Hin).
        apply list_elem_of_fmap. exists x. split; [done|].
        apply list_elem_of_In, filter_In. split; [by apply list_elem_of_In|].
        apply negb_true_iff, bool_decide_eq_false. by intros Heq.
Qed.

Lemma kick_spec_witness :
  outbox (exec (ProcessCommand no_stamp 1 ("#kick " +:+ "bob")) chat_world) =
  outbox chat_world ++
  [(2, "You have been kicked by alice" +:+ nl); (1, "Kicked bob" +:+ nl)] ∧
  2 ∉ id <$> clients (exec (ProcessCommand no_stamp 1 ("#kick " +:+ "bob")) chat_world).
Proof.
  destruct (kick_spec no_stamp 1 "bob" chat_world) as [_ Hk].
  - split; [done|reflexivity].
  - vm_compute. left.
  - destruct Hk as (Hgone & _ & Hout & _).
    + vm_compute. discriminate.
    + vm_compute. right. left.
    + split; [|exact Hgone]. rewrite Hout. vm_compute. reflexivity.
Defined.

End ServerRooms.
